(** * Ride monitor backend: the notification engine

    A shallow embedding of the notification engine of the ride monitor
    server (the second script of [disneyDiningService.js]): the ride
    readiness check [checkAndNotifyUsers], the reminder check
    [checkEventReminders], the dispatcher [sendPushNotifications], the
    nightly [autoArchivePastDates], the routes under [/api/users] that
    write the stores these jobs read, and the snapshot provider
    ([organizeParkData], [updateParkDataCache]) that builds the rides the
    readiness check reads.

    Modelling conventions.
    - The module-level [let] bindings of the server are the fields of
      [State]; every job and every route is a function from [State] to
      [State] (plus what it emits).  A job runs to its end on the state it
      is given: two jobs taking turns at an [await] are not modelled.
    - JS objects used as dictionaries keyed by user id, date, or ride id are
      [gmap string _]; the order in which [Object.entries] lists such an
      object is not observable in the model (the loop bodies only touch the
      entry of the key they visit).  The snapshot [parkDataCache] keeps its
      order: parks, lands and rides are association lists and lists.
      The jobs visit the users in the order of [map_to_list]; the server
      visits them in the order in which the keys were inserted, so a
      statement that depends on the order is made for every order
      ([checkAndNotifyUsersIn]).
    - The keys under which the stores are read and written (user ids,
      dates, ride ids of Lightning Lanes) are taken to be none of the names
      every JS object inherits from [Object.prototype] ([plainKey]): under
      such a name a read of a plain object finds the inherited member, and
      the server then throws or writes to an object shared by all the
      stores.  This is an assumption of the whole model; [plainKey] and
      [plainRequest] name it where a statement is made under it
      explicitly.
    - A JS [Set] of ride ids is a [gset string].
    - The values have the types the server's own comments give them:
      strings, booleans, and numbers that are integers [Z] (wait times,
      minutes, epoch milliseconds).  Where the server builds a [Date] from
      a number or prints a number, the limits of JS numbers are modelled:
      [newDate] is an Invalid Date outside the range of [Date], and
      [numberToString] gives the decimal digits for safe integers only.
    - What the server imports from packages outside the repository (the
      Expo SDK, the [Date] parser and formatter) is the interface
      [Externals]; what the snapshot provider takes from the platform (the
      two HTTP requests, the clock, the formatters) is the interface
      [Platform]. *)

From stdpp Require Import gmap strings list fin_maps pretty.
From Stdlib Require Import ZArith.

(** ** Data model *)

Module Ride.
(** An entry of [parkDataCache[park].lands[land]], as built by
    [organizeParkData]; the fields the engine never reads (forecasts,
    return times, ...) are left out. *)
Record t := mk { id : string; name : string; currentWait : Z; status : string }.
End Ride.

Module Pref.
(** [userPreferences[userId][rideId]]. *)
Record t := mk { enabled : bool; maxWait : Z }.
End Pref.

Module ParkData.
Record t := mk { name : string; lands : list (string * list Ride.t) }.
End ParkData.

Module ReadyRide.
(** [{...ride, land: landName, park: parkData.name}]. *)
Record t := mk { ride : Ride.t; land : string; park : string }.
Definition id (r : t) : string := Ride.id (ride r).
Definition name (r : t) : string := Ride.name (ride r).
Definition currentWait (r : t) : Z := Ride.currentWait (ride r).
End ReadyRide.

Module Show.
Record t := mk {
  showId : string; showName : string; selectedTime : string;
  travelTime : Z; notified : bool; finalWarningNotified : bool }.
Definition setNotified (s : t) : t :=
  mk (showId s) (showName s) (selectedTime s) (travelTime s) true (finalWarningNotified s).
Definition setFinalWarningNotified (s : t) : t :=
  mk (showId s) (showName s) (selectedTime s) (travelTime s) (notified s) true.
End Show.

Module Dining.
Record t := mk {
  id : string; restaurantName : string; time : string; type : string;
  travelTime : Z; notified : bool }.
Definition setNotified (b : bool) (d : t) : t :=
  mk (id d) (restaurantName d) (time d) (type d) (travelTime d) b.
Definition setTime (v : string) (d : t) : t :=
  mk (id d) (restaurantName d) v (type d) (travelTime d) (notified d).
Definition setType (v : string) (d : t) : t :=
  mk (id d) (restaurantName d) (time d) v (travelTime d) (notified d).
Definition setTravelTime (v : Z) (d : t) : t :=
  mk (id d) (restaurantName d) (time d) (type d) v (notified d).
End Dining.

Module Lane.
Record t := mk { rideName : string; returnTime : string; travelTime : Z; notified : bool }.
Definition setNotified (l : t) : t := mk (rideName l) (returnTime l) (travelTime l) true.
End Lane.

Module Archive.
Record t := mk {
  shows : list Show.t; dining : list Dining.t; lightningLanes : gmap string Lane.t }.
End Archive.

(** The [data] payload of a push message, one constructor per [type]. *)
Inductive MessageData :=
| DataRide (rideCount : nat) (rides : string)
| DataShow (showId : string)
| DataShowWarning (showId : string)
| DataDining (diningId : string)
| DataLightningLane (rideId : string).

Module Message.
Record t := mk {
  to : string; sound : string; title : string; body : string;
  data : MessageData; priority : string; channelId : string }.
End Message.

Module Ticket.
(** A push ticket: [status], and [details.error] when [details] is there. *)
Record t := mk { status : string; details_error : option string }.
End Ticket.

(** The packages the server calls into.  [sendPushNotificationsAsync n chunk]
    is the outcome of the [n]-th submission of one dispatch: [None] when the
    promise rejects, the tickets otherwise.  [parseDate s] is
    [new Date(s).getTime()], [None] for an invalid date (the time value of
    a valid date is within 8.64e15 ms of the epoch).  [unsafeNumberToString n]
    is what JS prints for a number that is no safe integer (the digits are
    rounded above 2^53 and the notation is exponential from 1e21 on). *)
Class Externals := {
  isExpoPushToken : string → bool;
  chunkPushNotifications : list Message.t → list (list Message.t);
  sendPushNotificationsAsync : nat → list Message.t → option (list Ticket.t);
  parseDate : string → option Z;
  toLocaleTimeString : Z → string;
  unsafeNumberToString : Z → string
}.

Record State := mkState {
  parkDataCache : list (string * ParkData.t);
  userPreferences : gmap string (gmap string Pref.t);
  userDeviceTokens : gmap string string;
  notifiedRides : gmap string (gset string);
  userShowSchedules : gmap string (gmap string (list Show.t));
  userDiningSchedules : gmap string (gmap string (list Dining.t));
  userLightningLanes : gmap string (gmap string (gmap string Lane.t));
  archivedSchedules : gmap string (gmap string Archive.t)
}.

Definition setUserPreferences (v : gmap string (gmap string Pref.t)) (st : State) : State :=
  mkState (parkDataCache st) v (userDeviceTokens st) (notifiedRides st)
    (userShowSchedules st) (userDiningSchedules st) (userLightningLanes st)
    (archivedSchedules st).

Definition setUserDeviceTokens (v : gmap string string) (st : State) : State :=
  mkState (parkDataCache st) (userPreferences st) v (notifiedRides st)
    (userShowSchedules st) (userDiningSchedules st) (userLightningLanes st)
    (archivedSchedules st).

Definition setNotifiedRides (v : gmap string (gset string)) (st : State) : State :=
  mkState (parkDataCache st) (userPreferences st) (userDeviceTokens st) v
    (userShowSchedules st) (userDiningSchedules st) (userLightningLanes st)
    (archivedSchedules st).

Definition setUserShowSchedules (v : gmap string (gmap string (list Show.t))) (st : State) : State :=
  mkState (parkDataCache st) (userPreferences st) (userDeviceTokens st) (notifiedRides st)
    v (userDiningSchedules st) (userLightningLanes st) (archivedSchedules st).

Definition setUserDiningSchedules (v : gmap string (gmap string (list Dining.t))) (st : State) : State :=
  mkState (parkDataCache st) (userPreferences st) (userDeviceTokens st) (notifiedRides st)
    (userShowSchedules st) v (userLightningLanes st) (archivedSchedules st).

Definition setUserLightningLanes (v : gmap string (gmap string (gmap string Lane.t))) (st : State) : State :=
  mkState (parkDataCache st) (userPreferences st) (userDeviceTokens st) (notifiedRides st)
    (userShowSchedules st) (userDiningSchedules st) v (archivedSchedules st).

Definition setArchivedSchedules (v : gmap string (gmap string Archive.t)) (st : State) : State :=
  mkState (parkDataCache st) (userPreferences st) (userDeviceTokens st) (notifiedRides st)
    (userShowSchedules st) (userDiningSchedules st) (userLightningLanes st) v.

(** JS truthiness of a string: only the empty string is falsy. *)
Definition truthy (s : string) : bool := negb (String.eqb s "").

(** [Number.MAX_SAFE_INTEGER], 2^53 - 1. *)
Definition MAX_SAFE_INTEGER : Z := 9007199254740991.

(** A number in a template literal: the decimal digits of a safe integer,
    with its sign; what the platform prints for any other number. *)
Definition numberToString {ext : Externals} (n : Z) : string :=
  if (Z.abs n <=? MAX_SAFE_INTEGER)%Z then pretty n else unsafeNumberToString n.

(** The largest time value of a [Date], 8.64e15 ms. *)
Definition MAX_TIME : Z := 8640000000000000.

(** [new Date(t)] for a number [t]: its time value, [None] for the Invalid
    Date that a number outside the range gives.  The numbers the server
    passes are a time value minus a whole number of minutes times 60000:
    in JS arithmetic such a difference is exact whenever it is in the range
    of [Date], and outside the range whenever it is rounded. *)
Definition newDate (t : Z) : option Z :=
  if (Z.abs t <=? MAX_TIME)%Z then Some t else None.

(** [now >= date] for two dates, [now] a valid one: the time values are
    compared, and the comparison with an Invalid Date is false. *)
Definition reached (now : Z) (date : option Z) : bool :=
  match date with
  | Some t => (t <=? now)%Z
  | None => false
  end.

(** [!pushToken || !Expo.isExpoPushToken(pushToken)] negated: the token of
    [userId] when the jobs may notify that user. *)
Definition pushTokenOf {ext : Externals} (tokens : gmap string string) (userId : string) : option string :=
  match tokens !! userId with
  | Some pushToken => if truthy pushToken && isExpoPushToken pushToken then Some pushToken else None
  | None => None
  end.

(** ** Ride readiness ([checkAndNotifyUsers]) *)

(** The condition of the [if] inside the three nested [forEach]. *)
Definition qualifies (preferences : gmap string Pref.t) (ride : Ride.t) : bool :=
  match preferences !! Ride.id ride with
  | Some pref =>
      Pref.enabled pref
      && (Ride.currentWait ride <=? Pref.maxWait pref)%Z
      && (String.eqb (Ride.status ride) "OPERATING" || String.eqb (Ride.status ride) "DOWN")
  | None => false
  end.

(** [readyRides] and [currentReadyRideIds], threaded through the loops. *)
Definition scanRide (preferences : gmap string Pref.t) (parkData : ParkData.t)
    (landName : string) (acc : list ReadyRide.t * gset string) (ride : Ride.t)
    : list ReadyRide.t * gset string :=
  if qualifies preferences ride
  then (acc.1 ++ [ReadyRide.mk ride landName (ParkData.name parkData)],
        {[Ride.id ride]} ∪ acc.2)
  else acc.

Definition scanLand (preferences : gmap string Pref.t) (parkData : ParkData.t)
    (acc : list ReadyRide.t * gset string) (land : string * list Ride.t)
    : list ReadyRide.t * gset string :=
  foldl (scanRide preferences parkData land.1) acc land.2.

Definition scanPark (preferences : gmap string Pref.t)
    (acc : list ReadyRide.t * gset string) (park : string * ParkData.t)
    : list ReadyRide.t * gset string :=
  foldl (scanLand preferences park.2) acc (ParkData.lands park.2).

Definition scanParks (preferences : gmap string Pref.t)
    (cache : list (string * ParkData.t)) : list ReadyRide.t * gset string :=
  foldl (scanPark preferences) ([], ∅) cache.

(** [readyRides.filter(ride => !notifiedRides[userId].has(ride.id))]. *)
Definition newReadyRides (notified : gset string) (readyRides : list ReadyRide.t)
    : list ReadyRide.t :=
  filter (λ r, ReadyRide.id r ∉ notified) readyRides.

(** The evaluation of one user: the newly ready rides, in the order of the
    scan, and the ids of all rides ready now. *)
Definition evaluate (preferences : gmap string Pref.t)
    (cache : list (string * ParkData.t)) (notified : gset string)
    : list ReadyRide.t * gset string :=
  let scan := scanParks preferences cache in
  (newReadyRides notified scan.1, scan.2).

(** [a.join(', ')]. *)
Fixpoint join (sep : string) (l : list string) : string :=
  match l with
  | [] => ""
  | [x] => x
  | x :: rest => x +:+ sep +:+ join sep rest
  end.

(** The [body] of the ride message; [firstRide] is [newReadyRides[0]]. *)
Definition rideReadyBody {ext : Externals} (firstRide : ReadyRide.t) (rideCount : nat)
    : string :=
  if (rideCount =? 1)%nat
  then ReadyRide.name firstRide +:+ " is now "
       +:+ numberToString (ReadyRide.currentWait firstRide) +:+ " min wait!"
  else ReadyRide.name firstRide +:+ " and " +:+ pretty (rideCount - 1)%nat +:+ " other ride"
       +:+ (if (2 <? rideCount)%nat then "s are" else " is") +:+ " ready!".

Definition rideReadyMessage {ext : Externals} (pushToken : string)
    (newReady : list ReadyRide.t) (firstRide : ReadyRide.t) : Message.t :=
  let rideCount := length newReady in
  Message.mk pushToken "default" "🎢 Ride Ready!" (rideReadyBody firstRide rideCount)
    (DataRide rideCount (join ", " (ReadyRide.name <$> newReady)))
    "high" "ride-alerts".

(** [if (newReadyRides.length > 0) { ... messages.push(...) }]. *)
Definition rideMessages {ext : Externals} (pushToken : string) (newReady : list ReadyRide.t)
    : list Message.t :=
  match newReady with
  | [] => []
  | firstRide :: _ => [rideReadyMessage pushToken newReady firstRide]
  end.

(** One turn of the loop over [Object.entries(userPreferences)]. *)
Definition notifyUser {ext : Externals} (acc : list Message.t * State)
    (entry : string * gmap string Pref.t) : list Message.t * State :=
  let st := acc.2 in
  match pushTokenOf (userDeviceTokens st) entry.1 with
  | None => acc
  | Some pushToken =>
      let result :=
        evaluate entry.2 (parkDataCache st) (default ∅ (notifiedRides st !! entry.1)) in
      (acc.1 ++ rideMessages pushToken result.1,
       setNotifiedRides (<[entry.1 := result.2]> (notifiedRides st)) st)
  end.

(** ** Dispatch ([sendPushNotifications]) *)

(** The inner [Object.entries(userDeviceTokens).forEach]: every user whose
    token is [token] loses the registration. *)
Definition removeToken (token : string) (tokens : gmap string string) : gmap string string :=
  foldl (λ acc entry, if String.eqb entry.2 token then delete entry.1 acc else acc)
        tokens (map_to_list tokens).

Definition deviceNotRegistered (ticket : Ticket.t) : bool :=
  String.eqb (Ticket.status ticket) "error"
  && match Ticket.details_error ticket with
     | Some e => String.eqb e "DeviceNotRegistered"
     | None => false
     end.

(** [ticketChunk.forEach((ticket, index) => ...)].  A ticket past the end of
    the chunk has no message: reading [message.to] for the first registered
    user throws, the enclosing [catch] takes over and the rest of the tickets
    is not looked at.  (With no user registered nothing is read and the loop
    goes on, but then there is nothing left to remove.) *)
Fixpoint forEachTicket (chunk : list Message.t) (tickets : list Ticket.t) (index : nat)
    (tokens : gmap string string) : gmap string string :=
  match tickets with
  | [] => tokens
  | ticket :: rest =>
      if deviceNotRegistered ticket then
        match chunk !! index with
        | Some message =>
            forEachTicket chunk rest (S index) (removeToken (Message.to message) tokens)
        | None => tokens
        end
      else forEachTicket chunk rest (S index) tokens
  end.

(** The loop over the chunks; the second component records the chunks handed
    to the gateway, in order. *)
Fixpoint sendChunks {ext : Externals} (call : nat) (chunks : list (list Message.t))
    (tokens : gmap string string) : gmap string string * list (list Message.t) :=
  match chunks with
  | [] => (tokens, [])
  | chunk :: rest =>
      let tokens' :=
        match sendPushNotificationsAsync call chunk with
        | Some ticketChunk => forEachTicket chunk ticketChunk 0 tokens
        | None => tokens
        end in
      let later := sendChunks (S call) rest tokens' in
      (later.1, chunk :: later.2)
  end.

Definition sendPushNotifications {ext : Externals} (messages : list Message.t)
    (tokens : gmap string string) : gmap string string * list (list Message.t) :=
  if (length messages =? 0)%nat then (tokens, [])
  else sendChunks 0 (chunkPushNotifications messages) tokens.

(** What a job leaves behind: the stores, the messages it queued, and the
    chunks it submitted. *)
Record Outcome := mkOutcome {
  after : State; queued : list Message.t; submitted : list (list Message.t) }.

Definition dispatch {ext : Externals} (messages : list Message.t) (st : State) : Outcome :=
  let sent := sendPushNotifications messages (userDeviceTokens st) in
  mkOutcome (setUserDeviceTokens sent.1 st) messages sent.2.

Definition checkAndNotifyUsers {ext : Externals} (st : State) : Outcome :=
  let looped := foldl notifyUser ([], st) (map_to_list (userPreferences st)) in
  dispatch looped.1 looped.2.


(** ** Reminders ([checkEventReminders]) *)

(** A loop over an array whose body may push messages and flip fields of the
    element it visits. *)
Fixpoint forEachItem {A : Type} (body : A → list Message.t * A) (items : list A)
    : list Message.t * list A :=
  match items with
  | [] => ([], [])
  | item :: rest =>
      let r := body item in
      let rs := forEachItem body rest in
      (r.1 ++ rs.1, r.2 :: rs.2)
  end.

(** The same over [Object.entries(o)]: the body may push messages and change
    what is stored under the key it visits. *)
Definition entryTurn {V : Type} (body : string → V → list Message.t * V)
    (acc : list Message.t * gmap string V) (entry : string * V)
    : list Message.t * gmap string V :=
  let r := body entry.1 entry.2 in
  (acc.1 ++ r.1, <[entry.1 := r.2]> acc.2).

Definition forEachEntry {V : Type} (body : string → V → list Message.t * V)
    (o : gmap string V) : list Message.t * gmap string V :=
  foldl (entryTurn body) ([], o) (map_to_list o).

Definition showReminder {ext : Externals} (pushToken : string) (show : Show.t) (showTime : Z)
    : Message.t :=
  Message.mk pushToken "default" "🎭 Time to Head to Show!"
    (Show.showName show +:+ " at " +:+ toLocaleTimeString showTime +:+ " - Leave now!")
    (DataShow (Show.showId show)) "high" "event-alerts".

Definition showFinalWarning (pushToken : string) (show : Show.t) : Message.t :=
  Message.mk pushToken "default" "🎭 Show Starting Soon!"
    (Show.showName show +:+ " starts in 5 minutes!")
    (DataShowWarning (Show.showId show)) "high" "event-alerts".

(** The body of [for (const show of todayShows)].  With an invalid
    [selectedTime] both thresholds are Invalid Dates and both comparisons
    fail; so does the comparison with a threshold that falls outside the
    range of [Date]. *)
Definition checkShow {ext : Externals} (now : Z) (pushToken : string) (show : Show.t)
    : list Message.t * Show.t :=
  match parseDate (Show.selectedTime show) with
  | None => ([], show)
  | Some showTime =>
      let reminderTime := newDate (showTime - Show.travelTime show * 60000) in
      let finalWarningTime := newDate (showTime - 5 * 60000) in
      let main :=
        if reached now reminderTime && negb (Show.notified show)
        then ([showReminder pushToken show showTime], Show.setNotified show)
        else ([], show) in
      let final :=
        if reached now finalWarningTime && negb (Show.finalWarningNotified main.2)
        then ([showFinalWarning pushToken main.2], Show.setFinalWarningNotified main.2)
        else ([], main.2) in
      (main.1 ++ final.1, final.2)
  end.

Definition diningReminder {ext : Externals} (pushToken : string) (dining : Dining.t) (diningTime : Z)
    : Message.t :=
  Message.mk pushToken "default" "🍽️ Dining Reminder!"
    (Dining.restaurantName dining +:+ " reservation at " +:+ toLocaleTimeString diningTime
     +:+ " - Time to go!")
    (DataDining (Dining.id dining)) "high" "event-alerts".

Definition checkDining {ext : Externals} (now : Z) (pushToken : string) (dining : Dining.t)
    : list Message.t * Dining.t :=
  match parseDate (Dining.time dining) with
  | None => ([], dining)
  | Some diningTime =>
      let reminderTime := newDate (diningTime - Dining.travelTime dining * 60000) in
      if reached now reminderTime && negb (Dining.notified dining)
      then ([diningReminder pushToken dining diningTime], Dining.setNotified true dining)
      else ([], dining)
  end.

Definition laneReminder {ext : Externals} (pushToken rideId : string) (lane : Lane.t) (returnTime : Z)
    : Message.t :=
  Message.mk pushToken "default" "⚡ Lightning Lane Time!"
    ("Your Lightning Lane for " +:+ Lane.rideName lane +:+ " is at "
     +:+ toLocaleTimeString returnTime +:+ " - Head over now!")
    (DataLightningLane rideId) "high" "event-alerts".

Definition checkLane {ext : Externals} (now : Z) (pushToken rideId : string) (lane : Lane.t)
    : list Message.t * Lane.t :=
  match parseDate (Lane.returnTime lane) with
  | None => ([], lane)
  | Some returnTime =>
      let reminderTime := newDate (returnTime - Lane.travelTime lane * 60000) in
      if reached now reminderTime && negb (Lane.notified lane)
      then ([laneReminder pushToken rideId lane returnTime], Lane.setNotified lane)
      else ([], lane)
  end.

(** One turn of a loop over the users of a schedule store: skip the user
    without a usable token, take [schedulesByDate[todayString]] (nothing to
    do when the date is not there) and run [checkToday] over it. *)
Definition remindUser {ext : Externals} {T : Type}
    (checkToday : string → T → list Message.t * T)
    (today : string) (tokens : gmap string string)
    (userId : string) (schedulesByDate : gmap string T)
    : list Message.t * gmap string T :=
  match pushTokenOf tokens userId with
  | None => ([], schedulesByDate)
  | Some pushToken =>
      match schedulesByDate !! today with
      | None => ([], schedulesByDate)
      | Some todayItems =>
          let r := checkToday pushToken todayItems in
          (r.1, <[today := r.2]> schedulesByDate)
      end
  end.

Definition remindShows {ext : Externals} (now : Z) (today : string) (tokens : gmap string string)
    (store : gmap string (gmap string (list Show.t)))
    : list Message.t * gmap string (gmap string (list Show.t)) :=
  forEachEntry (remindUser (λ pushToken, forEachItem (checkShow now pushToken)) today tokens) store.

Definition remindDining {ext : Externals} (now : Z) (today : string) (tokens : gmap string string)
    (store : gmap string (gmap string (list Dining.t)))
    : list Message.t * gmap string (gmap string (list Dining.t)) :=
  forEachEntry (remindUser (λ pushToken, forEachItem (checkDining now pushToken)) today tokens) store.

Definition remindLanes {ext : Externals} (now : Z) (today : string) (tokens : gmap string string)
    (store : gmap string (gmap string (gmap string Lane.t)))
    : list Message.t * gmap string (gmap string (gmap string Lane.t)) :=
  forEachEntry (remindUser (λ pushToken, forEachEntry (checkLane now pushToken)) today tokens) store.

(** [now] is [new Date()] and [today] is [getTodayDateString()], both read
    once on entry. *)
Definition checkEventReminders {ext : Externals} (now : Z) (today : string) (st : State) : Outcome :=
  let tokens := userDeviceTokens st in
  let shows := remindShows now today tokens (userShowSchedules st) in
  let dining := remindDining now today tokens (userDiningSchedules st) in
  let lanes := remindLanes now today tokens (userLightningLanes st) in
  dispatch (shows.1 ++ dining.1 ++ lanes.1)
    (setUserLightningLanes lanes.2
       (setUserDiningSchedules dining.2
          (setUserShowSchedules shows.2 st))).

(** ** Archival ([autoArchivePastDates]) *)

(** [o[userId]?.[date]]. *)
Definition lookup2 {V : Type} (o : gmap string (gmap string V)) (userId date : string)
    : option V :=
  o !! userId ≫= (λ byDate, byDate !! date).

(** The body of the inner loop, for one [[date, shows]] of one user.  The
    comparison [date < today] is the order of JS strings, which on the ASCII
    dates of the stores is [String.ltb]. *)
Definition archiveDate (today userId : string) (st : State) (entry : string * list Show.t)
    : State :=
  let date := entry.1 in
  if String.ltb date today then
    let archive :=
      Archive.mk entry.2
        (default [] (lookup2 (userDiningSchedules st) userId date))
        (default ∅ (lookup2 (userLightningLanes st) userId date)) in
    let st1 :=
      setArchivedSchedules
        (<[userId := <[date := archive]> (default ∅ (archivedSchedules st !! userId))]>
           (archivedSchedules st)) st in
    let st2 := setUserShowSchedules (alter (delete date) userId (userShowSchedules st1)) st1 in
    let st3 := setUserDiningSchedules (alter (delete date) userId (userDiningSchedules st2)) st2 in
    setUserLightningLanes (alter (delete date) userId (userLightningLanes st3)) st3
  else st.

Definition archiveUser (today : string) (st : State)
    (user : string * gmap string (list Show.t)) : State :=
  foldl (archiveDate today user.1) st (map_to_list user.2).

Definition autoArchivePastDates (today : string) (st : State) : State :=
  foldl (archiveUser today) st (map_to_list (userShowSchedules st)).

(** ** The routes that write the stores *)

(** A field of a request body or query string: [None] when it is missing.
    [given] is the test [!field] negated. *)
Definition given (field : option string) : option string :=
  match field with
  | Some s => if truthy s then Some s else None
  | None => None
  end.

Arguments given : simpl never.

(** [list.find(p)] followed by assignments to the fields of the element
    found: [None] when [find] returns [undefined]. *)
Fixpoint editFirst {A : Type} (p : A → bool) (edit : A → A) (l : list A) : option (list A) :=
  match l with
  | [] => None
  | x :: rest =>
      if p x then Some (edit x :: rest)
      else match editFirst p edit rest with
           | Some rest' => Some (x :: rest')
           | None => None
           end
  end.

(** [array.filter(p)] with a boolean test. *)
Fixpoint keep {A : Type} (p : A → bool) (l : list A) : list A :=
  match l with
  | [] => []
  | x :: rest => if p x then x :: keep p rest else keep p rest
  end.

(** The requests served under [/api/users/:userId] that assign to a store.
    [generatedId] of [PostDining] is the value [generateId()] returns while
    the request is served; the body of [PostPreferences] is taken to carry
    a [preferences] object.  The two other routes that write stores are no
    constructors: [POST /api/refresh] runs [updateParkDataCache] and
    [POST /api/debug/check-notifications] runs [checkAndNotifyUsers] and
    then [checkEventReminders], so what holds of these jobs holds of them. *)
Inductive Request :=
| PostPreferences (userId : string) (preferences : gmap string Pref.t)
| PostRegisterDevice (userId : string) (pushToken : option string)
| PostUnregisterDevice (userId : string)
| PostShow (userId : string) (date showId showName selectedTime : option string)
    (travelTime : option Z)
| DeleteShow (userId showId : string) (date : option string)
| PostDining (userId : string) (date restaurantName time type : option string)
    (travelTime : option Z) (generatedId : string)
| PutDining (userId diningId : string) (date time type : option string)
    (travelTime : option Z)
| DeleteDining (userId diningId : string) (date : option string)
| PostLightningLane (userId : string) (date rideId rideName returnTime : option string)
    (travelTime : option Z)
| DeleteLightningLane (userId rideId : string) (date : option string)
| DeleteArchive (userId date : string).

(** The assignments of [app.put('/api/users/:userId/dining/:diningId')] to
    the reservation found. *)
Definition editDining (time type : option string) (travelTime : option Z) (dining : Dining.t)
    : Dining.t :=
  let d1 := match given time with Some v => Dining.setTime v dining | None => dining end in
  let d2 := match given type with Some v => Dining.setType v d1 | None => d1 end in
  let d3 := match travelTime with Some v => Dining.setTravelTime v d2 | None => d2 end in
  Dining.setNotified false d3.

(** A route: the stores afterwards and the HTTP status of the answer.  The
    reads [store[userId]], [store[userId][date]] and
    [store[userId][date][rideId]] are lookups of own keys: this is what the
    server does for the keys that satisfy [plainRequest]. *)
Definition handle {ext : Externals} (r : Request) (st : State) : State * nat :=
  match r with
  | PostPreferences userId preferences =>
      (setUserPreferences (<[userId := preferences]> (userPreferences st)) st, 200)
  | PostRegisterDevice userId pushToken =>
      match given pushToken with
      | None => (st, 400)
      | Some token =>
          if isExpoPushToken token then
            let st1 := setUserDeviceTokens (<[userId := token]> (userDeviceTokens st)) st in
            (match notifiedRides st1 !! userId with
             | Some _ => st1
             | None => setNotifiedRides (<[userId := ∅]> (notifiedRides st1)) st1
             end, 200)
          else (st, 400)
      end
  | PostUnregisterDevice userId =>
      let st1 := setUserDeviceTokens (delete userId (userDeviceTokens st)) st in
      (setNotifiedRides (delete userId (notifiedRides st1)) st1, 200)
  | PostShow userId date showId showName selectedTime travelTime =>
      match given date, given showId, given showName, given selectedTime, travelTime with
      | Some date, Some showId, Some showName, Some selectedTime, Some travelTime =>
          let byDate := default ∅ (userShowSchedules st !! userId) in
          let shows := default [] (byDate !! date) in
          let show := Show.mk showId showName selectedTime travelTime false false in
          (setUserShowSchedules
             (<[userId := <[date := shows ++ [show]]> byDate]> (userShowSchedules st)) st,
           200)
      | _, _, _, _, _ => (st, 400)
      end
  | DeleteShow userId showId date =>
      match given date with
      | None => (st, 404)
      | Some date =>
          match userShowSchedules st !! userId with
          | None => (st, 404)
          | Some byDate =>
              match byDate !! date with
              | None => (st, 404)
              | Some shows =>
                  let shows' := keep (λ show, negb (String.eqb (Show.showId show) showId)) shows in
                  (setUserShowSchedules
                     (<[userId := <[date := shows']> byDate]> (userShowSchedules st)) st,
                   200)
              end
          end
      end
  | PostDining userId date restaurantName time type travelTime generatedId =>
      match given date, given restaurantName, given time, given type, travelTime with
      | Some date, Some restaurantName, Some time, Some type, Some travelTime =>
          let byDate := default ∅ (userDiningSchedules st !! userId) in
          let dining := default [] (byDate !! date) in
          let item := Dining.mk generatedId restaurantName time type travelTime false in
          (setUserDiningSchedules
             (<[userId := <[date := dining ++ [item]]> byDate]> (userDiningSchedules st)) st,
           200)
      | _, _, _, _, _ => (st, 400)
      end
  | PutDining userId diningId date time type travelTime =>
      match given date with
      | None => (st, 404)
      | Some date =>
          match userDiningSchedules st !! userId with
          | None => (st, 404)
          | Some byDate =>
              match byDate !! date with
              | None => (st, 404)
              | Some dining =>
                  match editFirst (λ d, String.eqb (Dining.id d) diningId)
                                  (editDining time type travelTime) dining with
                  | None => (st, 404)
                  | Some dining' =>
                      (setUserDiningSchedules
                         (<[userId := <[date := dining']> byDate]> (userDiningSchedules st)) st,
                       200)
                  end
              end
          end
      end
  | DeleteDining userId diningId date =>
      match given date with
      | None => (st, 404)
      | Some date =>
          match userDiningSchedules st !! userId with
          | None => (st, 404)
          | Some byDate =>
              match byDate !! date with
              | None => (st, 404)
              | Some dining =>
                  let dining' := keep (λ d, negb (String.eqb (Dining.id d) diningId)) dining in
                  (setUserDiningSchedules
                     (<[userId := <[date := dining']> byDate]> (userDiningSchedules st)) st,
                   200)
              end
          end
      end
  | PostLightningLane userId date rideId rideName returnTime travelTime =>
      match given date, given rideId, given rideName, given returnTime, travelTime with
      | Some date, Some rideId, Some rideName, Some returnTime, Some travelTime =>
          let byDate := default ∅ (userLightningLanes st !! userId) in
          let lanes := default ∅ (byDate !! date) in
          let lane := Lane.mk rideName returnTime travelTime false in
          (setUserLightningLanes
             (<[userId := <[date := <[rideId := lane]> lanes]> byDate]> (userLightningLanes st)) st,
           200)
      | _, _, _, _, _ => (st, 400)
      end
  | DeleteLightningLane userId rideId date =>
      match given date with
      | None => (st, 404)
      | Some date =>
          match userLightningLanes st !! userId with
          | None => (st, 404)
          | Some byDate =>
              match byDate !! date with
              | None => (st, 404)
              | Some lanes =>
                  (setUserLightningLanes
                     (<[userId := <[date := delete rideId lanes]> byDate]> (userLightningLanes st)) st,
                   200)
              end
          end
      end
  | DeleteArchive userId date =>
      match lookup2 (archivedSchedules st) userId date with
      | None => (st, 404)
      | Some _ =>
          (setArchivedSchedules (alter (delete date) userId (archivedSchedules st)) st, 200)
      end
  end.

(** [app.get('/api/users/:userId/ready-rides')]: the same test as the
    notification job, without the set of ids. *)
Definition collectReady (preferences : gmap string Pref.t) (cache : list (string * ParkData.t))
    : list ReadyRide.t :=
  foldl (λ readyRides park,
           foldl (λ readyRides land,
                    foldl (λ readyRides ride,
                             if qualifies preferences ride
                             then readyRides ++ [ReadyRide.mk ride land.1 (ParkData.name park.2)]
                             else readyRides)
                          readyRides land.2)
                 readyRides (ParkData.lands park.2))
        [] cache.

Definition getReadyRides (st : State) (userId : string) : list ReadyRide.t :=
  match userPreferences st !! userId with
  | None => []
  | Some preferences => collectReady preferences (parkDataCache st)
  end.

(** ** Vocabulary of the statements *)

(** The rides of a snapshot in the order the nested [forEach] visits them,
    each with its land and park. *)
Definition landRides (parkData : ParkData.t) (land : string * list Ride.t) : list ReadyRide.t :=
  (λ ride, ReadyRide.mk ride land.1 (ParkData.name parkData)) <$> land.2.

Definition parkRides (park : string * ParkData.t) : list ReadyRide.t :=
  ParkData.lands park.2 ≫= landRides park.2.

Definition snapshotRides (cache : list (string * ParkData.t)) : list ReadyRide.t :=
  cache ≫= parkRides.

(** The rides of a snapshot that pass the test of the scan. *)
Definition qualifying (preferences : gmap string Pref.t) (l : list ReadyRide.t)
    : list ReadyRide.t :=
  filter (λ r, qualifies preferences (ReadyRide.ride r) = true) l.

Definition idsOf (l : list ReadyRide.t) : gset string := list_to_set (ReadyRide.id <$> l).

(** The entries of the live schedule stores. *)
Definition showAt (st : State) (userId date : string) (i : nat) : option Show.t :=
  lookup2 (userShowSchedules st) userId date ≫= (λ shows, shows !! i).

Definition diningAt (st : State) (userId date : string) (i : nat) : option Dining.t :=
  lookup2 (userDiningSchedules st) userId date ≫= (λ dining, dining !! i).

Definition laneAt (st : State) (userId date rideId : string) : option Lane.t :=
  lookup2 (userLightningLanes st) userId date ≫= (λ lanes, lanes !! rideId).

(** An event is the same event as before and no flag that was set is clear. *)
Definition showKept (before after : Show.t) : Prop :=
  Show.showId after = Show.showId before
  ∧ Show.showName after = Show.showName before
  ∧ Show.selectedTime after = Show.selectedTime before
  ∧ Show.travelTime after = Show.travelTime before
  ∧ (Show.notified before = true → Show.notified after = true)
  ∧ (Show.finalWarningNotified before = true → Show.finalWarningNotified after = true).

Definition diningKept (before after : Dining.t) : Prop :=
  Dining.id after = Dining.id before
  ∧ Dining.restaurantName after = Dining.restaurantName before
  ∧ Dining.time after = Dining.time before
  ∧ Dining.type after = Dining.type before
  ∧ Dining.travelTime after = Dining.travelTime before
  ∧ (Dining.notified before = true → Dining.notified after = true).

Definition laneKept (before after : Lane.t) : Prop :=
  Lane.rideName after = Lane.rideName before
  ∧ Lane.returnTime after = Lane.returnTime before
  ∧ Lane.travelTime after = Lane.travelTime before
  ∧ (Lane.notified before = true → Lane.notified after = true).

(** Every date a live store of [st'] holds for a user, [st] holds with the
    same content. *)
Definition liveWithin (st' st : State) : Prop :=
  (∀ u d x, lookup2 (userShowSchedules st') u d = Some x →
            lookup2 (userShowSchedules st) u d = Some x)
  ∧ (∀ u d x, lookup2 (userDiningSchedules st') u d = Some x →
              lookup2 (userDiningSchedules st) u d = Some x)
  ∧ (∀ u d x, lookup2 (userLightningLanes st') u d = Some x →
              lookup2 (userLightningLanes st) u d = Some x).

(** What the sweep stores for a date of the show store that is in the past:
    the shows of the date with the reservations and Lightning Lanes the same
    user has for it. *)
Definition archiveOf (st : State) (userId date : string) (shows : list Show.t) : Archive.t :=
  Archive.mk shows
    (default [] (lookup2 (userDiningSchedules st) userId date))
    (default ∅ (lookup2 (userLightningLanes st) userId date)).

(** The date of the user is gone from the three live stores of [st'] and
    archived with what [st] had for it. *)
Definition sweptAt (st st' : State) (userId date : string) (shows : list Show.t) : Prop :=
  lookup2 (userShowSchedules st') userId date = None
  ∧ lookup2 (userDiningSchedules st') userId date = None
  ∧ lookup2 (userLightningLanes st') userId date = None
  ∧ lookup2 (archivedSchedules st') userId date = Some (archiveOf st userId date shows).

(** The date of the user is in [st'] as it is in [st], live and archived. *)
Definition unchangedAt (st st' : State) (userId date : string) : Prop :=
  lookup2 (userShowSchedules st') userId date = lookup2 (userShowSchedules st) userId date
  ∧ lookup2 (userDiningSchedules st') userId date = lookup2 (userDiningSchedules st) userId date
  ∧ lookup2 (userLightningLanes st') userId date = lookup2 (userLightningLanes st) userId date
  ∧ lookup2 (archivedSchedules st') userId date = lookup2 (archivedSchedules st) userId date.

(** The requests by which a user rewrites a stored event: the update of a
    reservation, and the Lightning Lane posted again for its ride. *)
Definition isEdit (r : Request) : bool :=
  match r with
  | PutDining _ _ _ _ _ _ => true
  | PostLightningLane _ _ _ _ _ _ => true
  | _ => false
  end.

(** What a route that is no edit may do to the events of a user on a date:
    leave the list, append one new event with its flags false, or drop the
    events of one id; for the Lightning Lanes, leave them or drop one ride.
    No stored event changes. *)
Definition showsStay (before after : list Show.t) : Prop :=
  after = before
  ∨ (∃ s, after = before ++ [s]
          ∧ Show.notified s = false ∧ Show.finalWarningNotified s = false)
  ∨ (∃ showId, after = keep (λ s, negb (String.eqb (Show.showId s) showId)) before).

Definition diningStays (before after : list Dining.t) : Prop :=
  after = before
  ∨ (∃ x, after = before ++ [x] ∧ Dining.notified x = false)
  ∨ (∃ diningId, after = keep (λ x, negb (String.eqb (Dining.id x) diningId)) before).

Definition lanesStay (before after : gmap string Lane.t) : Prop :=
  after = before ∨ ∃ rideId, after = delete rideId before.

(** No user holds [token]. *)
Definition unregistered (token : string) (tokens : gmap string string) : Prop :=
  ∀ userId, tokens !! userId ≠ Some token.

(** A request changes the time of a stored show: the list of the date holds
    the same show under its id, with another [selectedTime], and no other. *)
Definition updatesShow {ext : Externals} (st : State) (userId date : string) (old : Show.t)
    (r : Request) : Prop :=
  ∃ new, lookup2 (userShowSchedules (handle r st).1) userId date = Some [new]
         ∧ Show.showId new = Show.showId old
         ∧ Show.selectedTime new ≠ Show.selectedTime old.

(** A threshold [t] is a date that [now] has reached: [t] is in the range
    of [Date] and not after [now]. *)
Definition due (now t : Z) : Prop := (Z.abs t ≤ MAX_TIME)%Z ∧ (t ≤ now)%Z.

(** The names every plain JS object inherits from [Object.prototype]. *)
Definition OBJECT_PROTOTYPE_NAMES : list string :=
  ["constructor"; "__defineGetter__"; "__defineSetter__"; "hasOwnProperty";
   "__lookupGetter__"; "__lookupSetter__"; "isPrototypeOf"; "propertyIsEnumerable";
   "toString"; "valueOf"; "__proto__"; "toLocaleString"].

(** A key under which a plain object holds what was stored under it and
    nothing else. *)
Definition plainKey (key : string) : bool :=
  negb (bool_decide (key ∈ OBJECT_PROTOTYPE_NAMES)).

(** The keys under which a request reads and writes the stores. *)
Definition keysOf (r : Request) : list string :=
  let field (x : option string) := match x with Some s => [s] | None => [] end in
  match r with
  | PostPreferences userId _ => [userId]
  | PostRegisterDevice userId _ => [userId]
  | PostUnregisterDevice userId => [userId]
  | PostShow userId date _ _ _ _ => userId :: field date
  | DeleteShow userId _ date => userId :: field date
  | PostDining userId date _ _ _ _ _ => userId :: field date
  | PutDining userId _ date _ _ _ => userId :: field date
  | DeleteDining userId _ date => userId :: field date
  | PostLightningLane userId date rideId _ _ _ => userId :: field date ++ field rideId
  | DeleteLightningLane userId rideId date => userId :: rideId :: field date
  | DeleteArchive userId date => [userId; date]
  end.

Definition plainRequest (r : Request) : bool := forallb plainKey (keysOf r).

(** The tokens a dispatch of [messages] is told are dead: the address of a
    message whose ticket, in the answer to the submission of its chunk, is a
    DeviceNotRegistered error. *)
Definition reported {ext : Externals} (messages : list Message.t) (token : string) : Prop :=
  messages ≠ []
  ∧ ∃ k chunk tickets i ticket message,
      chunkPushNotifications messages !! k = Some chunk
      ∧ sendPushNotificationsAsync k chunk = Some tickets
      ∧ tickets !! i = Some ticket
      ∧ deviceNotRegistered ticket = true
      ∧ chunk !! i = Some message
      ∧ Message.to message = token.

(** What the turn of a user adds to the queue of [checkAndNotifyUsers]. *)
Definition messagesFor {ext : Externals} (st : State) (entry : string * gmap string Pref.t)
    : list Message.t :=
  match pushTokenOf (userDeviceTokens st) entry.1 with
  | None => []
  | Some pushToken =>
      rideMessages pushToken
        (evaluate entry.2 (parkDataCache st) (default ∅ (notifiedRides st !! entry.1))).1
  end.

(** ** Sample data *)

Definition prefsR1 : gmap string Pref.t := {[ "R1" := Pref.mk true 30 ]}.

Definition rideR1 (wait : Z) (status : string) : Ride.t := Ride.mk "R1" "Space Mountain" wait status.

Definition cacheR1 (wait : Z) (status : string) : list (string * ParkData.t) :=
  [("disneyland", ParkData.mk "Disneyland Park" [("Tomorrowland", [rideR1 wait status])])].

Definition readyR1 : ReadyRide.t :=
  ReadyRide.mk (rideR1 25 "OPERATING") "Tomorrowland" "Disneyland Park".

(** A test double for the packages: tokens are valid when they start like
    Expo tokens, every message is a chunk of its own, the first submission
    of a dispatch is rejected and every later one answers each message with
    a DeviceNotRegistered error; dates are read from a table. *)
Definition demoExternals : Externals := {|
  isExpoPushToken := String.prefix "ExponentPushToken[";
  chunkPushNotifications := λ messages, (λ m, [m]) <$> messages;
  sendPushNotificationsAsync := λ call chunk,
    match call with
    | O => None
    | S _ => Some ((λ _, Ticket.mk "error" (Some "DeviceNotRegistered")) <$> chunk)
    end;
  parseDate := λ s,
    ({[ "2024-05-01T14:00:00-07:00" := 1714597200000%Z ]} : gmap string Z) !! s;
  toLocaleTimeString := λ _, "2:00 PM";
  unsafeNumberToString := λ _, "1e+21"
|}.

Definition tokenA : string := "ExponentPushToken[aaaa]".
Definition tokenB : string := "ExponentPushToken[bbbb]".

(** Alice has a valid token and wants R1 under 30 minutes; Bob wants the same,
    has no token (any more) and a notified set from an earlier cycle. *)
Definition stR1 : State := {|
  parkDataCache := cacheR1 25 "OPERATING";
  userPreferences := {[ "alice" := prefsR1; "bob" := prefsR1 ]};
  userDeviceTokens := {[ "alice" := tokenA ]};
  notifiedRides := {[ "bob" := {[ "R9" ]} ]};
  userShowSchedules := ∅;
  userDiningSchedules := ∅;
  userLightningLanes := ∅;
  archivedSchedules := ∅
|}.

Definition plainMessage (token : string) : Message.t :=
  Message.mk token "default" "title" "body" (DataShow "S1") "high" "event-alerts".

(** A show at 14:00 local time on 2024-05-01. *)
Definition show1400 (travelTime : Z) (notified finalWarningNotified : bool) : Show.t :=
  Show.mk "S1" "Fantasmic!" "2024-05-01T14:00:00-07:00" travelTime
    notified finalWarningNotified.

Definition at1340 : Z := 1714596000000.
Definition at1356 : Z := 1714596960000.

(** Three users registered, two of them with the same token. *)
Definition stTokens : State := {|
  parkDataCache := [];
  userPreferences := ∅;
  userDeviceTokens := {[ "alice" := tokenA; "bob" := tokenB; "carol" := tokenB ]};
  notifiedRides := ∅;
  userShowSchedules := ∅;
  userDiningSchedules := ∅;
  userLightningLanes := ∅;
  archivedSchedules := ∅
|}.

(** Alice, registered, has one show on 2024-05-01 whose reminder went out. *)
Definition stShow : State := {|
  parkDataCache := [];
  userPreferences := ∅;
  userDeviceTokens := {[ "alice" := tokenA ]};
  notifiedRides := ∅;
  userShowSchedules := {[ "alice" := {[ "2024-05-01" := [show1400 20 true false] ]} ]};
  userDiningSchedules := ∅;
  userLightningLanes := ∅;
  archivedSchedules := ∅
|}.

(** Alice has a reservation on 2024-05-01 whose reminder went out. *)
Definition stDining : State := {|
  parkDataCache := [];
  userPreferences := ∅;
  userDeviceTokens := {[ "alice" := tokenA ]};
  notifiedRides := ∅;
  userShowSchedules := ∅;
  userDiningSchedules :=
    {[ "alice" :=
         {[ "2024-05-01" :=
              [Dining.mk "d1" "Blue Bayou" "2024-05-01T18:00:00-07:00" "dinner" 20 true] ]} ]};
  userLightningLanes := ∅;
  archivedSchedules := ∅
|}.

(** Alice has a show on 2024-05-02; for 2024-04-30 she has a reservation
    and a Lightning Lane, and no show. *)
Definition dinner0430 : Dining.t :=
  Dining.mk "d0" "Blue Bayou" "2024-04-30T18:00:00-07:00" "dinner" 20 true.

Definition lane0430 : Lane.t :=
  Lane.mk "Space Mountain" "2024-04-30T11:00:00-07:00" 10 true.

Definition stDiningOnly : State := {|
  parkDataCache := [];
  userPreferences := ∅;
  userDeviceTokens := {[ "alice" := tokenA ]};
  notifiedRides := ∅;
  userShowSchedules :=
    {[ "alice" :=
         {[ "2024-05-02" :=
              [Show.mk "S2" "World of Color" "2024-05-02T21:00:00-07:00" 15 false false] ]} ]};
  userDiningSchedules := {[ "alice" := {[ "2024-04-30" := [dinner0430] ]} ]};
  userLightningLanes := {[ "alice" := {[ "2024-04-30" := {[ "R1" := lane0430 ]} ]} ]};
  archivedSchedules := ∅
|}.

(** A gateway that accepts everything: one chunk, one ok ticket per
    message. *)
Definition okExternals : Externals := {|
  isExpoPushToken := String.prefix "ExponentPushToken[";
  chunkPushNotifications := λ messages, [messages];
  sendPushNotificationsAsync := λ _ chunk, Some ((λ _, Ticket.mk "ok" None) <$> chunk);
  parseDate := λ s,
    ({[ "2024-05-01T14:00:00-07:00" := 1714597200000%Z;
        "2024-05-01T18:00:00-07:00" := 1714611600000%Z ]} : gmap string Z) !! s;
  toLocaleTimeString := λ _, "2:00 PM";
  unsafeNumberToString := λ _, "1e+21"
|}.

(** ** The snapshot provider ([organizeParkData], [updateParkDataCache]) *)

(** What the ThemeParks.wiki responses hold, as far as the server reads them:
    a missing or [null] field is [None]. *)
Module Entity.
Record t := mk { id : string; name : string; entityType : string }.
End Entity.

Module Standby.
Record t := mk { waitTime : option Z }.
End Standby.

Module ReturnQueue.
Record t := mk { state : option string; returnStart : option string }.
End ReturnQueue.

Module PaidReturnQueue.
(** [price_formatted] is [price?.formatted]. *)
Record t := mk {
  state : option string; returnStart : option string; price_formatted : option string }.
End PaidReturnQueue.

Module Queue.
(** [SINGLE_RIDER] only matters by being there. *)
Record t := mk {
  STANDBY : option Standby.t; RETURN_TIME : option ReturnQueue.t;
  PAID_RETURN_TIME : option PaidReturnQueue.t; SINGLE_RIDER : bool }.
End Queue.

Module Forecast.
Record t := mk { time : string; waitTime : option Z }.
End Forecast.

Module LiveShowtime.
Record t := mk { startTime : option string; endTime : option string; type : option string }.
End LiveShowtime.

Module Live.
Record t := mk {
  id : string; status : option string; queue : option Queue.t;
  forecast : option (list Forecast.t); showtimes : option (list LiveShowtime.t) }.
End Live.

Module RawParkData.
(** [{liveData: liveDataResponse.data, children: childrenResponse.data}]:
    [liveData] is [None] when the live response has no body, [Some l] with
    [l] its [liveData] array when it has one; the same for [children]. *)
Record t := mk {
  liveData : option (option (list Live.t));
  children : option (option (list Entity.t)) }.
End RawParkData.

Module ParkRide.
(** The ride object of [organizeParkData], all fields. *)
Record t := mk {
  id : string; name : string; currentWait : Z; avgWait : Z; status : string;
  returnTime : option string; returnState : option string;
  singleRiderWait : option string;
  paidReturnState : option string; paidReturnTime : option string;
  paidReturnPrice : option string; paidStandbyWait : option Z;
  forecastWait1 : option Z; forecastWait2 : option Z;
  forecastHour1 : option string; forecastHour2 : option string;
  hasLightningLane : bool }.
End ParkRide.

Module Showtime.
Record t := mk { startTime : option string; endTime : option string; type : string }.
End Showtime.

Module ParkShow.
Record t := mk {
  id : string; name : string; land : string; status : string; showtimes : list Showtime.t }.
End ParkShow.

Module Restaurant.
Record t := mk { id : string; name : string; land : string; status : string }.
End Restaurant.

Module Organized.
(** [{ lands, shows, restaurants }], each an object keyed by land name. *)
Record t := mk {
  lands : list (string * list ParkRide.t);
  shows : list (string * list ParkShow.t);
  restaurants : list (string * list Restaurant.t) }.
End Organized.

Module CachedPark.
(** An entry of [parkDataCache]; [name] is missing until the first update. *)
Record t := mk {
  name : option string;
  lands : list (string * list ParkRide.t);
  shows : list (string * list ParkShow.t);
  restaurants : list (string * list Restaurant.t);
  lastUpdated : option string }.
End CachedPark.

(** What the snapshot provider takes from the platform: the two requests of
    [fetchParkData] ([None] when it throws), [String.prototype.toLowerCase],
    and the readings of [Date]: [formatTime s] and [formatHour s] are
    [new Date(s).toLocaleTimeString] with the two option sets of the source,
    [getHours s] is [new Date(s).getHours()] ([None] for an invalid date),
    [hoursNow park i] is [new Date().getHours()] when the [i]-th entity of
    the park is organized and [isoNow park] is [new Date().toISOString()]
    when the park is written to the cache. *)
Class Platform := {
  fetchParkData : string → option RawParkData.t;
  toLowerCase : string → string;
  formatTime : option string → string;
  formatHour : string → string;
  getHours : string → option Z;
  hoursNow : string → nat → Z;
  isoNow : string → string
}.

Definition PARK_IDS : list (string * string) :=
  [("disneyland", "7340550b-c14d-4def-80bb-acdb51d49a66");
   ("californiaadventure", "832fcd51-ea19-4e77-85c7-75d5843b127c")].

Definition DISNEYLAND_LAND_MAP : list (string * string) :=
  [("mainstreet", "Main Street U.S.A.");
   ("adventureland", "Adventureland");
   ("frontierland", "Frontierland");
   ("fantasyland", "Fantasyland");
   ("tomorrowland", "Tomorrowland");
   ("neworleanssquare", "New Orleans Square");
   ("crittercountry", "Critter Country");
   ("mickeystoontown", "Mickey's Toontown");
   ("starwars", "Star Wars: Galaxy's Edge")].

Definition DCA_LAND_MAP : list (string * string) :=
  [("buenavista", "Buena Vista Street");
   ("hollywoodland", "Hollywood Land");
   ("avengers", "Avengers Campus");
   ("carsland", "Cars Land");
   ("grizzlypeak", "Grizzly Peak");
   ("pixarpier", "Pixar Pier");
   ("paradisegardens", "Paradise Gardens")].

(** [s.includes(key)]. *)
Fixpoint includes (s key : string) : bool :=
  String.prefix key s
  || match s with
     | EmptyString => false
     | String _ rest => includes rest key
     end.

(** The [for ... of Object.entries(landMap)] with its [break]. *)
Fixpoint firstLand (nameLower : string) (landMap : list (string * string)) : option string :=
  match landMap with
  | [] => None
  | (key, value) :: rest =>
      if includes nameLower key then Some value else firstLand nameLower rest
  end.

Definition landOf {pf : Platform} (landMap : list (string * string)) (entity : Entity.t)
    : string :=
  if truthy (Entity.name entity)
  then default "Other" (firstLand (toLowerCase (Entity.name entity)) landMap)
  else "Other".

(** [x || fallback] for a string that may be missing. *)
Definition orElse (x : option string) (fallback : string) : string :=
  match given x with
  | Some s => s
  | None => fallback
  end.

(** [liveList?.find(live => live.id === entity.id)]. *)
Fixpoint findLive (liveList : list Live.t) (id : string) : option Live.t :=
  match liveList with
  | [] => None
  | live :: rest => if String.eqb (Live.id live) id then Some live else findLive rest id
  end.

(** The chain of [if]s on [liveData.status]; without live data the status
    stays ['CLOSED']. *)
Definition rideStatus (liveData : option Live.t) : string :=
  match liveData with
  | None => "CLOSED"
  | Some live =>
      match Live.status live with
      | Some s =>
          if String.eqb s "OPERATING" then "OPERATING"
          else if String.eqb s "DOWN" then "DOWN"
          else if String.eqb s "REFURBISHMENT" then "REFURBISHMENT"
          else if String.eqb s "CLOSED" then "CLOSED"
          else orElse (Some s) "CLOSED"
      | None => "CLOSED"
      end
  end.

Definition liveQueue (liveData : option Live.t) : option Queue.t :=
  liveData ≫= Live.queue.

(** [standbyQueue.waitTime || 0]. *)
Definition rideCurrentWait (queue : option Queue.t) : Z :=
  match queue ≫= Queue.STANDBY with
  | Some standby => default 0%Z (Standby.waitTime standby)
  | None => 0%Z
  end.

Definition rideReturnTime {pf : Platform} (returnQueue : ReturnQueue.t) : option string :=
  match ReturnQueue.state returnQueue with
  | Some state =>
      if String.eqb state "FINISHED" then Some "Unavailable"
      else if String.eqb state "TEMP_FULL" then Some "Temporarily Full"
      else if String.eqb state "AVAILABLE"
           then Some (formatTime (ReturnQueue.returnStart returnQueue))
      else None
  | None => None
  end.

(** [paidReturnTime] and [paidReturnPrice]. *)
Definition ridePaidReturn {pf : Platform} (paid : PaidReturnQueue.t)
    : option string * option string :=
  let timed :=
    match given (PaidReturnQueue.returnStart paid) with
    | Some returnStart =>
        (Some (formatTime (Some returnStart)),
         Some (orElse (PaidReturnQueue.price_formatted paid) ""))
    | None => (None, None)
    end in
  match PaidReturnQueue.state paid with
  | Some state =>
      if String.eqb state "FINISHED" then (Some "Unavailable", None)
      else if String.eqb state "TEMP_FULL" then (Some "Temporarily Full", None)
      else timed
  | None => timed
  end.

(** [forecast.find(f => new Date(f.time).getHours() === hour)]. *)
Fixpoint findForecast {pf : Platform} (forecast : list Forecast.t) (hour : Z)
    : option Forecast.t :=
  match forecast with
  | [] => None
  | f :: rest =>
      match getHours (Forecast.time f) with
      | Some h => if (h =? hour)%Z then Some f else findForecast rest hour
      | None => findForecast rest hour
      end
  end.

(** The ride built for an ATTRACTION; [currentHour] is the hour read while
    it is built. *)
Definition buildRide {pf : Platform} (currentHour : Z) (entity : Entity.t)
    (liveData : option Live.t) : ParkRide.t :=
  let queue := liveQueue liveData in
  let returnQueue := queue ≫= Queue.RETURN_TIME in
  let paidReturnQueue := queue ≫= Queue.PAID_RETURN_TIME in
  let paid :=
    match paidReturnQueue with
    | Some q => ridePaidReturn q
    | None => (None, None)
    end in
  let forecast :=
    match liveData ≫= Live.forecast with
    | Some (f :: fs) => f :: fs
    | _ => []
    end in
  let currentForecast := findForecast forecast currentHour in
  let nextHourForecast := findForecast forecast (currentHour + 1) in
  let nextNextHourForecast := findForecast forecast (currentHour + 2) in
  ParkRide.mk
    (Entity.id entity) (Entity.name entity)
    (rideCurrentWait queue)
    (default 30%Z (currentForecast ≫= Forecast.waitTime))
    (rideStatus liveData)
    (returnQueue ≫= rideReturnTime)
    (returnQueue ≫= ReturnQueue.state)
    (match queue with
     | Some q => if Queue.SINGLE_RIDER q then Some "Offered" else None
     | None => None
     end)
    (paidReturnQueue ≫= PaidReturnQueue.state)
    paid.1 paid.2 None
    (nextHourForecast ≫= Forecast.waitTime)
    (nextNextHourForecast ≫= Forecast.waitTime)
    ((λ f, formatHour (Forecast.time f)) <$> nextHourForecast)
    ((λ f, formatHour (Forecast.time f)) <$> nextNextHourForecast)
    (bool_decide (is_Some returnQueue) || bool_decide (is_Some paidReturnQueue)).

Definition buildShowtime (st : LiveShowtime.t) : Showtime.t :=
  Showtime.mk (LiveShowtime.startTime st) (LiveShowtime.endTime st)
    (orElse (LiveShowtime.type st) "Performance Time").

Definition buildShow (landName : string) (entity : Entity.t) (liveData : option Live.t)
    : ParkShow.t :=
  ParkShow.mk (Entity.id entity) (Entity.name entity) landName
    (match liveData with
     | Some live => orElse (Live.status live) "CLOSED"
     | None => "CLOSED"
     end)
    (match liveData ≫= Live.showtimes with
     | Some (st :: sts) => buildShowtime <$> (st :: sts)
     | _ => []
     end).

Definition buildRestaurant (landName : string) (entity : Entity.t) (liveData : option Live.t)
    : Restaurant.t :=
  Restaurant.mk (Entity.id entity) (Entity.name entity) landName
    (match liveData with
     | Some live => orElse (Live.status live) "CLOSED"
     | None => "CLOSED"
     end).

(** [if (!o[key]) o[key] = []; o[key].push(x)] on an object whose keys keep
    the order in which they were added. *)
Fixpoint pushTo {A : Type} (key : string) (x : A) (o : list (string * list A))
    : list (string * list A) :=
  match o with
  | [] => [(key, [x])]
  | (k, l) :: rest =>
      if String.eqb k key then (k, l ++ [x]) :: rest else (k, l) :: pushTo key x rest
  end.

(** The body of [parkData.children.children.forEach]. *)
Definition organizeEntity {pf : Platform} (clock : nat → Z) (landMap : list (string * string))
    (liveList : option (list Live.t)) (acc : nat * Organized.t) (entity : Entity.t)
    : nat * Organized.t :=
  let index := acc.1 in
  let org := acc.2 in
  let landName := landOf landMap entity in
  let liveData := liveList ≫= (λ l, findLive l (Entity.id entity)) in
  (S index,
   if String.eqb (Entity.entityType entity) "ATTRACTION" then
     Organized.mk (pushTo landName (buildRide (clock index) entity liveData) (Organized.lands org))
       (Organized.shows org) (Organized.restaurants org)
   else if String.eqb (Entity.entityType entity) "SHOW" then
     let show := buildShow landName entity liveData in
     match ParkShow.showtimes show with
     | [] => org
     | _ :: _ =>
         Organized.mk (Organized.lands org) (pushTo landName show (Organized.shows org))
           (Organized.restaurants org)
     end
   else if String.eqb (Entity.entityType entity) "RESTAURANT" then
     Organized.mk (Organized.lands org) (Organized.shows org)
       (pushTo landName (buildRestaurant landName entity liveData) (Organized.restaurants org))
   else org).

(** [organizeParkData]: [None] when it throws, which is when there are
    entities to go through and the live response has no body (reading
    [parkData.liveData.liveData] fails on the first of them). *)
Definition organizeParkData {pf : Platform} (clock : nat → Z) (parkData : RawParkData.t)
    (landMap : list (string * string)) : option Organized.t :=
  match RawParkData.children parkData with
  | Some (Some entities) =>
      match RawParkData.liveData parkData with
      | Some liveList =>
          Some (foldl (organizeEntity clock landMap liveList)
                      (0, Organized.mk [] [] []) entities).2
      | None =>
          match entities with
          | [] => Some (Organized.mk [] [] [])
          | _ :: _ => None
          end
      end
  | _ => Some (Organized.mk [] [] [])
  end.

(** [o[key] = value] on an object whose keys keep their order. *)
Fixpoint assign {A : Type} (key : string) (value : A) (o : list (string * A))
    : list (string * A) :=
  match o with
  | [] => [(key, value)]
  | (k, v) :: rest =>
      if String.eqb k key then (k, value) :: rest else (k, v) :: assign key value rest
  end.

(** [o[key]]. *)
Fixpoint entryOf {A : Type} (key : string) (o : list (string * A)) : option A :=
  match o with
  | [] => None
  | (k, v) :: rest => if String.eqb k key then Some v else entryOf key rest
  end.

(** The cache entry [updateParkDataCache] writes for a park. *)
Definition cachedPark {pf : Platform} (parkKey : string) (organized : Organized.t)
    : CachedPark.t :=
  CachedPark.mk
    (Some (if String.eqb parkKey "disneyland"
           then "Disneyland Park" else "Disney California Adventure"))
    (Organized.lands organized) (Organized.shows organized)
    (Organized.restaurants organized) (Some (isoNow parkKey)).

(** One turn of the loop of [updateParkDataCache], with its [try]. *)
Definition updatePark {pf : Platform} (cache : list (string * CachedPark.t))
    (park : string * string) : list (string * CachedPark.t) :=
  let parkKey := park.1 in
  match fetchParkData park.2 with
  | None => cache
  | Some parkData =>
      let landMap :=
        if String.eqb parkKey "disneyland" then DISNEYLAND_LAND_MAP else DCA_LAND_MAP in
      match organizeParkData (hoursNow parkKey) parkData landMap with
      | None => cache
      | Some organized =>
          assign parkKey (cachedPark parkKey organized) cache
      end
  end.

Definition updateParkDataCache {pf : Platform} (cache : list (string * CachedPark.t))
    : list (string * CachedPark.t) :=
  foldl updatePark cache PARK_IDS.

(** The initial value of [parkDataCache]. *)
Definition initialCache : list (string * CachedPark.t) :=
  [("disneyland", CachedPark.mk None [] [] [] None);
   ("californiaadventure", CachedPark.mk None [] [] [] None)].

(** What the notification engine reads of the cache. *)
Definition toRide (ride : ParkRide.t) : Ride.t :=
  Ride.mk (ParkRide.id ride) (ParkRide.name ride) (ParkRide.currentWait ride)
    (ParkRide.status ride).

(** The rides [organizeParkData] builds, each with its land, in the order of
    the entities; [index] is the position of the first entity. *)
Fixpoint ridesFrom {pf : Platform} (clock : nat → Z) (landMap : list (string * string))
    (liveList : option (list Live.t)) (index : nat) (entities : list Entity.t)
    : list (string * ParkRide.t) :=
  match entities with
  | [] => []
  | entity :: rest =>
      (if String.eqb (Entity.entityType entity) "ATTRACTION"
       then [(landOf landMap entity,
              buildRide (clock index) entity
                (liveList ≫= (λ l, findLive l (Entity.id entity))))]
       else [])
      ++ ridesFrom clock landMap liveList (S index) rest
  end.

(** The values of the pairs whose key is [key], in order. *)
Definition valuesOf {A : Type} (key : string) (pairs : list (string * A)) : list A :=
  snd <$> filter (λ p, p.1 = key) pairs.

(** [Object.values(o).flat()]. *)
Definition allValues {A : Type} (o : list (string * list A)) : list A :=
  o ≫= snd.

(** The shows [organizeParkData] lists, each with its land, in the order of
    the entities: a SHOW is listed when it has showtimes. *)
Definition showsFrom {pf : Platform} (landMap : list (string * string))
    (liveList : option (list Live.t)) (entities : list Entity.t)
    : list (string * ParkShow.t) :=
  entities ≫= λ entity,
    if String.eqb (Entity.entityType entity) "ATTRACTION" then []
    else if String.eqb (Entity.entityType entity) "SHOW" then
      let show := buildShow (landOf landMap entity) entity
                    (liveList ≫= (λ l, findLive l (Entity.id entity))) in
      match ParkShow.showtimes show with
      | [] => []
      | _ :: _ => [(landOf landMap entity, show)]
      end
    else [].

(** The restaurants [organizeParkData] lists, each with its land. *)
Definition restaurantsFrom {pf : Platform} (landMap : list (string * string))
    (liveList : option (list Live.t)) (entities : list Entity.t)
    : list (string * Restaurant.t) :=
  entities ≫= λ entity,
    if String.eqb (Entity.entityType entity) "ATTRACTION" then []
    else if String.eqb (Entity.entityType entity) "SHOW" then []
    else if String.eqb (Entity.entityType entity) "RESTAURANT" then
      [(landOf landMap entity,
        buildRestaurant (landOf landMap entity) entity
          (liveList ≫= (λ l, findLive l (Entity.id entity))))]
    else [].

(** The entities of a given type. *)
Definition ofType (entityType : string) (entities : list Entity.t) : list Entity.t :=
  filter (λ entity, Entity.entityType entity = entityType) entities.

(** What one turn of the loop of [updateParkDataCache] leaves at the key of
    its park: the entry built from the answer, or the entry that was there
    when the requests or [organizeParkData] throw. *)
Definition refreshed {pf : Platform} (cache : list (string * CachedPark.t))
    (parkKey parkId : string) : option CachedPark.t :=
  match fetchParkData parkId
        ≫= (λ parkData,
              organizeParkData (hoursNow parkKey) parkData
                (if String.eqb parkKey "disneyland" then DISNEYLAND_LAND_MAP else DCA_LAND_MAP)) with
  | Some organized => Some (cachedPark parkKey organized)
  | None => entryOf parkKey cache
  end.

(** ** Sample feed *)

Definition lowerAscii (c : Ascii.ascii) : Ascii.ascii :=
  let n := Ascii.nat_of_ascii c in
  if (65 <=? n)%nat && (n <=? 90)%nat then Ascii.ascii_of_nat (n + 32) else c.

Fixpoint lowerString (s : string) : string :=
  match s with
  | EmptyString => EmptyString
  | String c rest => String (lowerAscii c) (lowerString rest)
  end.

Definition demoEntities : list Entity.t :=
  [Entity.mk "r1" "Fantasyland Carousel" "ATTRACTION";
   Entity.mk "s1" "Fantasyland Theatre Show" "SHOW";
   Entity.mk "r2" "Space Mountain" "ATTRACTION";
   Entity.mk "e1" "Galactic Grill" "RESTAURANT";
   Entity.mk "s2" "Parade" "SHOW";
   Entity.mk "r3" "Tomorrowland Autopia" "ATTRACTION"].

Definition demoLive : list Live.t :=
  [Live.mk "r1" (Some "OPERATING")
     (Some (Queue.mk (Some (Standby.mk (Some 15%Z))) None None false))
     (Some [Forecast.mk "2024-05-01T14:00:00-07:00" (Some 20%Z);
            Forecast.mk "2024-05-01T15:00:00-07:00" (Some 25%Z)])
     None;
   Live.mk "s1" (Some "OPERATING") None None
     (Some [LiveShowtime.mk (Some "2024-05-01T14:00:00-07:00") None None]);
   Live.mk "r2" (Some "DOWN") (Some (Queue.mk None None None false)) None None].

Definition demoRaw : RawParkData.t :=
  RawParkData.mk (Some (Some demoLive)) (Some (Some demoEntities)).

(** A platform on which the Disneyland requests answer with the sample feed
    and the California Adventure requests fail. *)
Definition demoPlatform : Platform := {|
  fetchParkData := λ parkId,
    if String.eqb parkId "7340550b-c14d-4def-80bb-acdb51d49a66" then Some demoRaw else None;
  toLowerCase := lowerString;
  formatTime := λ _, "2:00 PM";
  formatHour := λ _, "3 PM";
  getHours := λ s, ({[ "2024-05-01T14:00:00-07:00" := 14%Z;
                       "2024-05-01T15:00:00-07:00" := 15%Z ]} : gmap string Z) !! s;
  hoursNow := λ _ _, 14%Z;
  isoNow := λ _, "2024-05-01T21:00:00.000Z"
|}.

(** ** The scan *)

Section Scan.
Context (preferences : gmap string Pref.t).

Lemma qualifies_spec (ride : Ride.t) :
  qualifies preferences ride = true ↔
  ∃ pref, preferences !! Ride.id ride = Some pref
          ∧ Pref.enabled pref = true
          ∧ (Ride.currentWait ride ≤ Pref.maxWait pref)%Z
          ∧ (Ride.status ride = "OPERATING" ∨ Ride.status ride = "DOWN").
Proof.
  unfold qualifies. destruct (preferences !! Ride.id ride) as [pref|].
  - rewrite !andb_true_iff, orb_true_iff, Z.leb_le, !String.eqb_eq. split.
    + intros [[He Hw] Hs]. exists pref. auto.
    + intros (p & Hp & He & Hw & Hs). injection Hp as <-. auto.
  - split; [discriminate | intros (p & Hp & _); discriminate].
Qed.

Lemma qualifying_cons (r : ReadyRide.t) (l : list ReadyRide.t) :
  qualifying preferences (r :: l)
  = if qualifies preferences (ReadyRide.ride r)
    then r :: qualifying preferences l else qualifying preferences l.
Proof.
  unfold qualifying. rewrite filter_cons.
  destruct (qualifies preferences (ReadyRide.ride r)); [rewrite decide_True | rewrite decide_False]; done.
Qed.

Lemma qualifying_app (l1 l2 : list ReadyRide.t) :
  qualifying preferences (l1 ++ l2) = qualifying preferences l1 ++ qualifying preferences l2.
Proof. apply filter_app. Qed.

Lemma idsOf_app (l1 l2 : list ReadyRide.t) : idsOf (l1 ++ l2) = idsOf l1 ∪ idsOf l2.
Proof. unfold idsOf. by rewrite fmap_app, list_to_set_app_L. Qed.

Lemma idsOf_nil_union (ids : gset string) : idsOf [] ∪ ids = ids.
Proof. unfold idsOf. simpl. apply (left_id_L ∅ (∪)). Qed.

Lemma union_swap (a b c : gset string) : a ∪ (b ∪ c) = b ∪ a ∪ c.
Proof. by rewrite (comm_L (∪) b a), (assoc_L (∪)). Qed.

Lemma scanRide_fold (parkData : ParkData.t) (landName : string) (rides : list Ride.t) :
  ∀ acc, foldl (scanRide preferences parkData landName) acc rides
         = (acc.1 ++ qualifying preferences (landRides parkData (landName, rides)),
            idsOf (qualifying preferences (landRides parkData (landName, rides))) ∪ acc.2).
Proof.
  unfold landRides. simpl.
  induction rides as [|ride rides IH]; intros [ready ids]; csimpl.
  - by rewrite app_nil_r, idsOf_nil_union.
  - rewrite IH, qualifying_cons. unfold scanRide. simpl.
    destruct (qualifies preferences ride); simpl; [|done].
    rewrite <- app_assoc. f_equal. apply union_swap.
Qed.

Lemma scanLand_fold (parkData : ParkData.t) (lands : list (string * list Ride.t)) :
  ∀ acc, foldl (scanLand preferences parkData) acc lands
         = (acc.1 ++ qualifying preferences (lands ≫= landRides parkData),
            idsOf (qualifying preferences (lands ≫= landRides parkData)) ∪ acc.2).
Proof.
  induction lands as [|[landName rides] lands IH]; intros [ready ids]; csimpl.
  - by rewrite app_nil_r, idsOf_nil_union.
  - rewrite IH. unfold scanLand. simpl. rewrite scanRide_fold. simpl.
    rewrite qualifying_app, idsOf_app, app_assoc. f_equal. apply union_swap.
Qed.

Lemma scanPark_fold (cache : list (string * ParkData.t)) :
  ∀ acc, foldl (scanPark preferences) acc cache
         = (acc.1 ++ qualifying preferences (snapshotRides cache),
            idsOf (qualifying preferences (snapshotRides cache)) ∪ acc.2).
Proof.
  unfold snapshotRides.
  induction cache as [|park cache IH]; intros [ready ids]; csimpl.
  - by rewrite app_nil_r, idsOf_nil_union.
  - rewrite IH. unfold scanPark. rewrite scanLand_fold. simpl.
    fold (parkRides park). rewrite qualifying_app, idsOf_app, app_assoc. f_equal.
    apply union_swap.
Qed.

Lemma scanParks_eq (cache : list (string * ParkData.t)) :
  scanParks preferences cache
  = (qualifying preferences (snapshotRides cache),
     idsOf (qualifying preferences (snapshotRides cache))).
Proof.
  unfold scanParks. rewrite scanPark_fold. simpl. f_equal. apply (right_id_L ∅ (∪)).
Qed.

Lemma collectReady_eq (cache : list (string * ParkData.t)) :
  collectReady preferences cache = qualifying preferences (snapshotRides cache).
Proof.
  unfold collectReady, snapshotRides.
  assert (Hrides : ∀ parkData landName rides acc,
    foldl (λ readyRides ride,
             if qualifies preferences ride
             then readyRides ++ [ReadyRide.mk ride landName (ParkData.name parkData)]
             else readyRides) acc rides
    = acc ++ qualifying preferences (landRides parkData (landName, rides))).
  { intros parkData landName rides. unfold landRides. simpl.
    induction rides as [|ride rides IH]; intros acc; csimpl.
    - by rewrite app_nil_r.
    - rewrite IH, qualifying_cons. simpl.
      destruct (qualifies preferences ride); [by rewrite <- app_assoc | done]. }
  assert (Hlands : ∀ parkData lands acc,
    foldl (λ readyRides (land : string * list Ride.t),
             foldl (λ readyRides ride,
                      if qualifies preferences ride
                      then readyRides ++ [ReadyRide.mk ride land.1 (ParkData.name parkData)]
                      else readyRides) readyRides land.2) acc lands
    = acc ++ qualifying preferences (lands ≫= landRides parkData)).
  { intros parkData lands.
    induction lands as [|[landName rides] lands IH]; intros acc; csimpl.
    - by rewrite app_nil_r.
    - rewrite IH, Hrides, qualifying_app, app_assoc. done. }
  enough (Hparks : ∀ acc,
    foldl (λ readyRides (park : string * ParkData.t),
             foldl (λ readyRides (land : string * list Ride.t),
                      foldl (λ readyRides ride,
                               if qualifies preferences ride
                               then readyRides ++ [ReadyRide.mk ride land.1 (ParkData.name park.2)]
                               else readyRides) readyRides land.2)
                   readyRides (ParkData.lands park.2)) acc cache
    = acc ++ qualifying preferences (cache ≫= parkRides)) by apply (Hparks []).
  induction cache as [|park cache IH]; intros acc; csimpl.
  - by rewrite app_nil_r.
  - rewrite IH, Hlands. fold (parkRides park). by rewrite qualifying_app, app_assoc.
Qed.

End Scan.

(** C2.  A ride is in [readyRides] exactly when it is a ride of the snapshot
    and the user has a preference for it that is enabled, whose [maxWait] is
    at least the ride's [currentWait], while the ride is OPERATING or DOWN;
    [currentReadyRideIds] holds exactly the ids of those rides; the route
    [ready-rides] computes the same list.  So a ride without a preference
    entry is never ready, and a preference for a ride that the snapshot does
    not list makes nothing ready.  The scan is a total function: there is no
    error outcome. *)
Theorem ready_iff_preference_met (preferences : gmap string Pref.t)
    (cache : list (string * ParkData.t)) :
  (∀ r, r ∈ (scanParks preferences cache).1 ↔
        r ∈ snapshotRides cache
        ∧ ∃ pref, preferences !! ReadyRide.id r = Some pref
                  ∧ Pref.enabled pref = true
                  ∧ (ReadyRide.currentWait r ≤ Pref.maxWait pref)%Z
                  ∧ (Ride.status (ReadyRide.ride r) = "OPERATING"
                     ∨ Ride.status (ReadyRide.ride r) = "DOWN"))
  ∧ (∀ rideId, rideId ∈ (scanParks preferences cache).2 ↔
               ∃ r, r ∈ (scanParks preferences cache).1 ∧ ReadyRide.id r = rideId)
  ∧ collectReady preferences cache = (scanParks preferences cache).1
  ∧ (∀ rideId, preferences !! rideId = None →
               rideId ∉ (scanParks preferences cache).2)
  ∧ (∀ rideId, (∀ r, r ∈ snapshotRides cache → ReadyRide.id r ≠ rideId) →
               rideId ∉ (scanParks preferences cache).2).
Proof.
  rewrite collectReady_eq, scanParks_eq. simpl.
  assert (Hlist : ∀ r, r ∈ qualifying preferences (snapshotRides cache) ↔
        r ∈ snapshotRides cache
        ∧ ∃ pref, preferences !! ReadyRide.id r = Some pref
                  ∧ Pref.enabled pref = true
                  ∧ (ReadyRide.currentWait r ≤ Pref.maxWait pref)%Z
                  ∧ (Ride.status (ReadyRide.ride r) = "OPERATING"
                     ∨ Ride.status (ReadyRide.ride r) = "DOWN")).
  { intros r. unfold qualifying. rewrite list_elem_of_filter, qualifies_spec. tauto. }
  assert (Hset : ∀ rideId, rideId ∈ idsOf (qualifying preferences (snapshotRides cache)) ↔
               ∃ r, r ∈ qualifying preferences (snapshotRides cache) ∧ ReadyRide.id r = rideId).
  { intros rideId. unfold idsOf. rewrite elem_of_list_to_set, list_elem_of_fmap.
    split; intros (r & H1 & H2); exists r; auto. }
  split; [exact Hlist|]. split; [exact Hset|]. split; [done|]. split.
  - intros rideId Hnone [r [Hr Hid]]%Hset.
    apply Hlist in Hr as [_ (pref & Hp & _)]. congruence.
  - intros rideId Habsent [r [Hr Hid]]%Hset.
    apply Hlist in Hr as [Hin _]. by apply (Habsent r).
Qed.

Lemma ready_iff_preference_met_witness :
  readyR1 ∈ (scanParks prefsR1 (cacheR1 25 "OPERATING")).1
  ∧ "R2" ∉ (scanParks prefsR1 (cacheR1 25 "OPERATING")).2.
Proof.
  pose proof (ready_iff_preference_met prefsR1 (cacheR1 25 "OPERATING"))
    as (Hlist & _ & _ & Hnone & _).
  split.
  - apply Hlist. split.
    + vm_compute. left.
    + exists (Pref.mk true 30). vm_compute. intuition congruence.
  - apply Hnone. reflexivity.
Defined.

(** C3.  The newly ready rides of an evaluation are the qualifying rides of
    the snapshot, in the order of the scan, without those whose id is in the
    previously notified set; evaluating again on the same snapshot and
    preferences, with the previously notified set replaced by the ids the
    first evaluation found ready, yields no newly ready ride.  Instance:
    preference R1 (enabled, maxWait 30), snapshot R1 OPERATING at 25 minutes:
    first [R1], then nothing. *)
Theorem newly_ready_is_difference (preferences : gmap string Pref.t)
    (cache : list (string * ParkData.t)) (previouslyNotified : gset string) :
  let first := evaluate preferences cache previouslyNotified in
  first.1 = filter (λ r, ReadyRide.id r ∉ previouslyNotified)
                   (qualifying preferences (snapshotRides cache))
  ∧ first.2 = idsOf (qualifying preferences (snapshotRides cache))
  ∧ (evaluate preferences cache first.2).1 = []
  ∧ (evaluate prefsR1 (cacheR1 25 "OPERATING") ∅).1 = [readyR1]
  ∧ (evaluate prefsR1 (cacheR1 25 "OPERATING") {["R1"]}).1 = [].
Proof.
  unfold evaluate, newReadyRides. simpl. rewrite scanParks_eq. simpl.
  split; [done|]. split; [done|]. split; [|split; vm_compute; reflexivity].
  destruct (filter _ _) as [|r rest] eqn:Hnew; [done|exfalso].
  assert (Hr : r ∈ r :: rest) by left. rewrite <- Hnew in Hr.
  apply list_elem_of_filter in Hr as [Hnot Hr]. apply Hnot.
  unfold idsOf. apply elem_of_list_to_set, list_elem_of_fmap. by exists r.
Qed.

Section RideMessage.
Context {ext : Externals}.

Lemma numberToString_safe (n : Z) :
  (Z.abs n ≤ MAX_SAFE_INTEGER)%Z → numberToString n = pretty n.
Proof.
  intros Hsafe. unfold numberToString.
  by destruct (Z.leb_spec (Z.abs n) MAX_SAFE_INTEGER); [|lia].
Qed.

(** C8.  The message for a non-empty list of newly ready rides: with one
    ride the body names it and its wait; with two it names the first and
    says "and 1 other ride is ready!"; with more it names the first and says
    "and N other rides are ready!", N being the number of the others.  The
    wait is printed as JS prints a number: for a safe integer, which every
    wait time in minutes is, these are its decimal digits.  An empty list
    queues nothing. *)
Theorem ride_message_body (pushToken : string) (firstRide : ReadyRide.t)
    (others : list ReadyRide.t) :
  rideMessages pushToken [] = []
  ∧ (∃ m, rideMessages pushToken (firstRide :: others) = [m]
          ∧ Message.to m = pushToken
          ∧ Message.body m =
            match others with
            | [] => ReadyRide.name firstRide +:+ " is now "
                    +:+ numberToString (ReadyRide.currentWait firstRide) +:+ " min wait!"
            | [_] => ReadyRide.name firstRide +:+ " and 1 other ride is ready!"
            | _ => ReadyRide.name firstRide +:+ " and " +:+ pretty (length others)
                   +:+ " other rides are ready!"
            end)
  ∧ (∀ n, (- MAX_SAFE_INTEGER ≤ n ≤ MAX_SAFE_INTEGER)%Z → numberToString n = pretty n)
  ∧ (∀ n, ¬ (- MAX_SAFE_INTEGER ≤ n ≤ MAX_SAFE_INTEGER)%Z →
          numberToString n = unsafeNumberToString n).
Proof.
  split; [done|]. split; [|split].
  - eexists. split; [reflexivity|]. split; [done|].
    simpl. unfold rideReadyBody.
    destruct others as [|second [|third rest]]; [done|done|].
    replace (length (firstRide :: second :: third :: rest) - 1)
      with (length (second :: third :: rest)) by (simpl; lia).
    done.
  - intros n Hn. apply numberToString_safe. lia.
  - intros n Hn. unfold numberToString.
    destruct (Z.leb_spec (Z.abs n) MAX_SAFE_INTEGER); [lia|done].
Qed.

End RideMessage.

(** A wait of 25 minutes is printed with its digits; 10^21 is no safe
    integer and is printed by the platform. *)
Lemma ride_message_body_witness :
  numberToString (ext := demoExternals) 25 = "25"
  ∧ numberToString (ext := demoExternals) 1000000000000000000000
    = unsafeNumberToString (Externals := demoExternals) 1000000000000000000000.
Proof.
  destruct (ride_message_body (ext := demoExternals) tokenA readyR1 [])
    as (_ & _ & Hsafe & Hunsafe).
  split.
  - apply (Hsafe 25%Z). split; vm_compute; discriminate.
  - apply Hunsafe. intros [_ Hle]. vm_compute in Hle. by apply Hle.
Defined.

Example ride_message_samples :
  Message.body <$> rideMessages (ext := demoExternals) tokenA [readyR1]
  = ["Space Mountain is now 25 min wait!"]
  ∧ Message.body <$> rideMessages (ext := demoExternals) tokenA [readyR1; readyR1]
    = ["Space Mountain and 1 other ride is ready!"]
  ∧ Message.body <$> rideMessages (ext := demoExternals) tokenA [readyR1; readyR1; readyR1]
    = ["Space Mountain and 2 other rides are ready!"].
Proof. vm_compute. done. Qed.

(** ** Stores keyed by user and date *)

Lemma not_elem_of_keys {V : Type} (m : gmap string V) (k : string) :
  m !! k = None → k ∉ (map_to_list m).*1.
Proof.
  intros Hnone Hin. apply list_elem_of_fmap in Hin as [[k' v] [-> Hin]].
  apply elem_of_map_to_list in Hin. simpl in Hnone. congruence.
Qed.

Lemma lookup2_alter_delete {V : Type} (o : gmap string (gmap string V))
    (userId date u d : string) :
  lookup2 (alter (delete date) userId o) u d
  = if decide (u = userId ∧ d = date) then None else lookup2 o u d.
Proof.
  unfold lookup2. rewrite lookup_alter. case_decide as Hu.
  - subst u. destruct (o !! userId) as [byDate|]; simpl.
    + rewrite lookup_delete. case_decide as Hd; case_decide as Hud; try done.
      * destruct Hud. by subst.
      * destruct Hud as [_ ->]. by destruct Hd.
    + by case_decide.
  - case_decide as Hud; [|done]. destruct Hud as [-> _]. by destruct Hu.
Qed.

Lemma lookup2_insert {V : Type} (o : gmap string (gmap string V))
    (userId date u d : string) (byDate : gmap string V) (x : V) :
  (∀ b, o !! userId = Some b → byDate = b) →
  (o !! userId = None → byDate = ∅) →
  lookup2 (<[userId := <[date := x]> byDate]> o) u d
  = if decide (u = userId ∧ d = date) then Some x else lookup2 o u d.
Proof.
  intros Hsome Hnone. unfold lookup2. rewrite lookup_insert. case_decide as Hu.
  - subst u. simpl. rewrite lookup_insert. case_decide as Hd.
    + subst d. by rewrite decide_True.
    + rewrite decide_False by (intros [_ ?]; congruence).
      destruct (o !! userId) as [b|]; simpl.
      * by rewrite (Hsome b).
      * by rewrite Hnone.
  - rewrite decide_False by (intros [? _]; congruence). done.
Qed.

Lemma lookup2_insert_default {V : Type} (o : gmap string (gmap string V))
    (userId date u d : string) (x : V) :
  lookup2 (<[userId := <[date := x]> (default ∅ (o !! userId))]> o) u d
  = if decide (u = userId ∧ d = date) then Some x else lookup2 o u d.
Proof.
  apply lookup2_insert.
  - by intros b ->.
  - by intros ->.
Qed.

Lemma lookup2_insert_found {V : Type} (o : gmap string (gmap string V))
    (userId date u d : string) (byDate : gmap string V) (x : V) :
  o !! userId = Some byDate →
  lookup2 (<[userId := <[date := x]> byDate]> o) u d
  = if decide (u = userId ∧ d = date) then Some x else lookup2 o u d.
Proof.
  intros Hb. apply lookup2_insert.
  - intros b. rewrite Hb. by intros [= ->].
  - by rewrite Hb.
Qed.

(** ** Loops that emit messages *)

Section Loops.
Context {V : Type} (body : string → V → list Message.t * V).

Lemma forEachEntry_foldl (l : list (string * V)) :
  NoDup l.*1 →
  ∀ (msgs : list Message.t) (o : gmap string V),
    (∀ k, k ∉ l.*1 → (foldl (entryTurn body) (msgs, o) l).2 !! k = o !! k)
    ∧ (∀ k v, (k, v) ∈ l → (foldl (entryTurn body) (msgs, o) l).2 !! k = Some (body k v).2)
    ∧ (∀ m, m ∈ (foldl (entryTurn body) (msgs, o) l).1 ↔
            m ∈ msgs ∨ ∃ k v, (k, v) ∈ l ∧ m ∈ (body k v).1).
Proof.
  induction l as [|[key val] l IH]; intros Hnd msgs o; simpl.
  - split; [done|]. split; [by intros k v ?%elem_of_nil|].
    intros m. split; [by left|]. intros [Hm|(k & v & Hin & _)]; [done|].
    by apply elem_of_nil in Hin.
  - apply NoDup_cons in Hnd as [Hfresh Hnd]. simpl in Hfresh.
    unfold entryTurn at 2 4 6. simpl.
    destruct (IH Hnd (msgs ++ (body key val).1) (<[key := (body key val).2]> o))
      as (Hother & Hdone & Hmsgs).
    split; [|split].
    + intros k [Hne Hk]%not_elem_of_cons. rewrite (Hother k Hk). by apply lookup_insert_ne.
    + intros k v [[= -> ->]|Hin]%elem_of_cons; [|by apply Hdone].
      rewrite (Hother key Hfresh). apply lookup_insert_eq.
    + intros m. rewrite Hmsgs, elem_of_app. split.
      * intros [[Hm|Hm]|(k & v & Hin & Hm)]; [by left| |].
        -- right. exists key, val. split; [left | done].
        -- right. exists k, v. split; [by right | done].
      * intros [Hm|(k & v & [[= -> ->]|Hin]%elem_of_cons & Hm)]; [by left; left|by left; right|].
        right. by exists k, v.
Qed.

Lemma forEachEntry_lookup (o : gmap string V) (k : string) :
  (forEachEntry body o).2 !! k = (λ v, (body k v).2) <$> o !! k.
Proof.
  unfold forEachEntry.
  destruct (forEachEntry_foldl (map_to_list o) (NoDup_fst_map_to_list o) [] o)
    as (Hother & Hdone & _).
  destruct (o !! k) as [v|] eqn:Hk; simpl.
  - apply Hdone. by apply elem_of_map_to_list.
  - rewrite Hother; [done|]. by apply not_elem_of_keys.
Qed.

Lemma forEachEntry_messages (o : gmap string V) (m : Message.t) :
  m ∈ (forEachEntry body o).1 ↔ ∃ k v, o !! k = Some v ∧ m ∈ (body k v).1.
Proof.
  unfold forEachEntry.
  destruct (forEachEntry_foldl (map_to_list o) (NoDup_fst_map_to_list o) [] o)
    as (_ & _ & Hmsgs).
  rewrite Hmsgs. split.
  - intros [Hm|(k & v & Hin & Hm)]; [by apply elem_of_nil in Hm|].
    exists k, v. by rewrite <- elem_of_map_to_list.
  - intros (k & v & Hin & Hm). right. exists k, v. by rewrite elem_of_map_to_list.
Qed.

End Loops.

Section Items.
Context {A : Type} (body : A → list Message.t * A).

Lemma forEachItem_items (items : list A) :
  (forEachItem body items).2 = (λ item, (body item).2) <$> items.
Proof. induction items as [|item rest IH]; simpl; [done|]. by rewrite IH. Qed.

Lemma forEachItem_messages (items : list A) :
  (forEachItem body items).1 = items ≫= (λ item, (body item).1).
Proof. induction items as [|item rest IH]; csimpl; [done|]. by rewrite IH. Qed.

End Items.

(** ** The dispatcher *)

Lemma removeToken_foldl (token : string) (l : list (string * string)) :
  ∀ (m : gmap string string) (k : string),
    let m' := foldl (λ acc entry, if String.eqb entry.2 token then delete entry.1 acc else acc) m l in
    (m !! k = None → m' !! k = None)
    ∧ ((k, token) ∈ l → m' !! k = None)
    ∧ ((∀ v, (k, v) ∈ l → v ≠ token) → m' !! k = m !! k).
Proof.
  induction l as [|[u t] l IH]; intros m k; simpl.
  - split; [done|]. split; [by intros ?%elem_of_nil | done].
  - destruct (IH (if String.eqb t token then delete u m else m) k) as (Hnone & Hhit & Hmiss).
    destruct (String.eqb_spec t token) as [->|Hne].
    + split; [|split].
      * intros Hk. apply Hnone. rewrite lookup_delete. by case_decide.
      * intros [[= -> ]|Hin]%elem_of_cons; [|by apply Hhit].
        apply Hnone. apply lookup_delete_eq.
      * intros Hall. rewrite Hmiss.
        -- apply lookup_delete_ne. intros ->. apply (Hall token); [left | done].
        -- intros v Hv. apply Hall. by right.
    + split; [exact Hnone|]. split.
      * intros [[= -> ->]|Hin]%elem_of_cons; [done | by apply Hhit].
      * intros Hall. apply Hmiss. intros v Hv. apply Hall. by right.
Qed.

Lemma removeToken_lookup (token : string) (tokens : gmap string string) (userId : string) :
  removeToken token tokens !! userId
  = match tokens !! userId with
    | Some t => if String.eqb t token then None else Some t
    | None => None
    end.
Proof.
  unfold removeToken.
  destruct (removeToken_foldl token (map_to_list tokens) tokens userId) as (Hnone & Hhit & Hmiss).
  destruct (tokens !! userId) as [t|] eqn:Ht; [|by apply Hnone].
  destruct (String.eqb_spec t token) as [->|Hne].
  - apply Hhit. by apply elem_of_map_to_list.
  - rewrite Hmiss; [done|]. intros v Hv%elem_of_map_to_list. congruence.
Qed.

Lemma removeToken_unregistered (token : string) (tokens : gmap string string) :
  unregistered token (removeToken token tokens).
Proof.
  intros userId. rewrite removeToken_lookup. destruct (tokens !! userId) as [t|]; [|done].
  destruct (String.eqb_spec t token); congruence.
Qed.

Lemma removeToken_noop (token : string) (tokens : gmap string string) :
  unregistered token tokens → removeToken token tokens = tokens.
Proof.
  intros Habsent. apply map_eq. intros userId. rewrite removeToken_lookup.
  specialize (Habsent userId). destruct (tokens !! userId) as [t|]; [|done].
  destruct (String.eqb_spec t token); congruence.
Qed.

Lemma removeToken_keeps_unregistered (token other : string) (tokens : gmap string string) :
  unregistered token tokens → unregistered token (removeToken other tokens).
Proof.
  intros Habsent userId. rewrite removeToken_lookup. specialize (Habsent userId).
  destruct (tokens !! userId) as [t|]; [|done]. by destruct (String.eqb t other).
Qed.

Lemma forEachTicket_keeps_unregistered (token : string) (chunk : list Message.t)
    (tickets : list Ticket.t) :
  ∀ index tokens, unregistered token tokens →
                  unregistered token (forEachTicket chunk tickets index tokens).
Proof.
  induction tickets as [|ticket rest IH]; intros index tokens Habsent; simpl; [done|].
  destruct (deviceNotRegistered ticket); [|by apply IH].
  destruct (chunk !! index) as [message|]; [|done].
  by apply IH, removeToken_keeps_unregistered.
Qed.

Lemma forEachTicket_removes (chunk : list Message.t) (tickets : list Ticket.t) :
  ∀ index i tokens ticket message,
    tickets !! i = Some ticket → deviceNotRegistered ticket = true →
    chunk !! (index + i) = Some message →
    unregistered (Message.to message) (forEachTicket chunk tickets index tokens).
Proof.
  induction tickets as [|first rest IH]; intros index i tokens ticket message Hi Hdnr Hmsg;
    [done|].
  destruct i as [|i]; simpl in Hi |- *.
  - injection Hi as ->. rewrite Hdnr. rewrite Nat.add_0_r in Hmsg. rewrite Hmsg.
    apply forEachTicket_keeps_unregistered, removeToken_unregistered.
  - assert (Hfirst : is_Some (chunk !! index)).
    { apply lookup_lt_is_Some. apply lookup_lt_Some in Hmsg. lia. }
    destruct Hfirst as [m0 Hm0]. rewrite Hm0.
    replace (index + S i) with (S index + i) in Hmsg by lia.
    destruct (deviceNotRegistered first); by eapply IH.
Qed.

(** What the loop over the tickets of a chunk leaves of the token store: the
    registrations whose token no DeviceNotRegistered ticket points at. *)
Lemma forEachTicket_lookup (chunk : list Message.t) (tickets : list Ticket.t)
    (userId token : string) :
  ∀ index tokens,
    forEachTicket chunk tickets index tokens !! userId = Some token
    ↔ tokens !! userId = Some token
      ∧ ∀ i ticket message,
          tickets !! i = Some ticket → deviceNotRegistered ticket = true →
          chunk !! (index + i) = Some message → Message.to message ≠ token.
Proof.
  induction tickets as [|first rest IH]; intros index tokens; simpl.
  - split; [|by intros [? _]]. intros Htoken. split; [done|].
    intros i ticket message Hi. by rewrite lookup_nil in Hi.
  - destruct (deviceNotRegistered first) eqn:Hfirst.
    + destruct (chunk !! index) as [addressed|] eqn:Haddressed.
      * rewrite IH, removeToken_lookup. split.
        -- intros [Hkept Hrest].
           destruct (tokens !! userId) as [held|]; [|done].
           destruct (String.eqb_spec held (Message.to addressed)) as [Heq|Hne]; [done|].
           injection Hkept as ->. split; [done|].
           intros [|i] ticket message Hi Hdead Hmessage; simpl in Hi.
           ++ rewrite Nat.add_0_r, Haddressed in Hmessage. injection Hmessage as <-.
              congruence.
           ++ apply (Hrest i ticket message Hi Hdead).
              by replace (S index + i) with (index + S i) by lia.
        -- intros [Hheld Hall]. rewrite Hheld.
           assert (Hne : Message.to addressed ≠ token).
           { apply (Hall 0 first addressed); [done | done | by rewrite Nat.add_0_r]. }
           destruct (String.eqb_spec token (Message.to addressed)) as [Heq|_]; [congruence|].
           split; [done|]. intros i ticket message Hi Hdead Hmessage.
           apply (Hall (S i) ticket message); [done | done |].
           by replace (index + S i) with (S index + i) by lia.
      * split; [|by intros [? _]]. intros Hheld. split; [done|].
        intros i ticket message _ _ Hmessage.
        apply lookup_ge_None in Haddressed. apply lookup_lt_Some in Hmessage. lia.
    + rewrite IH. split; intros [Hheld Hall]; (split; [done|]).
      * intros [|i] ticket message Hi Hdead Hmessage; simpl in Hi.
        -- injection Hi as <-. congruence.
        -- apply (Hall i ticket message Hi Hdead).
           by replace (S index + i) with (index + S i) by lia.
      * intros i ticket message Hi Hdead Hmessage.
        apply (Hall (S i) ticket message); [done | done |].
        by replace (index + S i) with (S index + i) by lia.
Qed.

Section Dispatch.
Context {ext : Externals}.

Lemma sendChunks_submitted (chunks : list (list Message.t)) :
  ∀ call tokens, (sendChunks call chunks tokens).2 = chunks.
Proof.
  induction chunks as [|chunk rest IH]; intros call tokens; simpl; [done|]. by rewrite IH.
Qed.

Lemma sendChunks_keeps_unregistered (token : string) (chunks : list (list Message.t)) :
  ∀ call tokens, unregistered token tokens →
                 unregistered token (sendChunks call chunks tokens).1.
Proof.
  induction chunks as [|chunk rest IH]; intros call tokens Habsent; simpl; [done|].
  apply IH. destruct (sendPushNotificationsAsync call chunk); [|done].
  by apply forEachTicket_keeps_unregistered.
Qed.

Lemma sendChunks_removes (chunks : list (list Message.t)) :
  ∀ call k tokens chunk tickets i ticket message,
    chunks !! k = Some chunk →
    sendPushNotificationsAsync (call + k) chunk = Some tickets →
    tickets !! i = Some ticket → deviceNotRegistered ticket = true →
    chunk !! i = Some message →
    unregistered (Message.to message) (sendChunks call chunks tokens).1.
Proof.
  induction chunks as [|first rest IH];
    intros call k tokens chunk tickets i ticket message Hk Hsend Hi Hdnr Hmsg; [done|].
  destruct k as [|k]; simpl in Hk |- *.
  - injection Hk as ->. rewrite Nat.add_0_r in Hsend. rewrite Hsend.
    apply sendChunks_keeps_unregistered. by eapply (forEachTicket_removes _ _ 0 i).
  - replace (call + S k) with (S call + k) in Hsend by lia. by eapply IH.
Qed.

(** What the loop over the chunks leaves of the token store, whatever the
    gateway answers: the registrations whose token the answer to no
    submission reports. *)
Lemma sendChunks_lookup (chunks : list (list Message.t)) (userId token : string) :
  ∀ call tokens,
    (sendChunks call chunks tokens).1 !! userId = Some token
    ↔ tokens !! userId = Some token
      ∧ ∀ k chunk tickets i ticket message,
          chunks !! k = Some chunk →
          sendPushNotificationsAsync (call + k) chunk = Some tickets →
          tickets !! i = Some ticket → deviceNotRegistered ticket = true →
          chunk !! i = Some message → Message.to message ≠ token.
Proof.
  induction chunks as [|first rest IH]; intros call tokens; simpl.
  - split; [|by intros [? _]]. intros Hheld. split; [done|].
    intros k chunk tickets i ticket message Hk. by rewrite lookup_nil in Hk.
  - rewrite IH. split.
    + intros [Hkept Hrest].
      assert (Hfirst : tokens !! userId = Some token
                ∧ ∀ tickets i ticket message,
                    sendPushNotificationsAsync call first = Some tickets →
                    tickets !! i = Some ticket → deviceNotRegistered ticket = true →
                    first !! i = Some message → Message.to message ≠ token).
      { destruct (sendPushNotificationsAsync call first) as [answer|]; [|by split].
        apply forEachTicket_lookup in Hkept as [Hheld Hall]. split; [done|].
        intros tickets i ticket message [= <-] Hi Hdead Hmessage.
        by apply (Hall i ticket message). }
      destruct Hfirst as [Hheld Hfirst]. split; [done|].
      intros [|k] chunk tickets i ticket message Hk Hsend; simpl in Hk.
      * injection Hk as <-. rewrite Nat.add_0_r in Hsend. by apply Hfirst.
      * apply (Hrest k chunk tickets i ticket message Hk).
        by replace (S call + k) with (call + S k) by lia.
    + intros [Hheld Hall]. split.
      * destruct (sendPushNotificationsAsync call first) as [answer|] eqn:Hanswer; [|done].
        apply forEachTicket_lookup. split; [done|].
        intros i ticket message Hi Hdead Hmessage.
        apply (Hall 0 first answer i ticket message); [done | | done | done | done].
        by rewrite Nat.add_0_r.
      * intros k chunk tickets i ticket message Hk Hsend.
        apply (Hall (S k) chunk tickets i ticket message); [done|].
        by replace (call + S k) with (S call + k) by lia.
Qed.

End Dispatch.

Section Dispatched.
Context {ext : Externals}.

Lemma dispatch_tokens (messages : list Message.t) (st : State) :
  userDeviceTokens (after (dispatch messages st))
  = (sendPushNotifications messages (userDeviceTokens st)).1.
Proof. done. Qed.

Lemma dispatch_notifiedRides (messages : list Message.t) (st : State) :
  notifiedRides (after (dispatch messages st)) = notifiedRides st.
Proof. done. Qed.

(** The registrations a dispatch leaves are those whose token it is not told
    is dead. *)
Lemma dispatch_lookup (messages : list Message.t) (st : State) (userId token : string) :
  userDeviceTokens (after (dispatch messages st)) !! userId = Some token
  ↔ userDeviceTokens st !! userId = Some token ∧ ¬ reported messages token.
Proof.
  rewrite dispatch_tokens. unfold sendPushNotifications, reported.
  destruct messages as [|m0 rest]; simpl.
  - split; [|by intros [? _]]. intros Hheld. split; [done | by intros [? _]].
  - rewrite sendChunks_lookup. split; intros [Hheld Hall]; (split; [done|]).
    + intros (_ & k & chunk & tickets & i & ticket & message
                & Hk & Hsend & Hi & Hdead & Hmessage & Hto).
      by apply (Hall k chunk tickets i ticket message).
    + intros k chunk tickets i ticket message Hk Hsend Hi Hdead Hmessage Hto.
      apply Hall. split; [done|]. by exists k, chunk, tickets, i, ticket, message.
Qed.

(** C9.  Whatever the gateway answers, the registrations left when the
    dispatch returns are exactly those it found whose token no answer
    reports dead: a token that the ticket of a message of a submitted chunk
    reports as DeviceNotRegistered is held by no user afterwards, every
    other registration is still there, and nothing but the token store
    changes.  When no user holds a reported token the dispatch changes
    nothing (removing a registration that is absent is a no-op).  Every
    chunk is submitted, whatever happened to the chunks before it: what is
    reported for a chunk counts whether or not the submissions of the other
    chunks were rejected. *)
Theorem dead_token_is_removed (messages : list Message.t) (st : State) :
  let out := dispatch messages st in
  (∀ userId token,
     userDeviceTokens (after out) !! userId = Some token
     ↔ userDeviceTokens st !! userId = Some token ∧ ¬ reported messages token)
  ∧ (∀ k chunk tickets i ticket message,
       submitted out !! k = Some chunk →
       sendPushNotificationsAsync k chunk = Some tickets →
       tickets !! i = Some ticket → deviceNotRegistered ticket = true →
       chunk !! i = Some message →
       unregistered (Message.to message) (userDeviceTokens (after out)))
  ∧ after out = setUserDeviceTokens (userDeviceTokens (after out)) st
  ∧ ((∀ token, reported messages token → unregistered token (userDeviceTokens st)) →
     after out = st)
  ∧ (∀ token tokens, unregistered token tokens → removeToken token tokens = tokens)
  ∧ (messages ≠ [] → submitted out = chunkPushNotifications messages).
Proof.
  intros out. split; [|split; [|split; [|split; [|split]]]].
  - intros userId token. apply dispatch_lookup.
  - unfold out, dispatch, sendPushNotifications. simpl.
    destruct messages as [|m0 rest]; simpl.
    + intros k chunk tickets i ticket message Hk. by rewrite lookup_nil in Hk.
    + rewrite sendChunks_submitted.
      intros k chunk tickets i ticket message Hk Hsend Hi Hdnr Hmsg.
      by eapply (sendChunks_removes _ 0 k).
  - done.
  - intros Habsent.
    assert (Hsame : userDeviceTokens (after out) = userDeviceTokens st).
    { apply map_eq. intros userId. apply option_eq. intros token.
      unfold out. rewrite dispatch_lookup. split; [by intros [? _]|].
      intros Hheld. split; [done|]. intros Hreported.
      by apply (Habsent token Hreported userId). }
    unfold out in *. unfold dispatch in *. simpl in *. rewrite Hsame. by destruct st.
  - apply removeToken_noop.
  - unfold out, dispatch, sendPushNotifications. simpl.
    destruct messages as [|m0 rest]; [done|]. simpl. by rewrite sendChunks_submitted.
Qed.

End Dispatched.

(** Alice and Bob are sent a message each; the submission of the first chunk
    is rejected and the answer to the second reports Bob's token: Bob and
    Carol, who holds the same token, are unregistered, Alice is not. *)
Lemma dead_token_is_removed_witness :
  unregistered tokenB
    (userDeviceTokens
       (after (dispatch (ext := demoExternals) [plainMessage tokenA; plainMessage tokenB] stTokens)))
  ∧ userDeviceTokens
      (after (dispatch (ext := demoExternals) [plainMessage tokenA; plainMessage tokenB] stTokens))
      !! "alice" = Some tokenA
  ∧ submitted (dispatch (ext := demoExternals) [plainMessage tokenA; plainMessage tokenB] stTokens)
    = [[plainMessage tokenA]; [plainMessage tokenB]].
Proof.
  destruct (dead_token_is_removed (ext := demoExternals)
              [plainMessage tokenA; plainMessage tokenB] stTokens)
    as (Hleft & Hgone & _ & _ & _ & Hall).
  split; [|split].
  - apply (Hgone 1 [plainMessage tokenB]
             [Ticket.mk "error" (Some "DeviceNotRegistered")] 0
             (Ticket.mk "error" (Some "DeviceNotRegistered")) (plainMessage tokenB));
      reflexivity.
  - apply Hleft. split; [reflexivity|].
    intros (_ & k & chunk & tickets & i & ticket & message
              & Hk & Hsend & Hi & Hdead & Hmessage & Hto).
    destruct k as [|[|k]]; simpl in Hk; try discriminate Hk.
    + injection Hk as <-. discriminate Hsend.
    + injection Hk as <-. destruct i as [|i]; simpl in Hmessage; [|discriminate Hmessage].
      injection Hmessage as <-. discriminate Hto.
  - apply Hall. discriminate.
Defined.

(** ** The loop over the users *)

Lemma setNotifiedRides_twice a b st :
  setNotifiedRides a (setNotifiedRides b st) = setNotifiedRides a st.
Proof. done. Qed.

Lemma setNotifiedRides_same st : setNotifiedRides (notifiedRides st) st = st.
Proof. by destruct st. Qed.

Section Cycle.
Context {ext : Externals}.

Lemma pushTokenOf_usable (tokens : gmap string string) (userId token : string) :
  pushTokenOf tokens userId = Some token ↔
  tokens !! userId = Some token ∧ token ≠ "" ∧ isExpoPushToken token = true.
Proof.
  unfold pushTokenOf, truthy. destruct (tokens !! userId) as [t|].
  - destruct (String.eqb_spec t "") as [->|Hne]; simpl.
    + split; [discriminate | intros ([= <-] & Hne & _); by destruct Hne].
    + destruct (isExpoPushToken t) eqn:Hv.
      * split; [intros [= <-]; done | intros ([= <-] & _); done].
      * split; [discriminate | intros ([= <-] & _ & Hvalid); congruence].
  - split; [discriminate | intros [? _]; discriminate].
Qed.

Lemma rideMessages_to (pushToken : string) (l : list ReadyRide.t) (m : Message.t) :
  m ∈ rideMessages pushToken l → Message.to m = pushToken.
Proof.
  destruct l; simpl; [by intros ?%elem_of_nil|]. by intros ->%list_elem_of_singleton.
Qed.

(** The loop over the users only assigns to [notifiedRides], and there only
    to the entries of the users it does not skip. *)
Lemma notifyUser_foldl (st : State) (l : list (string * gmap string Pref.t)) :
  NoDup l.*1 →
  ∀ (msgs : list Message.t) (nr : gmap string (gset string)),
  ∃ nr', (foldl notifyUser (msgs, setNotifiedRides nr st) l).2 = setNotifiedRides nr' st
    ∧ (∀ u, u ∉ l.*1 → nr' !! u = nr !! u)
    ∧ (∀ u, pushTokenOf (userDeviceTokens st) u = None → nr' !! u = nr !! u)
    ∧ (∀ u prefs, (u, prefs) ∈ l → is_Some (pushTokenOf (userDeviceTokens st) u) →
         nr' !! u = Some (scanParks prefs (parkDataCache st)).2)
    ∧ (∀ m, m ∈ (foldl notifyUser (msgs, setNotifiedRides nr st) l).1 →
         m ∈ msgs ∨ ∃ u, pushTokenOf (userDeviceTokens st) u = Some (Message.to m)).
Proof.
  induction l as [|[user prefs] l IH]; intros Hnd msgs nr.
  - exists nr. simpl. repeat split; auto. intros u p Hin. by apply elem_of_nil in Hin.
  - apply NoDup_cons in Hnd as [Hfresh Hnd]. simpl in Hfresh. simpl.
    unfold notifyUser at 2 4. simpl.
    destruct (pushTokenOf (userDeviceTokens st) user) as [token|] eqn:Htok.
    + destruct (IH Hnd (msgs ++ rideMessages token
          (evaluate prefs (parkDataCache st) (default ∅ (nr !! user))).1)
          (<[user := (evaluate prefs (parkDataCache st) (default ∅ (nr !! user))).2]> nr))
        as (nr' & Hst & Hother & Hskip & Hdone & Hmsgs).
      exists nr'. split; [exact Hst|]. split; [|split; [|split]].
      * intros u Hu. apply not_elem_of_cons in Hu as [Hne Hu].
        rewrite (Hother u Hu). by apply lookup_insert_ne.
      * intros u Hu. rewrite (Hskip u Hu). apply lookup_insert_ne. congruence.
      * intros u p Hin Hsome. apply elem_of_cons in Hin as [Heq|Hin].
        -- injection Heq as -> ->. rewrite (Hother user Hfresh). apply lookup_insert_eq.
        -- by apply (Hdone u p).
      * intros m Hm. apply Hmsgs in Hm as [Hm|Hm]; [|by right].
        apply elem_of_app in Hm as [Hm|Hm]; [by left|right].
        exists user. by rewrite (rideMessages_to _ _ _ Hm).
    + destruct (IH Hnd msgs nr) as (nr' & Hst & Hother & Hskip & Hdone & Hmsgs).
      exists nr'. split; [exact Hst|]. split; [|split; [|split]]; auto.
      * intros u Hu. apply not_elem_of_cons in Hu as [Hne Hu]. by apply Hother.
      * intros u p Hin Hsome. apply elem_of_cons in Hin as [Heq|Hin].
        -- injection Heq as -> ->. rewrite Htok in Hsome. by destruct Hsome.
        -- by apply (Hdone u p).
Qed.

Lemma checkAndNotifyUsers_loop (st : State) :
  ∃ nr', (foldl notifyUser ([], st) (map_to_list (userPreferences st))).2
         = setNotifiedRides nr' st
    ∧ (∀ u, userPreferences st !! u = None → nr' !! u = notifiedRides st !! u)
    ∧ (∀ u, pushTokenOf (userDeviceTokens st) u = None → nr' !! u = notifiedRides st !! u)
    ∧ (∀ u prefs, userPreferences st !! u = Some prefs →
         is_Some (pushTokenOf (userDeviceTokens st) u) →
         nr' !! u = Some (scanParks prefs (parkDataCache st)).2)
    ∧ (∀ m, m ∈ (foldl notifyUser ([], st) (map_to_list (userPreferences st))).1 →
         ∃ u, pushTokenOf (userDeviceTokens st) u = Some (Message.to m)).
Proof.
  destruct (notifyUser_foldl st (map_to_list (userPreferences st))
              (NoDup_fst_map_to_list _) [] (notifiedRides st))
    as (nr' & Hst & Hother & Hskip & Hdone & Hmsgs).
  rewrite setNotifiedRides_same in Hst, Hmsgs.
  exists nr'. split; [exact Hst|]. split; [|split; [|split]]; auto.
  - intros u Hu. apply Hother. by apply not_elem_of_keys. 
  - intros u p Hp. apply Hdone. by apply elem_of_map_to_list.
  - intros m Hm. apply Hmsgs in Hm as [Hm|Hm]; [by apply elem_of_nil in Hm | done].
Qed.


(** C10.  A user without a token, or whose stored token is not an Expo push
    token, is skipped: the turn of the loop for that user changes neither
    the queue nor the stores, after the cycle the notified set of the user
    is what it was (it is not replaced), and no queued message is addressed
    to the token of the user. *)
Theorem tokenless_user_skipped (st : State) (userId : string) :
  (userDeviceTokens st !! userId = None
   ∨ ∃ token, userDeviceTokens st !! userId = Some token ∧ isExpoPushToken token = false) →
  (∀ acc preferences, userDeviceTokens acc.2 = userDeviceTokens st →
                      notifyUser acc (userId, preferences) = acc)
  ∧ notifiedRides (after (checkAndNotifyUsers st)) !! userId = notifiedRides st !! userId
  ∧ (∀ m, m ∈ queued (checkAndNotifyUsers st) →
          userDeviceTokens st !! userId ≠ Some (Message.to m)).
Proof.
  intros Hskip.
  assert (Hnone : pushTokenOf (userDeviceTokens st) userId = None).
  { unfold pushTokenOf. destruct Hskip as [->|(token & -> & ->)]; [done|].
    by rewrite andb_false_r. }
  split; [|split].
  - intros acc preferences Hsame. unfold notifyUser. simpl. by rewrite Hsame, Hnone.
  - unfold checkAndNotifyUsers. rewrite dispatch_notifiedRides.
    destruct (checkAndNotifyUsers_loop st) as (nr' & -> & _ & Hkept & _). simpl.
    by apply Hkept.
  - unfold checkAndNotifyUsers. simpl. intros m Hm.
    destruct (checkAndNotifyUsers_loop st) as (_ & _ & _ & _ & _ & Hmsgs).
    destruct (Hmsgs m Hm) as [u Hu]. apply pushTokenOf_usable in Hu as (_ & Hne & Hvalid).
    intros Hmine. unfold pushTokenOf in Hnone. rewrite Hmine in Hnone.
    unfold truthy in Hnone. rewrite Hvalid in Hnone.
    destruct (String.eqb_spec (Message.to m) ""); [done | discriminate].
Qed.

End Cycle.


Lemma tokenless_user_skipped_witness :
  notifiedRides (after (checkAndNotifyUsers (ext := demoExternals) stR1)) !! "bob"
  = Some {[ "R9" ]}.
Proof.
  assert (Hskip : userDeviceTokens stR1 !! "bob" = None
     ∨ ∃ token, userDeviceTokens stR1 !! "bob" = Some token
                ∧ isExpoPushToken (Externals := demoExternals) token = false).
  { left. reflexivity. }
  destruct (tokenless_user_skipped (ext := demoExternals) stR1 "bob" Hskip) as (_ & Hkept & _).
  rewrite Hkept. reflexivity.
Defined.

(** ** The reminders *)

Section Reminders.
Context {ext : Externals}.

Lemma remindUser_lookup {T : Type} (checkToday : string → T → list Message.t * T)
    (today : string) (tokens : gmap string string) (userId : string)
    (schedulesByDate : gmap string T) (date : string) :
  (remindUser checkToday today tokens userId schedulesByDate).2 !! date
  = match pushTokenOf tokens userId with
    | Some pushToken =>
        if decide (date = today)
        then (λ items, (checkToday pushToken items).2) <$> schedulesByDate !! date
        else schedulesByDate !! date
    | None => schedulesByDate !! date
    end.
Proof.
  unfold remindUser. destruct (pushTokenOf tokens userId) as [pushToken|]; [|done].
  case_decide as Hd.
  - subst date. destruct (schedulesByDate !! today) as [items|] eqn:Htoday; simpl.
    + apply lookup_insert_eq.
    + done.
  - destruct (schedulesByDate !! today) as [items|] eqn:Htoday; simpl; [|done].
    by apply lookup_insert_ne.
Qed.

(** What a loop over the users of a schedule store leaves under a user and a
    date. *)
Lemma remind_lookup2 {T : Type} (checkToday : string → T → list Message.t * T)
    (today : string) (tokens : gmap string string) (store : gmap string (gmap string T))
    (userId date : string) :
  lookup2 (forEachEntry (remindUser checkToday today tokens) store).2 userId date
  = match pushTokenOf tokens userId with
    | Some pushToken =>
        if decide (date = today)
        then (λ items, (checkToday pushToken items).2) <$> lookup2 store userId date
        else lookup2 store userId date
    | None => lookup2 store userId date
    end.
Proof.
  unfold lookup2. rewrite forEachEntry_lookup.
  destruct (store !! userId) as [byDate|]; simpl.
  - apply remindUser_lookup.
  - destruct (pushTokenOf tokens userId); [case_decide|]; done.
Qed.

End Reminders.

Section Stages.
Context {ext : Externals}.



Lemma reached_due (now t : Z) : reached now (newDate t) = true ↔ due now t.
Proof.
  unfold reached, newDate, due.
  destruct (Z.leb_spec (Z.abs t) MAX_TIME) as [Hin|Hout].
  - rewrite Z.leb_le. split; [done | by intros [_ ?]].
  - split; [done | intros [? _]; lia].
Qed.

(** The evaluation of a show in one equation: [fire] and [warn] are the two
    conditions of the loop body. *)
Lemma checkShow_eq (now : Z) (pushToken : string) (show : Show.t) (showTime : Z) :
  parseDate (Show.selectedTime show) = Some showTime →
  let fire := reached now (newDate (showTime - Show.travelTime show * 60000))
              && negb (Show.notified show) in
  let warn := reached now (newDate (showTime - 5 * 60000))
              && negb (Show.finalWarningNotified show) in
  checkShow now pushToken show
  = ((if fire then [showReminder pushToken show showTime] else [])
     ++ (if warn then [showFinalWarning pushToken show] else []),
     Show.mk (Show.showId show) (Show.showName show) (Show.selectedTime show)
       (Show.travelTime show) (Show.notified show || fire)
       (Show.finalWarningNotified show || warn)).
Proof.
  intros Hparse fire warn. unfold checkShow. rewrite Hparse. fold fire.
  destruct show as [sid sname stime travel notified final]. simpl in *.
  destruct fire; simpl; fold warn; destruct warn; simpl;
    by rewrite ?orb_true_r, ?orb_false_r.
Qed.


End Stages.


Section Kept.
Context {ext : Externals}.

Lemma checkShow_kept (now : Z) (pushToken : string) (show : Show.t) :
  showKept show (checkShow now pushToken show).2.
Proof.
  unfold checkShow, showKept. destruct (parseDate (Show.selectedTime show)); [|done].
  destruct show as [sid sname stime travel notified final]. simpl.
  destruct (_ && negb notified); simpl; destruct (_ && negb final); simpl; auto 10.
Qed.

Lemma checkDining_kept (now : Z) (pushToken : string) (dining : Dining.t) :
  diningKept dining (checkDining now pushToken dining).2.
Proof.
  unfold checkDining, diningKept. destruct (parseDate (Dining.time dining)); [|done].
  destruct (_ && _); simpl; auto 10.
Qed.

Lemma checkLane_kept (now : Z) (pushToken rideId : string) (lane : Lane.t) :
  laneKept lane (checkLane now pushToken rideId lane).2.
Proof.
  unfold checkLane, laneKept. destruct (parseDate (Lane.returnTime lane)); [|done].
  destruct (_ && _); simpl; auto 10.
Qed.

Lemma showKept_refl (show : Show.t) : showKept show show.
Proof. unfold showKept. auto 10. Qed.

Lemma diningKept_refl (dining : Dining.t) : diningKept dining dining.
Proof. unfold diningKept. auto 10. Qed.

Lemma laneKept_refl (lane : Lane.t) : laneKept lane lane.
Proof. unfold laneKept. auto 10. Qed.

Lemma checkEventReminders_shows (now : Z) (today : string) (st : State)
    (userId date : string) (i : nat) (show : Show.t) :
  showAt st userId date i = Some show →
  ∃ show', showAt (after (checkEventReminders now today st)) userId date i = Some show'
           ∧ showKept show show'.
Proof.
  unfold showAt, checkEventReminders. simpl. unfold remindShows. rewrite remind_lookup2.
  destruct (lookup2 (userShowSchedules st) userId date) as [shows|]; [simpl|done].
  intros Hi.
  destruct (pushTokenOf (userDeviceTokens st) userId) as [pushToken|];
    [case_decide|]; simpl; try (exists show; split; [done | apply showKept_refl]).
  rewrite forEachItem_items, list_lookup_fmap, Hi. simpl.
  eexists. split; [done | apply checkShow_kept].
Qed.

Lemma checkEventReminders_dining (now : Z) (today : string) (st : State)
    (userId date : string) (i : nat) (dining : Dining.t) :
  diningAt st userId date i = Some dining →
  ∃ dining', diningAt (after (checkEventReminders now today st)) userId date i = Some dining'
             ∧ diningKept dining dining'.
Proof.
  unfold diningAt, checkEventReminders. simpl. unfold remindDining. rewrite remind_lookup2.
  destruct (lookup2 (userDiningSchedules st) userId date) as [items|]; [simpl|done].
  intros Hi.
  destruct (pushTokenOf (userDeviceTokens st) userId) as [pushToken|];
    [case_decide|]; simpl; try (exists dining; split; [done | apply diningKept_refl]).
  rewrite forEachItem_items, list_lookup_fmap, Hi. simpl.
  eexists. split; [done | apply checkDining_kept].
Qed.

Lemma checkEventReminders_lanes (now : Z) (today : string) (st : State)
    (userId date rideId : string) (lane : Lane.t) :
  laneAt st userId date rideId = Some lane →
  ∃ lane', laneAt (after (checkEventReminders now today st)) userId date rideId = Some lane'
           ∧ laneKept lane lane'.
Proof.
  unfold laneAt, checkEventReminders. simpl. unfold remindLanes. rewrite remind_lookup2.
  destruct (lookup2 (userLightningLanes st) userId date) as [lanes|]; [simpl|done].
  intros Hi.
  destruct (pushTokenOf (userDeviceTokens st) userId) as [pushToken|];
    [case_decide|]; simpl; try (exists lane; split; [done | apply laneKept_refl]).
  rewrite forEachEntry_lookup, Hi. simpl.
  eexists. split; [done | apply checkLane_kept].
Qed.

Lemma checkAndNotifyUsers_schedules (st : State) :
  userShowSchedules (after (checkAndNotifyUsers st)) = userShowSchedules st
  ∧ userDiningSchedules (after (checkAndNotifyUsers st)) = userDiningSchedules st
  ∧ userLightningLanes (after (checkAndNotifyUsers st)) = userLightningLanes st.
Proof.
  unfold checkAndNotifyUsers, dispatch. simpl.
  destruct (checkAndNotifyUsers_loop st) as (nr' & -> & _). done.
Qed.

(** The job runs [checkShow] on each show that a user with a usable token
    has today: the list of today is replaced by the shows as [checkShow]
    leaves them, and what [checkShow] emits is queued. *)
Lemma checkEventReminders_today_shows (now : Z) (today : string) (st : State)
    (userId pushToken : string) (shows : list Show.t) :
  pushTokenOf (userDeviceTokens st) userId = Some pushToken →
  lookup2 (userShowSchedules st) userId today = Some shows →
  lookup2 (userShowSchedules (after (checkEventReminders now today st))) userId today
  = Some ((λ show, (checkShow now pushToken show).2) <$> shows)
  ∧ (∀ show m, show ∈ shows → m ∈ (checkShow now pushToken show).1 →
               m ∈ queued (checkEventReminders now today st)).
Proof.
  intros Htoken Hshows. unfold checkEventReminders. simpl. unfold remindShows. split.
  - rewrite remind_lookup2, Htoken, decide_True, Hshows by done. simpl.
    by rewrite forEachItem_items.
  - intros show m Hshow Hm. apply elem_of_app. left.
    apply forEachEntry_messages.
    unfold lookup2 in Hshows.
    destruct (userShowSchedules st !! userId) as [byDate|] eqn:Hu; [simpl in Hshows|done].
    exists userId, byDate. split; [done|].
    unfold remindUser. rewrite Htoken, Hshows. simpl.
    rewrite forEachItem_messages. apply list_elem_of_bind. by exists show.
Qed.

End Kept.

(** ** The archival sweep *)

Lemma liveWithin_refl (st : State) : liveWithin st st.
Proof. unfold liveWithin. auto. Qed.

Lemma liveWithin_trans (st1 st2 st3 : State) :
  liveWithin st1 st2 → liveWithin st2 st3 → liveWithin st1 st3.
Proof. unfold liveWithin. intros (?&?&?) (?&?&?). repeat split; eauto. Qed.

Lemma archiveDate_within (today userId : string) (st : State) (entry : string * list Show.t) :
  liveWithin (archiveDate today userId st entry) st.
Proof.
  unfold archiveDate. destruct (String.ltb entry.1 today); [|apply liveWithin_refl].
  unfold liveWithin. simpl.
  repeat split; intros u d x; rewrite lookup2_alter_delete; by case_decide.
Qed.

Lemma archiveUser_within (today : string) (user : string * gmap string (list Show.t)) (st : State) :
  liveWithin (archiveUser today st user) st.
Proof.
  unfold archiveUser. generalize (map_to_list user.2). intros l. revert st.
  induction l as [|entry l IH]; intros st; simpl; [apply liveWithin_refl|].
  eapply liveWithin_trans; [apply IH | apply archiveDate_within].
Qed.

Lemma autoArchivePastDates_within (today : string) (st : State) :
  liveWithin (autoArchivePastDates today st) st.
Proof.
  unfold autoArchivePastDates. generalize (map_to_list (userShowSchedules st)). intros l.
  revert st. induction l as [|user l IH]; intros st; simpl; [apply liveWithin_refl|].
  eapply liveWithin_trans; [apply IH | apply archiveUser_within].
Qed.

Lemma unchangedAt_refl (st : State) (u d : string) : unchangedAt st st u d.
Proof. by unfold unchangedAt. Qed.

Lemma unchangedAt_trans (st1 st2 st3 : State) (u d : string) :
  unchangedAt st1 st2 u d → unchangedAt st2 st3 u d → unchangedAt st1 st3 u d.
Proof. unfold unchangedAt. intros (?&?&?&?) (?&?&?&?). repeat split; congruence. Qed.

Lemma sweptAt_then_unchanged (st1 st2 st3 : State) (u d : string) (shows : list Show.t) :
  sweptAt st1 st2 u d shows → unchangedAt st2 st3 u d → sweptAt st1 st3 u d shows.
Proof. unfold sweptAt, unchangedAt. intros (?&?&?&?) (?&?&?&?). repeat split; congruence. Qed.

Lemma unchanged_then_sweptAt (st1 st2 st3 : State) (u d : string) (shows : list Show.t) :
  unchangedAt st1 st2 u d → sweptAt st2 st3 u d shows → sweptAt st1 st3 u d shows.
Proof.
  unfold sweptAt, unchangedAt, archiveOf. intros (?&Hd&Hl&?) (?&?&?&Ha).
  repeat split; try done. rewrite Ha. by rewrite Hd, Hl.
Qed.

Lemma archiveDate_swept (today userId : string) (st : State) (date : string)
    (shows : list Show.t) :
  String.ltb date today = true →
  sweptAt st (archiveDate today userId st (date, shows)) userId date shows.
Proof.
  intros Hpast. unfold archiveDate, sweptAt. simpl. rewrite Hpast. simpl.
  rewrite !lookup2_alter_delete, lookup2_insert_default, !decide_True by done. done.
Qed.

Lemma archiveDate_unchanged (today userId : string) (st : State) (entry : string * list Show.t)
    (u d : string) :
  u ≠ userId ∨ d ≠ entry.1 ∨ String.ltb entry.1 today = false →
  unchangedAt st (archiveDate today userId st entry) u d.
Proof.
  intros Hother. unfold archiveDate.
  destruct (String.ltb entry.1 today) eqn:Hpast; [|apply unchangedAt_refl].
  assert (Hne : ¬ (u = userId ∧ d = entry.1)).
  { intros [-> ->]. destruct Hother as [Hu|[Hd|Hp]]; [by apply Hu | by apply Hd | congruence]. }
  unfold unchangedAt. simpl.
  rewrite !lookup2_alter_delete, lookup2_insert_default, !decide_False by done. done.
Qed.

Lemma archiveDate_foldl (today userId : string) (l : list (string * list Show.t)) :
  NoDup l.*1 →
  ∀ st,
    (∀ d shows, (d, shows) ∈ l → String.ltb d today = true →
                sweptAt st (foldl (archiveDate today userId) st l) userId d shows)
    ∧ (∀ u d, (u = userId → ∀ shows, (d, shows) ∈ l → String.ltb d today = false) →
              unchangedAt st (foldl (archiveDate today userId) st l) u d).
Proof.
  induction l as [|[date0 shows0] l IH]; intros Hnd st; simpl.
  - split; [by intros d shows ?%elem_of_nil | intros; apply unchangedAt_refl].
  - apply NoDup_cons in Hnd as [Hfresh Hnd]. simpl in Hfresh.
    destruct (IH Hnd (archiveDate today userId st (date0, shows0))) as [Hswept Hsame].
    split.
    + intros d shows [[= -> ->]|Hin]%elem_of_cons Hpast.
      * apply (sweptAt_then_unchanged _ (archiveDate today userId st (date0, shows0)));
          [by apply archiveDate_swept|].
        apply Hsame. intros _ shows Hin. destruct Hfresh.
        apply list_elem_of_fmap. by exists (date0, shows).
      * apply (unchanged_then_sweptAt _ (archiveDate today userId st (date0, shows0)));
          [|apply Hswept; assumption].
        apply archiveDate_unchanged. right; left. simpl. intros ->. apply Hfresh.
        apply list_elem_of_fmap. by exists (date0, shows).
    + intros u d Hnot.
      apply (unchangedAt_trans _ (archiveDate today userId st (date0, shows0))).
      * apply archiveDate_unchanged. simpl.
        destruct (decide (u = userId)) as [->|Hu]; [|by left].
        destruct (decide (d = date0)) as [->|Hd]; [|right; left; exact Hd].
        right; right. apply (Hnot eq_refl shows0). left.
      * apply Hsame. intros Hu shows Hin. apply (Hnot Hu shows). by right.
Qed.

Lemma archiveUser_foldl (today : string) (users : list (string * gmap string (list Show.t))) :
  NoDup users.*1 →
  ∀ st,
    (∀ u byDate d shows, (u, byDate) ∈ users → byDate !! d = Some shows →
                         String.ltb d today = true →
                         sweptAt st (foldl (archiveUser today) st users) u d shows)
    ∧ (∀ u d, (∀ byDate shows, (u, byDate) ∈ users → byDate !! d = Some shows →
                               String.ltb d today = false) →
              unchangedAt st (foldl (archiveUser today) st users) u d).
Proof.
  induction users as [|[user0 byDate0] users IH]; intros Hnd st; simpl.
  - split; [by intros u byDate d shows ?%elem_of_nil | intros; apply unchangedAt_refl].
  - apply NoDup_cons in Hnd as [Hfresh Hnd]. simpl in Hfresh.
    destruct (IH Hnd (archiveUser today st (user0, byDate0))) as [Hswept Hsame].
    destruct (archiveDate_foldl today user0 (map_to_list byDate0)
                (NoDup_fst_map_to_list byDate0) st) as [Hswept0 Hsame0].
    fold (archiveUser today st (user0, byDate0)) in Hswept0, Hsame0.
    split.
    + intros u byDate d shows [[= -> ->]|Hin]%elem_of_cons Hd Hpast.
      * apply (sweptAt_then_unchanged _ (archiveUser today st (user0, byDate0))).
        -- apply Hswept0; [by apply elem_of_map_to_list | done].
        -- apply Hsame. intros byDate shows' Hin. destruct Hfresh.
           apply list_elem_of_fmap. by exists (user0, byDate).
      * apply (unchanged_then_sweptAt _ (archiveUser today st (user0, byDate0)));
          [|eapply Hswept; eassumption].
        apply Hsame0. intros ->. destruct Hfresh.
        apply list_elem_of_fmap. by exists (user0, byDate).
    + intros u d Hnot.
      apply (unchangedAt_trans _ (archiveUser today st (user0, byDate0))).
      * apply Hsame0. intros -> shows Hin%elem_of_map_to_list.
        apply (Hnot byDate0 shows); [left | done].
      * apply Hsame. intros byDate shows Hin. apply (Hnot byDate shows). by right.
Qed.

(** What the sweep does: a date of the show store of a user that is before
    [today] leaves the three live stores of that user and is archived with
    the shows, reservations and Lightning Lanes the user had for it; every
    other date of every store is left as it is. *)
Lemma autoArchivePastDates_spec (today : string) (st : State) (userId date : string) :
  match lookup2 (userShowSchedules st) userId date with
  | Some shows =>
      if String.ltb date today
      then sweptAt st (autoArchivePastDates today st) userId date shows
      else unchangedAt st (autoArchivePastDates today st) userId date
  | None => unchangedAt st (autoArchivePastDates today st) userId date
  end.
Proof.
  unfold autoArchivePastDates.
  destruct (archiveUser_foldl today (map_to_list (userShowSchedules st))
              (NoDup_fst_map_to_list _) st) as [Hswept Hsame].
  unfold lookup2 at 1.
  destruct (userShowSchedules st !! userId) as [byDate|] eqn:Hu; simpl.
  - destruct (byDate !! date) as [shows|] eqn:Hd.
    + destruct (String.ltb date today) eqn:Hpast.
      * apply (Hswept userId byDate); [by apply elem_of_map_to_list | done | done].
      * apply Hsame. intros byDate' shows' Hin%elem_of_map_to_list. congruence.
    + apply Hsame. intros byDate' shows' Hin%elem_of_map_to_list. congruence.
  - apply Hsame. intros byDate' shows' Hin%elem_of_map_to_list. congruence.
Qed.

(** C1.  The sweep goes through the dates of the show store only.  With
    today = 2024-05-01, a user whose reservation and Lightning Lane of
    2024-04-30 come with no show on that date keeps both in the live stores
    after the sweep, and nothing is archived for the date: the claim that no
    live store holds a date before today fails on this input. *)
Theorem sweep_skips_dates_without_shows :
  let st' := autoArchivePastDates "2024-05-01" stDiningOnly in
  String.ltb "2024-04-30" "2024-05-01" = true
  ∧ lookup2 (userDiningSchedules st') "alice" "2024-04-30" = Some [dinner0430]
  ∧ lookup2 (userLightningLanes st') "alice" "2024-04-30" = Some {[ "R1" := lane0430 ]}
  ∧ lookup2 (archivedSchedules st') "alice" "2024-04-30" = None.
Proof. vm_compute. done. Qed.

(** ** The routes *)

Section Routes.
Context {ext : Externals}.

(** No route changes a stored show. *)
Lemma handle_shows (r : Request) (st : State) (u d : string) (shows' : list Show.t) :
  lookup2 (userShowSchedules (handle r st).1) u d = Some shows' →
  showsStay (default [] (lookup2 (userShowSchedules st) u d)) shows'.
Proof.
  intros Hafter. unfold showsStay.
  assert (Hsame : lookup2 (userShowSchedules st) u d = Some shows' →
                  shows' = default [] (lookup2 (userShowSchedules st) u d)) by (by intros ->).
  destruct r; simpl in Hafter; repeat case_match; simpl in Hafter; simplify_eq;
    try (left; by apply Hsame).
  - (* PostShow *)
    rewrite lookup2_insert_default in Hafter. case_decide as Hud; [|left; by apply Hsame].
    destruct Hud as [-> ->]. injection Hafter as <-. right; left.
    eexists. split; [unfold lookup2; by destruct (userShowSchedules st !! userId) | done].
  - (* DeleteShow *)
    erewrite lookup2_insert_found in Hafter by done.
    case_decide as Hud; [|left; by apply Hsame].
    destruct Hud as [-> ->]. injection Hafter as <-. right; right.
    exists showId. unfold lookup2.
    match goal with Hu : userShowSchedules st !! _ = Some _ |- _ => rewrite Hu end. simpl.
    match goal with Hd : _ !! _ = Some _ |- _ => rewrite Hd end. done.
Qed.

(** Apart from the update of a reservation no route changes a stored
    reservation. *)
Lemma handle_dining (r : Request) (st : State) (u d : string) (dining' : list Dining.t) :
  isEdit r = false →
  lookup2 (userDiningSchedules (handle r st).1) u d = Some dining' →
  diningStays (default [] (lookup2 (userDiningSchedules st) u d)) dining'.
Proof.
  intros Hedit Hafter. unfold diningStays.
  assert (Hsame : lookup2 (userDiningSchedules st) u d = Some dining' →
                  dining' = default [] (lookup2 (userDiningSchedules st) u d)) by (by intros ->).
  destruct r; try discriminate Hedit;
    simpl in Hafter; repeat case_match; simpl in Hafter; simplify_eq;
    try (left; by apply Hsame).
  - (* PostDining *)
    rewrite lookup2_insert_default in Hafter. case_decide as Hud; [|left; by apply Hsame].
    destruct Hud as [-> ->]. injection Hafter as <-. right; left.
    eexists. split; [unfold lookup2; by destruct (userDiningSchedules st !! userId) | done].
  - (* DeleteDining *)
    erewrite lookup2_insert_found in Hafter by done.
    case_decide as Hud; [|left; by apply Hsame].
    destruct Hud as [-> ->]. injection Hafter as <-. right; right.
    exists diningId. unfold lookup2.
    match goal with Hu : userDiningSchedules st !! _ = Some _ |- _ => rewrite Hu end. simpl.
    match goal with Hd : _ !! _ = Some _ |- _ => rewrite Hd end. done.
Qed.

(** Apart from the Lightning Lane posted again no route changes a stored
    Lightning Lane. *)
Lemma handle_lanes (r : Request) (st : State) (u d : string) (lanes' : gmap string Lane.t) :
  isEdit r = false →
  lookup2 (userLightningLanes (handle r st).1) u d = Some lanes' →
  lanesStay (default ∅ (lookup2 (userLightningLanes st) u d)) lanes'.
Proof.
  intros Hedit Hafter. unfold lanesStay.
  assert (Hsame : lookup2 (userLightningLanes st) u d = Some lanes' →
                  lanes' = default ∅ (lookup2 (userLightningLanes st) u d)) by (by intros ->).
  destruct r; try discriminate Hedit;
    simpl in Hafter; repeat case_match; simpl in Hafter; simplify_eq;
    try (left; by apply Hsame).
  (* DeleteLightningLane *)
  erewrite lookup2_insert_found in Hafter by done.
  case_decide as Hud; [|left; by apply Hsame].
  destruct Hud as [-> ->]. injection Hafter as <-. right.
  exists rideId. unfold lookup2.
  match goal with Hu : userLightningLanes st !! _ = Some _ |- _ => rewrite Hu end. simpl.
  match goal with Hd : _ !! _ = Some _ |- _ => rewrite Hd end. done.
Qed.

Lemma editFirst_found {A : Type} (p : A → bool) (edit : A → A) (l : list A) :
  ∀ l', editFirst p edit l = Some l' →
        ∃ i x, l !! i = Some x ∧ p x = true
               ∧ (∀ j y, j < i → l !! j = Some y → p y = false)
               ∧ l' = <[i := edit x]> l.
Proof.
  induction l as [|first rest IH]; intros l' Hedit; [done|].
  simpl in Hedit. destruct (p first) eqn:Hfirst.
  - injection Hedit as <-. exists 0, first. split; [done|]. split; [done|].
    split; [intros j y Hj; lia | done].
  - destruct (editFirst p edit rest) as [rest'|] eqn:Hrest; [|done].
    injection Hedit as <-.
    destruct (IH rest' eq_refl) as (i & x & Hi & Hx & Hbefore & ->).
    exists (S i), x. split; [done|]. split; [done|]. split; [|done].
    intros [|j] y Hj Hy; simpl in Hy.
    + by injection Hy as <-.
    + apply (Hbefore j y); [lia | done].
Qed.

(** The update of a reservation rewrites the first reservation with the id,
    under the user and the date of the request, and nothing else. *)
Lemma handle_put_dining (st : State) (userId diningId : string) (date time type : option string)
    (travelTime : option Z) (u d : string) (i : nat) (dining : Dining.t) :
  let st' := (handle (PutDining userId diningId date time type travelTime) st).1 in
  userShowSchedules st' = userShowSchedules st
  ∧ userLightningLanes st' = userLightningLanes st
  ∧ (diningAt st u d i = Some dining →
     diningAt st' u d i = Some dining
     ∨ (u = userId ∧ date = Some d ∧ Dining.id dining = diningId
        ∧ diningAt st' u d i = Some (editDining time type travelTime dining))).
Proof.
  simpl. destruct (given date) as [date'|] eqn:Hdate; [|by auto].
  destruct (userDiningSchedules st !! userId) as [byDate|] eqn:Hu; [|by auto].
  destruct (byDate !! date') as [items|] eqn:Hd; [|by auto].
  destruct (editFirst _ _ items) as [items'|] eqn:Hedit; [|by auto].
  simpl. split; [done|]. split; [done|]. intros Hat.
  apply editFirst_found in Hedit as (i0 & x & Hi0 & Hx & _ & ->).
  apply String.eqb_eq in Hx.
  unfold diningAt in *. simpl. rewrite (lookup2_insert_found _ _ _ _ _ byDate) by done.
  case_decide as Hud; [|by left]. destruct Hud as [-> ->].
  unfold lookup2 in Hat. rewrite Hu in Hat. simpl in Hat. rewrite Hd in Hat. simpl in Hat.
  simpl. destruct (decide (i = i0)) as [->|Hne].
  - right. rewrite Hi0 in Hat. injection Hat as <-.
    split; [done|]. split.
    { unfold given in Hdate. destruct date as [s|]; [|done].
      by destruct (truthy s); [injection Hdate as ->|]. }
    split; [done|]. apply list_lookup_insert_eq. by apply lookup_lt_Some in Hi0.
  - left. by rewrite list_lookup_insert_ne.
Qed.

(** Posting a Lightning Lane writes the entry of its ride, under the user
    and the date of the request, and nothing else. *)
Lemma handle_post_lane (st : State) (userId : string)
    (date rideId rideName returnTime : option string) (travelTime : option Z)
    (u d ride : string) (lane : Lane.t) :
  let st' := (handle (PostLightningLane userId date rideId rideName returnTime travelTime)
                st).1 in
  userShowSchedules st' = userShowSchedules st
  ∧ userDiningSchedules st' = userDiningSchedules st
  ∧ (laneAt st u d ride = Some lane →
     laneAt st' u d ride = Some lane
     ∨ (u = userId ∧ date = Some d ∧ rideId = Some ride
        ∧ ∃ name time minutes,
            rideName = Some name ∧ returnTime = Some time ∧ travelTime = Some minutes
            ∧ laneAt st' u d ride = Some (Lane.mk name time minutes false))).
Proof.
  simpl.
  destruct (given date) as [date'|] eqn:Hdate; [|by auto].
  destruct (given rideId) as [ride'|] eqn:Hride; [|by auto].
  destruct (given rideName) as [name|] eqn:Hname; [|by auto].
  destruct (given returnTime) as [time|] eqn:Htime; [|by auto].
  destruct travelTime as [minutes|]; [|by auto].
  simpl. split; [done|]. split; [done|]. intros Hat.
  assert (Hgiven : ∀ x s, given x = Some s → x = Some s).
  { intros x s. unfold given. destruct x as [s'|]; [|done].
    by destruct (truthy s'); [intros [= ->]|]. }
  apply Hgiven in Hdate, Hride, Hname, Htime. subst.
  unfold laneAt in *. simpl. rewrite lookup2_insert_default.
  case_decide as Hud; [|by left]. destruct Hud as [-> ->]. simpl.
  destruct (decide (ride = ride')) as [->|Hne].
  - right. split; [done|]. split; [done|]. split; [done|].
    exists name, time, minutes. split; [done|]. split; [done|]. split; [done|].
    apply lookup_insert_eq.
  - left. rewrite lookup_insert_ne by done.
    unfold lookup2 in *. destruct (userLightningLanes st !! userId) as [byDate|]; [|done].
    simpl in *. by destruct (byDate !! date').
Qed.

End Routes.

(** ** Flags of the scheduled events *)

(** C6.  [checkEventReminders] never clears a flag: every show, reservation
    and Lightning Lane of the live stores is still there afterwards, at the
    same place, the same event, and each of its flags that was true is still
    true.  The other jobs do not clear one either: [checkAndNotifyUsers]
    leaves the three schedule stores as they are and [autoArchivePastDates]
    only takes dates away.  Of the routes, those that are no edit of an
    event by the user leave every stored event as it is (they add new events
    and delete events).  An edit leaves every stored event as it is but the
    one it addresses: the update of a reservation rewrites the reservation
    of the user and date of the request that has the id of the request, and
    stores it with [notified = false]; a Lightning Lane posted again
    replaces the entry of its user, date and ride by one with
    [notified = false]; neither touches a show. *)
Theorem flags_never_reset {ext : Externals} (now : Z) (today : string) (st : State) :
  let st' := after (checkEventReminders now today st) in
  (∀ userId date i show,
     showAt st userId date i = Some show →
     ∃ show', showAt st' userId date i = Some show' ∧ showKept show show')
  ∧ (∀ userId date i dining,
       diningAt st userId date i = Some dining →
       ∃ dining', diningAt st' userId date i = Some dining' ∧ diningKept dining dining')
  ∧ (∀ userId date rideId lane,
       laneAt st userId date rideId = Some lane →
       ∃ lane', laneAt st' userId date rideId = Some lane' ∧ laneKept lane lane')
  ∧ (userShowSchedules (after (checkAndNotifyUsers st)) = userShowSchedules st
     ∧ userDiningSchedules (after (checkAndNotifyUsers st)) = userDiningSchedules st
     ∧ userLightningLanes (after (checkAndNotifyUsers st)) = userLightningLanes st)
  ∧ liveWithin (autoArchivePastDates today st) st
  ∧ (∀ r userId date,
       plainRequest r = true → isEdit r = false →
       (∀ shows, lookup2 (userShowSchedules (handle r st).1) userId date = Some shows →
                 showsStay (default [] (lookup2 (userShowSchedules st) userId date)) shows)
       ∧ (∀ dining, lookup2 (userDiningSchedules (handle r st).1) userId date = Some dining →
                    diningStays (default [] (lookup2 (userDiningSchedules st) userId date)) dining)
       ∧ (∀ lanes, lookup2 (userLightningLanes (handle r st).1) userId date = Some lanes →
                   lanesStay (default ∅ (lookup2 (userLightningLanes st) userId date)) lanes))
  ∧ (∀ r,
       plainRequest r = true → isEdit r = true →
       userShowSchedules (handle r st).1 = userShowSchedules st
       ∧ (∀ userId date i dining,
            diningAt st userId date i = Some dining →
            diningAt (handle r st).1 userId date i = Some dining
            ∨ ∃ diningId time type travelTime,
                r = PutDining userId diningId (Some date) time type travelTime
                ∧ Dining.id dining = diningId
                ∧ diningAt (handle r st).1 userId date i
                  = Some (editDining time type travelTime dining))
       ∧ (∀ userId date rideId lane,
            laneAt st userId date rideId = Some lane →
            laneAt (handle r st).1 userId date rideId = Some lane
            ∨ ∃ rideName returnTime travelTime,
                r = PostLightningLane userId (Some date) (Some rideId) (Some rideName)
                      (Some returnTime) (Some travelTime)
                ∧ laneAt (handle r st).1 userId date rideId
                  = Some (Lane.mk rideName returnTime travelTime false)))
  ∧ (∀ time type travelTime dining,
       Dining.notified (editDining time type travelTime dining) = false).
Proof.
  intros st'. split; [|split; [|split; [|split; [|split; [|split; [|split]]]]]].
  - intros userId date i show. apply checkEventReminders_shows.
  - intros userId date i dining. apply checkEventReminders_dining.
  - intros userId date rideId lane. apply checkEventReminders_lanes.
  - apply checkAndNotifyUsers_schedules.
  - apply autoArchivePastDates_within.
  - intros r userId date _ Hedit. split; [|split].
    + intros shows. apply handle_shows.
    + intros dining. by apply handle_dining.
    + intros lanes. by apply handle_lanes.
  - intros r _ Hedit. destruct r; try discriminate Hedit.
    + (* PutDining *)
      split; [apply (handle_put_dining st userId diningId date time type travelTime "" "" 0
                       (Dining.mk "" "" "" "" 0 false))|].
      split.
      * intros u d i dining Hat.
        destruct (handle_put_dining st userId diningId date time type travelTime u d i dining)
          as (_ & _ & Hdining).
        destruct (Hdining Hat) as [Hsame | (-> & -> & Hid & Hnew)]; [by left|].
        right. by exists diningId, time, type, travelTime.
      * intros u d ride lane Hat. left.
        destruct (handle_put_dining st userId diningId date time type travelTime "" "" 0
                    (Dining.mk "" "" "" "" 0 false)) as (_ & Hlanes & _).
        unfold laneAt. by rewrite Hlanes.
    + (* PostLightningLane *)
      split; [apply (handle_post_lane st userId date rideId rideName returnTime travelTime
                       "" "" "" (Lane.mk "" "" 0 false))|].
      split.
      * intros u d i dining Hat. left.
        destruct (handle_post_lane st userId date rideId rideName returnTime travelTime
                    "" "" "" (Lane.mk "" "" 0 false)) as (_ & Hdining & _).
        unfold diningAt. by rewrite Hdining.
      * intros u d ride lane Hat.
        destruct (handle_post_lane st userId date rideId rideName returnTime travelTime
                    u d ride lane) as (_ & _ & Hlane).
        destruct (Hlane Hat)
          as [Hsame | (-> & -> & -> & name & time & minutes & -> & -> & -> & Hnew)];
          [by left|].
        right. by exists name, time, minutes.
  - intros time type travelTime dining. unfold editDining.
    by destruct (given time), (given type), travelTime.
Qed.

(** Alice's show keeps its flag through a reminder check; the update of her
    reservation [d1] clears the flag of [d1] and leaves her show alone. *)
Lemma flags_never_reset_witness :
  (∃ show', showAt (after (checkEventReminders (ext := demoExternals) at1356 "2024-05-01" stShow))
                   "alice" "2024-05-01" 0 = Some show'
            ∧ Show.notified show' = true)
  ∧ userShowSchedules
      (handle (ext := demoExternals)
         (PutDining "alice" "d1" (Some "2024-05-01") None None (Some 15%Z)) stShow).1
    = userShowSchedules stShow.
Proof.
  destruct (flags_never_reset (ext := demoExternals) at1356 "2024-05-01" stShow)
    as (Hshows & _ & _ & _ & _ & _ & Hedit & _).
  split.
  - destruct (Hshows "alice" "2024-05-01" 0%nat (show1400 20 true false))
      as (show' & Hat & Hkept).
    + reflexivity.
    + exists show'. split; [exact Hat|].
      destruct Hkept as (_ & _ & _ & _ & Hflag & _). apply Hflag. reflexivity.
  - apply (Hedit (PutDining "alice" "d1" (Some "2024-05-01") None None (Some 15%Z)));
      reflexivity.
Defined.

(** ** Updates of scheduled events *)

Lemma truthy_given (s : string) : s ≠ "" → given (Some s) = Some s.
Proof.
  intros Hne. unfold given, truthy. by destruct (String.eqb_spec s "").
Qed.

Lemma editFirst_at {A : Type} (p : A → bool) (edit : A → A) (l : list A) :
  ∀ i x, l !! i = Some x → p x = true →
         (∀ j y, j < i → l !! j = Some y → p y = false) →
         editFirst p edit l = Some (<[i := edit x]> l).
Proof.
  induction l as [|first rest IH]; intros i x Hi Hp Hbefore; [done|].
  destruct i as [|i]; simpl in *.
  - injection Hi as ->. by rewrite Hp.
  - rewrite (Hbefore 0 first) by (done || lia).
    rewrite (IH i x Hi Hp); [done|].
    intros j y Hj Hy. apply (Hbefore (S j) y); [lia | done].
Qed.

Section Updates.
Context {ext : Externals}.

(** C7, amended.  Only dining reservations have an update route: a
    successful PUT rewrites the first reservation with the id and stores it
    with [notified = false], with the time, the type and the travel time of
    the request where the request carries them and those of the reservation
    where it does not, under the same id and restaurant name; every other
    reservation of the date stays as it is.  Posting a Lightning Lane for a
    ride id stores the entry with [notified = false], in place of the one
    the date had for that ride.  No route changes a stored show: the list
    of a date stays as it is, gains one show with both flags false, or loses
    the shows of one id. *)
Theorem update_resets_notified (st : State) (userId date : string) :
  date ≠ "" → plainKey userId = true → plainKey date = true →
  (∀ diningId time type travelTime dining i d,
     lookup2 (userDiningSchedules st) userId date = Some dining →
     dining !! i = Some d → Dining.id d = diningId →
     (∀ j d0, j < i → dining !! j = Some d0 → Dining.id d0 ≠ diningId) →
     let out := handle (PutDining userId diningId (Some date) time type travelTime) st in
     let d' := editDining time type travelTime d in
     out.2 = 200
     ∧ diningAt out.1 userId date i = Some d'
     ∧ d' = Dining.mk (Dining.id d) (Dining.restaurantName d)
              (default (Dining.time d) (given time))
              (default (Dining.type d) (given type))
              (default (Dining.travelTime d) travelTime) false
     ∧ Dining.notified d' = false
     ∧ Dining.id d' = diningId
     ∧ Dining.time d' = default (Dining.time d) (given time)
     ∧ Dining.type d' = default (Dining.type d) (given type)
     ∧ Dining.travelTime d' = default (Dining.travelTime d) travelTime
     ∧ (∀ j, j ≠ i → diningAt out.1 userId date j = dining !! j))
  ∧ (∀ rideId rideName returnTime travelTime,
       rideId ≠ "" → rideName ≠ "" → returnTime ≠ "" → plainKey rideId = true →
       let out := handle (PostLightningLane userId (Some date) (Some rideId) (Some rideName)
                            (Some returnTime) (Some travelTime)) st in
       out.2 = 200
       ∧ laneAt out.1 userId date rideId = Some (Lane.mk rideName returnTime travelTime false))
  ∧ (∀ r shows',
       plainRequest r = true →
       lookup2 (userShowSchedules (handle r st).1) userId date = Some shows' →
       showsStay (default [] (lookup2 (userShowSchedules st) userId date)) shows').
Proof.
  intros Hdate _ _. split; [|split].
  - intros diningId time type travelTime dining i d Hstore Hi Hid Hfirst out d'.
    unfold out, d'. clear out d'. simpl. rewrite (truthy_given date Hdate).
    unfold lookup2 in Hstore.
    destruct (userDiningSchedules st !! userId) as [byDate|] eqn:Hu; [simpl in Hstore|done].
    rewrite Hstore.
    rewrite (editFirst_at _ _ dining i d Hi).
    + simpl. split; [done|].
      assert (Hat : ∀ j, diningAt
                (setUserDiningSchedules
                   (<[userId := <[date := <[i := editDining time type travelTime d]> dining]>
                                  byDate]> (userDiningSchedules st)) st) userId date j
              = <[i := editDining time type travelTime d]> dining !! j).
      { intros j. unfold diningAt. simpl.
        rewrite (lookup2_insert_found _ _ _ _ _ byDate) by done.
        by rewrite decide_True. }
      split; [|split; [|split; [|split; [|split; [|split; [|split]]]]]].
      * rewrite Hat. apply list_lookup_insert_eq. by apply lookup_lt_Some in Hi.
      * unfold editDining. by destruct (given time), (given type), travelTime.
      * unfold editDining. by destruct (given time), (given type), travelTime.
      * unfold editDining. by destruct (given time), (given type), travelTime.
      * unfold editDining. by destruct (given time), (given type), travelTime.
      * unfold editDining. by destruct (given time), (given type), travelTime.
      * unfold editDining. by destruct (given time), (given type), travelTime.
      * intros j Hj. rewrite Hat. by apply list_lookup_insert_ne.
    + by apply String.eqb_eq.
    + intros j d0 Hj Hd0. apply String.eqb_neq. by apply (Hfirst j).
  - intros rideId rideName returnTime travelTime Hride Hname Hreturn _ out.
    unfold out. simpl.
    rewrite !truthy_given by done. simpl. split; [done|].
    unfold laneAt. simpl. rewrite lookup2_insert_default, decide_True by done. simpl.
    apply lookup_insert_eq.
  - intros r shows' _. apply handle_shows.
Qed.

End Updates.

(** C7, as stated, fails: no request changes the time of Alice's show. *)
Lemma shows_have_no_update_route :
  ¬ ∃ r, updatesShow (ext := demoExternals) stShow "alice" "2024-05-01"
                     (show1400 20 true false) r.
Proof.
  intros (r & new & Hafter & Hid & Htime).
  apply handle_shows in Hafter. unfold showsStay in Hafter.
  change (default [] (lookup2 (userShowSchedules stShow) "alice" "2024-05-01"))
    with [show1400 20 true false] in Hafter.
  destruct Hafter as [Heq | [(s & Heq & _) | (sid & Heq)]].
  - injection Heq as Heq. subst new. by apply Htime.
  - discriminate Heq.
  - unfold keep in Heq. destruct (negb _) in Heq; [|discriminate Heq].
    injection Heq as Heq. subst new. by apply Htime.
Qed.

(** The update of Alice's reservation with a new time and travel time and
    no type: the type stays, the flag is cleared. *)
Lemma update_resets_notified_witness :
  (handle (ext := demoExternals)
     (PutDining "alice" "d1" (Some "2024-05-01")
        (Some "2024-05-01T18:30:00-07:00") None (Some 15%Z)) stDining).2 = 200
  ∧ diningAt (handle (ext := demoExternals)
                (PutDining "alice" "d1" (Some "2024-05-01")
                   (Some "2024-05-01T18:30:00-07:00") None (Some 15%Z)) stDining).1
             "alice" "2024-05-01" 0
    = Some (editDining (Some "2024-05-01T18:30:00-07:00") None (Some 15%Z)
              (Dining.mk "d1" "Blue Bayou" "2024-05-01T18:00:00-07:00" "dinner" 20 true))
  ∧ editDining (Some "2024-05-01T18:30:00-07:00") None (Some 15%Z)
      (Dining.mk "d1" "Blue Bayou" "2024-05-01T18:00:00-07:00" "dinner" 20 true)
    = Dining.mk "d1" "Blue Bayou" "2024-05-01T18:30:00-07:00" "dinner" 15 false.
Proof.
  assert (Hdate : "2024-05-01" ≠ "") by discriminate.
  destruct (update_resets_notified (ext := demoExternals) stDining "alice" "2024-05-01" Hdate
              eq_refl eq_refl) as (Hput & _ & _).
  destruct (Hput "d1" (Some "2024-05-01T18:30:00-07:00") None (Some 15%Z)
              [Dining.mk "d1" "Blue Bayou" "2024-05-01T18:00:00-07:00" "dinner" 20 true]
              0 (Dining.mk "d1" "Blue Bayou" "2024-05-01T18:00:00-07:00" "dinner" 20 true))
    as (Hstatus & Hat & Hrecord & _).
  - reflexivity.
  - reflexivity.
  - reflexivity.
  - intros j d0 Hj. lia.
  - split; [exact Hstatus|]. split; [exact Hat | exact Hrecord].
Defined.

(** * Further properties of the server *)

(** ** The routes: answers and device registration *)

Lemma given_Some (field : option string) (s : string) :
  given field = Some s ↔ field = Some s ∧ s ≠ "".
Proof.
  unfold given, truthy. destruct field as [x|].
  - destruct (String.eqb_spec x "") as [->|Hne]; simpl.
    + split; [discriminate | intros [[= <-] Hne]; by destruct Hne].
    + split; [intros [= <-]; done | intros [[= <-] _]; done].
  - split; [discriminate | intros [? _]; discriminate].
Qed.

Lemma keep_filter {A : Type} (p : A → bool) (l : list A) :
  keep p l = filter (λ x, p x = true) l.
Proof.
  induction l as [|x l IH]; simpl; [done|]. rewrite filter_cons.
  destruct (p x); [rewrite decide_True | rewrite decide_False]; congruence.
Qed.

Lemma filter_all {A : Type} (P : A → Prop) `{!∀ x, Decision (P x)} (l : list A) :
  (∀ x, x ∈ l → P x) → filter P l = l.
Proof.
  induction l as [|x l IH]; intros Hall; [done|].
  rewrite filter_cons_True by (apply Hall; left).
  f_equal. apply IH. intros y Hy. apply Hall. by right.
Qed.

Section DeviceRoutes.
Context {ext : Externals}.

(** X1.  Each of the eleven routes under [/api/users] that write a store,
    served for keys that are no names of [Object.prototype], answers with
    status 200, 400 or 404, and a request that is not answered with 200
    leaves every store as it was: these routes validate before they
    write. *)
Theorem refused_request_changes_nothing (r : Request) (st : State) :
  plainRequest r = true →
  ((handle r st).2 = 200 ∨ (handle r st).2 = 400 ∨ (handle r st).2 = 404)
  ∧ ((handle r st).2 ≠ 200 → (handle r st).1 = st).
Proof.
  intros _. destruct r; simpl; repeat case_match; simpl; split; auto; try done.
Qed.



End DeviceRoutes.

Lemma refused_request_changes_nothing_witness :
  (handle (ext := demoExternals) (PostRegisterDevice "alice" (Some "not a token")) stR1).2 ≠ 200
  ∧ (handle (ext := demoExternals) (PostRegisterDevice "alice" (Some "not a token")) stR1).1
    = stR1.
Proof.
  assert (H : (handle (ext := demoExternals)
                 (PostRegisterDevice "alice" (Some "not a token")) stR1).2 ≠ 200)
    by (vm_compute; discriminate).
  split; [exact H|].
  exact (proj2 (refused_request_changes_nothing (ext := demoExternals)
                  (PostRegisterDevice "alice" (Some "not a token")) stR1 eq_refl) H).
Defined.



(** ** The routes: shows *)

Section ShowRoutes.
Context {ext : Externals}.

(** X4.  Adding a show, for a user id and a date that are no names of
    [Object.prototype], is answered with 200 exactly when date, show id,
    name and time are given and non-empty and a travel time is given.  The show is
    then appended, with both flags false, after the shows the user already
    has for the date (a show id that is already there is not replaced);
    no other user or date changes. *)
Theorem post_show_appends (st : State) (userId : string)
    (date showId showName selectedTime : option string) (travelTime : option Z) :
  plainRequest (PostShow userId date showId showName selectedTime travelTime) = true →
  let out := handle (PostShow userId date showId showName selectedTime travelTime) st in
  (out.2 = 200 ↔
     ∃ d i n t m, date = Some d ∧ showId = Some i ∧ showName = Some n
                  ∧ selectedTime = Some t ∧ travelTime = Some m
                  ∧ d ≠ "" ∧ i ≠ "" ∧ n ≠ "" ∧ t ≠ "")
  ∧ (∀ d i n t m,
       date = Some d → showId = Some i → showName = Some n →
       selectedTime = Some t → travelTime = Some m → out.2 = 200 →
       lookup2 (userShowSchedules out.1) userId d
       = Some (default [] (lookup2 (userShowSchedules st) userId d)
               ++ [Show.mk i n t m false false])
       ∧ (∀ u' d', ¬ (u' = userId ∧ d' = d) →
                   lookup2 (userShowSchedules out.1) u' d'
                   = lookup2 (userShowSchedules st) u' d')).
Proof.
  intros _ out. unfold out. simpl.
  destruct (given date) as [d|] eqn:Hd; [apply given_Some in Hd as [-> Hd]|];
  [destruct (given showId) as [i|] eqn:Hi; [apply given_Some in Hi as [-> Hi]|]|];
  [destruct (given showName) as [n|] eqn:Hn; [apply given_Some in Hn as [-> Hn]|]| |];
  [destruct (given selectedTime) as [t|] eqn:Ht; [apply given_Some in Ht as [-> Ht]|]| | |];
  [destruct travelTime as [m|]| | | |]; simpl.
  - split; [split; [intros _; by exists d, i, n, t, m | done]|].
    intros ????? [= <-] [= <-] [= <-] [= <-] [= <-] _. split.
    + rewrite lookup2_insert_default, decide_True by done. do 2 f_equal.
      unfold lookup2. by destruct (userShowSchedules st !! userId).
    + intros u' d' Hne. by rewrite lookup2_insert_default, decide_False.
  - split; [|intros; discriminate].
    split; [discriminate | by intros (?&?&?&?&?&_&_&_&_&?&_)].
  - split; [|intros; discriminate]. split; [discriminate|].
    intros (?&?&?&x&?&_&_&_&->&_&_&_&_&Hx).
    assert (given (Some x) = Some x) by (by apply given_Some). congruence.
  - split; [|intros; discriminate]. split; [discriminate|].
    intros (?&?&x&?&?&_&_&->&_&_&_&_&Hx&_).
    assert (given (Some x) = Some x) by (by apply given_Some). congruence.
  - split; [|intros; discriminate]. split; [discriminate|].
    intros (?&x&?&?&?&_&->&_&_&_&_&Hx&_).
    assert (given (Some x) = Some x) by (by apply given_Some). congruence.
  - split; [|intros; discriminate]. split; [discriminate|].
    intros (x&?&?&?&?&->&_&_&_&_&Hx&_).
    assert (given (Some x) = Some x) by (by apply given_Some). congruence.
Qed.

End ShowRoutes.

Lemma post_show_appends_witness :
  lookup2
    (userShowSchedules
       (handle (ext := demoExternals)
          (PostShow "alice" (Some "2024-05-01") (Some "S2") (Some "World of Color")
             (Some "2024-05-01T21:00:00-07:00") (Some 15%Z)) stShow).1)
    "alice" "2024-05-01"
  = Some ([show1400 20 true false]
          ++ [Show.mk "S2" "World of Color" "2024-05-01T21:00:00-07:00" 15 false false]).
Proof.
  exact (proj1 (proj2 (post_show_appends (ext := demoExternals) stShow "alice"
                         (Some "2024-05-01") (Some "S2") (Some "World of Color")
                         (Some "2024-05-01T21:00:00-07:00") (Some 15%Z) eq_refl)
                  "2024-05-01" "S2" "World of Color" "2024-05-01T21:00:00-07:00" 15%Z
                  eq_refl eq_refl eq_refl eq_refl eq_refl eq_refl)).
Defined.

Lemma editFirst_None {A : Type} (p : A → bool) (edit : A → A) (l : list A) :
  editFirst p edit l = None ↔ ∀ x, x ∈ l → p x = false.
Proof.
  induction l as [|x l IH]; simpl.
  - split; [by intros _ x ?%elem_of_nil | done].
  - destruct (p x) eqn:Hp.
    + split; [discriminate|]. intros Hall. specialize (Hall x (list_elem_of_here _ _)). congruence.
    + destruct (editFirst p edit l) as [l'|] eqn:Hl.
      * split; [discriminate|]. intros Hall.
        assert (Some l' = None) as Hn; [|discriminate Hn].
        apply IH. intros y Hy. apply Hall. by right.
      * split; [|done]. intros _ y [->|Hy]%elem_of_cons; [done|]. by apply IH.
Qed.

Section DiningRoutes.
Context {ext : Externals}.

(** X5.  Deleting a show with a date, for a user id and a date that are no
    names of [Object.prototype]: 404 when the user has no list for the
    date; otherwise 200, also when no show has the id, and the list of the
    date becomes the shows whose id differs, in their order (every show
    with the id goes, not only the first).  No other user or date
    changes. *)
Theorem delete_show_drops_every_match (st : State) (userId showId date : string) :
  date ≠ "" → plainKey userId = true → plainKey date = true →
  let out := handle (DeleteShow userId showId (Some date)) st in
  (lookup2 (userShowSchedules st) userId date = None → out.2 = 404)
  ∧ (∀ shows,
       lookup2 (userShowSchedules st) userId date = Some shows →
       ∃ shows',
         out.2 = 200
         ∧ lookup2 (userShowSchedules out.1) userId date = Some shows'
         ∧ (∀ s, s ∈ shows' ↔ s ∈ shows ∧ Show.showId s ≠ showId)
         ∧ sublist shows' shows
         ∧ (∀ u' d', ¬ (u' = userId ∧ d' = date) →
                     lookup2 (userShowSchedules out.1) u' d'
                     = lookup2 (userShowSchedules st) u' d')).
Proof.
  intros Hdate _ _ out. unfold out. simpl. rewrite (truthy_given date Hdate).
  unfold lookup2 at 1 2.
  destruct (userShowSchedules st !! userId) as [byDate|] eqn:Hu; simpl; [|done].
  destruct (byDate !! date) as [shows|] eqn:Hd; simpl; [|done].
  split; [done|]. intros ? [= <-]. eexists. split; [done|].
  rewrite (lookup2_insert_found _ _ _ _ _ byDate), decide_True by done.
  split; [done|]. rewrite keep_filter. split; [|split].
  - intros s. rewrite list_elem_of_filter, negb_true_iff. 
    destruct (String.eqb_spec (Show.showId s) showId) as [Heq|Hne]; simpl;
      split; intros [Hin Hid]; first [done | by split].
  - apply sublist_filter.
  - intros u' d' Hne. by rewrite (lookup2_insert_found _ _ _ _ _ byDate), decide_False.
Qed.

(** X6.  A reservation posted with complete fields, for a user id and a date
    that are no names of [Object.prototype], is appended under the id
    [generateId] returned.  When no reservation of the date had that id,
    an update with the id edits exactly the posted reservation and a
    delete with the id restores the list of before. *)
Theorem posted_dining_is_found (st : State) (userId date restaurantName time type : string)
    (travelTime : Z) (generatedId : string) :
  date ≠ "" → restaurantName ≠ "" → time ≠ "" → type ≠ "" →
  plainKey userId = true → plainKey date = true →
  let old := default [] (lookup2 (userDiningSchedules st) userId date) in
  let item := Dining.mk generatedId restaurantName time type travelTime false in
  let posted := handle (PostDining userId (Some date) (Some restaurantName) (Some time)
                          (Some type) (Some travelTime) generatedId) st in
  (∀ x, x ∈ old → Dining.id x ≠ generatedId) →
  posted.2 = 200
  ∧ lookup2 (userDiningSchedules posted.1) userId date = Some (old ++ [item])
  ∧ (∀ time' type' travelTime',
       let put := handle (PutDining userId generatedId (Some date) time' type' travelTime')
                         posted.1 in
       put.2 = 200
       ∧ lookup2 (userDiningSchedules put.1) userId date
         = Some (old ++ [editDining time' type' travelTime' item]))
  ∧ (let del := handle (DeleteDining userId generatedId (Some date)) posted.1 in
     del.2 = 200 ∧ lookup2 (userDiningSchedules del.1) userId date = Some old).
Proof.
  intros Hdate Hname Htime Htype _ _ old item posted Hfresh.
  assert (Hposted : lookup2 (userDiningSchedules posted.1) userId date = Some (old ++ [item])).
  { unfold posted. simpl. rewrite !truthy_given by done. simpl.
    rewrite lookup2_insert_default, decide_True by done. do 2 f_equal.
    unfold old, lookup2. by destruct (userDiningSchedules st !! userId). }
  assert (Hstatus : posted.2 = 200).
  { unfold posted. simpl. by rewrite !truthy_given. }
  split; [done|]. split; [done|].
  unfold lookup2 in Hposted.
  destruct (userDiningSchedules posted.1 !! userId) as [byDate|] eqn:Hu; [simpl in Hposted|done].
  split.
  - intros time' type' travelTime' put. unfold put. simpl.
    rewrite (truthy_given date Hdate), Hu, Hposted.
    rewrite (editFirst_at _ _ (old ++ [item]) (length old) item).
    + simpl. split; [done|].
      rewrite (lookup2_insert_found _ _ _ _ _ byDate), decide_True by done.
      f_equal. by rewrite insert_app_r_alt, Nat.sub_diag.
    + by rewrite lookup_app_r, Nat.sub_diag.
    + simpl. apply String.eqb_refl.
    + intros j y Hj Hy. rewrite lookup_app_l in Hy by done.
      apply String.eqb_neq, Hfresh. by eapply list_elem_of_lookup_2.
  - simpl. rewrite (truthy_given date Hdate), Hu, Hposted. simpl. split; [done|].
    rewrite (lookup2_insert_found _ _ _ _ _ byDate), decide_True by done. f_equal.
    rewrite keep_filter, filter_app, filter_cons_False, filter_nil, app_nil_r.
    + apply filter_all. intros x Hx. apply negb_true_iff, String.eqb_neq. by apply Hfresh.
    + simpl. rewrite String.eqb_refl. done.
Qed.

(** X7.  Updating a reservation of a date that has a list: 404 exactly when no
    reservation of the list has the id.  On 200 one reservation with the
    id is rewritten (the first one), the list keeps its length and every
    other position. *)
Theorem put_dining_touches_one (st : State) (userId diningId date : string)
    (time type : option string) (travelTime : option Z) (dining : list Dining.t) :
  date ≠ "" →
  lookup2 (userDiningSchedules st) userId date = Some dining →
  let out := handle (PutDining userId diningId (Some date) time type travelTime) st in
  (out.2 = 404 ↔ ∀ x, x ∈ dining → Dining.id x ≠ diningId)
  ∧ (out.2 = 200 →
     ∃ dining' i x,
       lookup2 (userDiningSchedules out.1) userId date = Some dining'
       ∧ dining !! i = Some x ∧ Dining.id x = diningId
       ∧ dining' = <[i := editDining time type travelTime x]> dining
       ∧ length dining' = length dining
       ∧ (∀ j, j ≠ i → dining' !! j = dining !! j)).
Proof.
  intros Hdate Hstore out. unfold out. simpl. rewrite (truthy_given date Hdate).
  unfold lookup2 in Hstore.
  destruct (userDiningSchedules st !! userId) as [byDate|] eqn:Hu; [simpl in Hstore|done].
  rewrite Hstore.
  destruct (editFirst _ _ dining) as [dining'|] eqn:Hedit; simpl.
  - split.
    + split; [discriminate|]. intros Hnone.
      assert (editFirst (λ d, String.eqb (Dining.id d) diningId)
                (editDining time type travelTime) dining = None) as Hn; [|congruence].
      apply editFirst_None. intros x Hx. apply String.eqb_neq. by apply Hnone.
    + intros _.
      assert (Hfound : ∃ i x, dining !! i = Some x ∧ Dining.id x = diningId
                ∧ ∀ j y, j < i → dining !! j = Some y → Dining.id y ≠ diningId).
      { clear Hstore. revert dining' Hedit.
        induction dining as [|first rest IH]; intros dining' Hedit; [done|].
        simpl in Hedit. destruct (String.eqb_spec (Dining.id first) diningId) as [Hid|Hid].
        - exists 0, first. split; [done|]. split; [done|]. intros j y Hj. lia.
        - destruct (editFirst _ _ rest) as [rest'|] eqn:Hrest; [|done].
          destruct (IH rest' eq_refl) as (i & x & Hi & Hx & Hbefore).
          exists (S i), x. split; [done|]. split; [done|].
          intros [|j] y Hj Hy; simpl in Hy.
          + by injection Hy as <-.
          + apply (Hbefore j y); [lia | done]. }
      destruct Hfound as (i & x & Hi & Hx & Hbefore).
      rewrite (editFirst_at _ _ dining i x Hi) in Hedit.
      * injection Hedit as <-. exists (<[i := editDining time type travelTime x]> dining), i, x.
        rewrite (lookup2_insert_found _ _ _ _ _ byDate), decide_True by done.
        split; [done|]. split; [done|]. split; [done|]. split; [done|].
        split; [apply length_insert|]. intros j Hj. by apply list_lookup_insert_ne.
      * by apply String.eqb_eq.
      * intros j y Hj Hy. apply String.eqb_neq. by apply (Hbefore j).
  - split; [|discriminate]. split; [|done]. intros _ x Hx.
    apply String.eqb_neq. by apply (proj1 (editFirst_None _ _ _) Hedit).
Qed.

End DiningRoutes.

Lemma delete_show_drops_every_match_witness :
  ∃ shows',
    (handle (ext := demoExternals) (DeleteShow "alice" "S1" (Some "2024-05-01")) stShow).2 = 200
    ∧ lookup2
        (userShowSchedules
           (handle (ext := demoExternals) (DeleteShow "alice" "S1" (Some "2024-05-01")) stShow).1)
        "alice" "2024-05-01" = Some shows'
    ∧ ∀ s, s ∈ shows' ↔ s ∈ [show1400 20 true false] ∧ Show.showId s ≠ "S1".
Proof.
  assert (Hdate : "2024-05-01" ≠ "") by discriminate.
  destruct (proj2 (delete_show_drops_every_match (ext := demoExternals)
                     stShow "alice" "S1" "2024-05-01" Hdate eq_refl eq_refl)
              [show1400 20 true false] eq_refl) as (shows' & Hstatus & Hstore & Hin & _).
  exists shows'. split; [exact Hstatus|]. split; [exact Hstore | exact Hin].
Defined.

Lemma posted_dining_is_found_witness :
  let posted :=
    handle (ext := demoExternals)
      (PostDining "alice" (Some "2024-05-01") (Some "Oga's Cantina")
         (Some "2024-05-01T20:00:00-07:00") (Some "drinks") (Some 10%Z) "d2") stDining in
  posted.2 = 200
  ∧ (handle (ext := demoExternals) (DeleteDining "alice" "d2" (Some "2024-05-01")) posted.1).2
    = 200
  ∧ lookup2
      (userDiningSchedules
         (handle (ext := demoExternals) (DeleteDining "alice" "d2" (Some "2024-05-01"))
            posted.1).1) "alice" "2024-05-01"
    = Some [Dining.mk "d1" "Blue Bayou" "2024-05-01T18:00:00-07:00" "dinner" 20 true].
Proof.
  assert (Hdate : "2024-05-01" ≠ "") by discriminate.
  assert (Hname : "Oga's Cantina" ≠ "") by discriminate.
  assert (Htime : "2024-05-01T20:00:00-07:00" ≠ "") by discriminate.
  assert (Htype : "drinks" ≠ "") by discriminate.
  assert (Hfresh : ∀ x,
            x ∈ default [] (lookup2 (userDiningSchedules stDining) "alice" "2024-05-01") →
            Dining.id x ≠ "d2").
  { intros x Hx. apply list_elem_of_singleton in Hx. subst x. discriminate. }
  destruct (posted_dining_is_found (ext := demoExternals) stDining "alice" "2024-05-01"
              "Oga's Cantina" "2024-05-01T20:00:00-07:00" "drinks" 10%Z "d2"
              Hdate Hname Htime Htype eq_refl eq_refl Hfresh)
    as (Hposted & _ & _ & Hdel & Hstore).
  split; [exact Hposted|]. split; [exact Hdel | exact Hstore].
Defined.

Lemma put_dining_touches_one_witness :
  (handle (ext := demoExternals)
     (PutDining "alice" "d9" (Some "2024-05-01") None None (Some 15%Z)) stDining).2 = 404.
Proof.
  assert (Hdate : "2024-05-01" ≠ "") by discriminate.
  apply (proj1 (put_dining_touches_one (ext := demoExternals) stDining "alice" "d9" "2024-05-01"
                  None None (Some 15%Z)
                  [Dining.mk "d1" "Blue Bayou" "2024-05-01T18:00:00-07:00" "dinner" 20 true]
                  Hdate eq_refl)).
  intros x Hx. apply list_elem_of_singleton in Hx. subst x. discriminate.
Defined.

(** ** The routes: Lightning Lanes, archives, and who writes what *)

Section LaneRoutes.
Context {ext : Externals}.


(** X9.  Deleting the Lightning Lane of a ride that has none, for a date that
    has Lightning Lanes, is answered with 200 and changes nothing. *)
Theorem delete_absent_lane_is_noop (st : State) (userId rideId date : string)
    (lanes : gmap string Lane.t) :
  date ≠ "" →
  lookup2 (userLightningLanes st) userId date = Some lanes →
  lanes !! rideId = None →
  handle (DeleteLightningLane userId rideId (Some date)) st = (st, 200).
Proof.
  intros Hdate Hstore Habsent. simpl. rewrite (truthy_given date Hdate).
  unfold lookup2 in Hstore.
  destruct (userLightningLanes st !! userId) as [byDate|] eqn:Hu; [simpl in Hstore|done].
  rewrite Hstore. f_equal.
  rewrite (delete_id _ _ Habsent), (insert_id byDate date lanes Hstore),
    (insert_id _ userId byDate Hu).
  by destruct st.
Qed.

(** X10.  Deleting an archived date, for a user id and a date that are no
    names of [Object.prototype]: 404 and no change when the user has no
    archive for the date; otherwise 200, that archive is gone, every other
    archive stays, and the live schedules are untouched (nothing is
    restored). *)
Theorem delete_archive_removes_date (st : State) (userId date : string) :
  plainKey userId = true → plainKey date = true →
  let out := handle (DeleteArchive userId date) st in
  (lookup2 (archivedSchedules st) userId date = None → out = (st, 404))
  ∧ (is_Some (lookup2 (archivedSchedules st) userId date) →
     out.2 = 200
     ∧ lookup2 (archivedSchedules out.1) userId date = None
     ∧ (∀ u d, ¬ (u = userId ∧ d = date) →
               lookup2 (archivedSchedules out.1) u d = lookup2 (archivedSchedules st) u d)
     ∧ liveWithin st out.1 ∧ liveWithin out.1 st).
Proof.
  intros _ _ out. unfold out. simpl.
  destruct (lookup2 (archivedSchedules st) userId date) as [a|] eqn:Ha; simpl.
  - split; [discriminate|]. intros _. split; [done|]. split; [|split; [|split]].
    + by rewrite lookup2_alter_delete, decide_True.
    + intros u d Hne. by rewrite lookup2_alter_delete, decide_False.
    + unfold liveWithin. simpl. auto.
    + unfold liveWithin. simpl. auto.
  - split; [done|]. by intros [? ?].
Qed.

(** X11.  Of the eleven routes under [/api/users] that write a store, served
    for keys that are no names of [Object.prototype], none writes the park
    snapshot, and every other store is written only by the routes of its
    kind: the preferences by the preferences route, the tokens and the
    notified rides by register and unregister, each schedule store by the
    routes of its schedule, the archives by the archive delete.  (The two
    routes that run the jobs, [/api/refresh] and
    [/api/debug/check-notifications], are no such routes.) *)
Theorem routes_write_their_own_store (r : Request) (st : State) :
  plainRequest r = true →
  let st' := (handle r st).1 in
  parkDataCache st' = parkDataCache st
  ∧ ((∃ u p, r = PostPreferences u p) ∨ userPreferences st' = userPreferences st)
  ∧ ((∃ u t, r = PostRegisterDevice u t) ∨ (∃ u, r = PostUnregisterDevice u)
     ∨ (userDeviceTokens st' = userDeviceTokens st ∧ notifiedRides st' = notifiedRides st))
  ∧ ((∃ u d i n t m, r = PostShow u d i n t m) ∨ (∃ u i d, r = DeleteShow u i d)
     ∨ userShowSchedules st' = userShowSchedules st)
  ∧ ((∃ u d n t y m g, r = PostDining u d n t y m g)
     ∨ (∃ u i d t y m, r = PutDining u i d t y m) ∨ (∃ u i d, r = DeleteDining u i d)
     ∨ userDiningSchedules st' = userDiningSchedules st)
  ∧ ((∃ u d i n t m, r = PostLightningLane u d i n t m)
     ∨ (∃ u i d, r = DeleteLightningLane u i d)
     ∨ userLightningLanes st' = userLightningLanes st)
  ∧ ((∃ u d, r = DeleteArchive u d) ∨ archivedSchedules st' = archivedSchedules st).
Proof.
  intros _ st'. unfold st'.
  destruct r; simpl; repeat case_match; simpl;
    (split; [done|]); repeat split; eauto 12.
Qed.

End LaneRoutes.


Lemma delete_absent_lane_is_noop_witness :
  handle (ext := demoExternals) (DeleteLightningLane "alice" "R7" (Some "2024-04-30"))
    stDiningOnly
  = (stDiningOnly, 200).
Proof.
  assert (Hdate : "2024-04-30" ≠ "") by discriminate.
  exact (delete_absent_lane_is_noop (ext := demoExternals) stDiningOnly "alice" "R7" "2024-04-30"
           {[ "R1" := lane0430 ]} Hdate eq_refl eq_refl).
Defined.

Lemma delete_archive_removes_date_witness :
  (handle (ext := demoExternals) (DeleteArchive "alice" "2024-05-02")
     (autoArchivePastDates "2024-05-03" stDiningOnly)).2 = 200
  ∧ lookup2
      (archivedSchedules
         (handle (ext := demoExternals) (DeleteArchive "alice" "2024-05-02")
            (autoArchivePastDates "2024-05-03" stDiningOnly)).1) "alice" "2024-05-02" = None.
Proof.
  assert (Harchived : is_Some (lookup2 (archivedSchedules
                                 (autoArchivePastDates "2024-05-03" stDiningOnly))
                                 "alice" "2024-05-02")).
  { eexists. vm_compute. reflexivity. }
  destruct (proj2 (delete_archive_removes_date (ext := demoExternals)
                     (autoArchivePastDates "2024-05-03" stDiningOnly) "alice" "2024-05-02"
                     eq_refl eq_refl)
              Harchived) as (Hstatus & Hgone & _).
  split; [exact Hstatus | exact Hgone].
Defined.

(** Adding a show writes no token and no reservation. *)
Lemma routes_write_their_own_store_witness :
  userDeviceTokens
    (handle (ext := demoExternals)
       (PostShow "alice" (Some "2024-05-01") (Some "S2") (Some "World of Color")
          (Some "2024-05-01T21:00:00-07:00") (Some 15%Z)) stDining).1
  = userDeviceTokens stDining
  ∧ userDiningSchedules
      (handle (ext := demoExternals)
         (PostShow "alice" (Some "2024-05-01") (Some "S2") (Some "World of Color")
            (Some "2024-05-01T21:00:00-07:00") (Some 15%Z)) stDining).1
    = userDiningSchedules stDining.
Proof.
  destruct (routes_write_their_own_store (ext := demoExternals)
              (PostShow "alice" (Some "2024-05-01") (Some "S2") (Some "World of Color")
                 (Some "2024-05-01T21:00:00-07:00") (Some 15%Z)) stDining eq_refl)
    as (_ & _ & Htokens & _ & Hdining & _).
  split.
  - destruct Htokens as [(u & t & Hr) | [(u & Hr) | [Hsame _]]];
      [discriminate Hr | discriminate Hr | exact Hsame].
  - destruct Hdining as [(u & d & n & t & y & m & g & Hr)
                        | [(u & i & d & t & y & m & Hr) | [(u & i & d & Hr) | Hsame]]];
      [discriminate Hr | discriminate Hr | discriminate Hr | exact Hsame].
Defined.

(** ** The dispatcher and the token store *)

Lemma removeToken_subset (token : string) (tokens : gmap string string) (u t : string) :
  removeToken token tokens !! u = Some t → tokens !! u = Some t ∧ t ≠ token.
Proof.
  rewrite removeToken_lookup. destruct (tokens !! u) as [x|]; [|done].
  destruct (String.eqb_spec x token); [done|]. by intros [= <-].
Qed.

Lemma removeToken_spares (token : string) (tokens : gmap string string) (u t : string) :
  tokens !! u = Some t → t ≠ token → removeToken token tokens !! u = Some t.
Proof.
  intros Hu Hne. rewrite removeToken_lookup, Hu. by destruct (String.eqb_spec t token).
Qed.

Lemma forEachTicket_subset (chunk : list Message.t) (tickets : list Ticket.t) (u t : string) :
  ∀ index tokens, forEachTicket chunk tickets index tokens !! u = Some t →
                  tokens !! u = Some t.
Proof.
  induction tickets as [|ticket rest IH]; intros index tokens; simpl; [done|].
  destruct (deviceNotRegistered ticket); [|apply IH].
  destruct (chunk !! index) as [message|]; [|done].
  intros Hu%IH. by apply removeToken_subset in Hu as [? _].
Qed.

Lemma forEachTicket_spares (chunk : list Message.t) (tickets : list Ticket.t) (u t : string) :
  (∀ m, m ∈ chunk → Message.to m ≠ t) →
  ∀ index tokens, tokens !! u = Some t →
                  forEachTicket chunk tickets index tokens !! u = Some t.
Proof.
  intros Hchunk. induction tickets as [|ticket rest IH]; intros index tokens Hu; simpl; [done|].
  destruct (deviceNotRegistered ticket); [|by apply IH].
  destruct (chunk !! index) as [message|] eqn:Hm; [|done].
  apply IH, removeToken_spares; [done|]. intros ->.
  by apply (Hchunk message); [eapply list_elem_of_lookup_2|].
Qed.

Lemma forEachTicket_all_delivered (chunk : list Message.t) (tickets : list Ticket.t) :
  (∀ ticket, ticket ∈ tickets → deviceNotRegistered ticket = false) →
  ∀ index tokens, forEachTicket chunk tickets index tokens = tokens.
Proof.
  induction tickets as [|ticket rest IH]; intros Hok index tokens; simpl; [done|].
  rewrite (Hok ticket) by left. apply IH. intros x Hx. apply Hok. by right.
Qed.

Section DispatchFacts.
Context {ext : Externals}.

Lemma sendChunks_subset (chunks : list (list Message.t)) (u t : string) :
  ∀ call tokens, (sendChunks call chunks tokens).1 !! u = Some t → tokens !! u = Some t.
Proof.
  induction chunks as [|chunk rest IH]; intros call tokens; simpl; [done|].
  intros Hu%IH. destruct (sendPushNotificationsAsync call chunk); [|done].
  by apply forEachTicket_subset in Hu.
Qed.

Lemma sendChunks_spares (chunks : list (list Message.t)) (u t : string) :
  (∀ chunk m, chunk ∈ chunks → m ∈ chunk → Message.to m ≠ t) →
  ∀ call tokens, tokens !! u = Some t → (sendChunks call chunks tokens).1 !! u = Some t.
Proof.
  induction chunks as [|chunk rest IH]; intros Hto call tokens Hu; simpl; [done|].
  apply IH; [intros c m Hc; apply Hto; by right|].
  destruct (sendPushNotificationsAsync call chunk); [|done].
  apply forEachTicket_spares; [|done]. intros m. apply Hto. left.
Qed.

Lemma sendChunks_all_delivered (chunks : list (list Message.t)) :
  (∀ call chunk tickets ticket,
     sendPushNotificationsAsync call chunk = Some tickets → ticket ∈ tickets →
     deviceNotRegistered ticket = false) →
  ∀ call tokens, (sendChunks call chunks tokens).1 = tokens.
Proof.
  intros Hok. induction chunks as [|chunk rest IH]; intros call tokens; simpl; [done|].
  rewrite IH. destruct (sendPushNotificationsAsync call chunk) as [tickets|] eqn:Hsend; [|done].
  apply forEachTicket_all_delivered. intros ticket. by apply (Hok call chunk).
Qed.

Lemma dispatch_subset (messages : list Message.t) (st : State) (u t : string) :
  userDeviceTokens (after (dispatch messages st)) !! u = Some t →
  userDeviceTokens st !! u = Some t.
Proof.
  unfold dispatch, sendPushNotifications. simpl.
  destruct (length messages =? 0)%nat; simpl; [done|]. apply sendChunks_subset.
Qed.

(** X12.  The dispatcher changes nothing but the token store, and there it only
    removes: every token stored afterwards was stored before with the same
    user, and the token of a user stays when no submitted message was
    addressed to it.  With no message to send nothing is submitted and the
    state is unchanged. *)
Theorem dispatch_only_unregisters (messages : list Message.t) (st : State) :
  let out := dispatch messages st in
  (∀ u t, userDeviceTokens (after out) !! u = Some t → userDeviceTokens st !! u = Some t)
  ∧ (∀ u t, userDeviceTokens st !! u = Some t →
            (∀ chunk m, chunk ∈ submitted out → m ∈ chunk → Message.to m ≠ t) →
            userDeviceTokens (after out) !! u = Some t)
  ∧ after out = setUserDeviceTokens (userDeviceTokens (after out)) st
  ∧ (messages = [] → after out = st ∧ submitted out = []).
Proof.
  intros out. split; [|split; [|split]].
  - intros u t. apply dispatch_subset.
  - intros u t Hu. unfold out, dispatch, sendPushNotifications. simpl.
    destruct (length messages =? 0)%nat; simpl; [done|]. intros Hto.
    apply sendChunks_spares; [|done]. intros chunk m Hc. apply Hto.
    by rewrite sendChunks_submitted.
  - done.
  - intros ->. unfold out, dispatch. simpl. split; [by destruct st | done].
Qed.

(** X13.  When no ticket the gateway returns is a DeviceNotRegistered error, a
    dispatch leaves the state as it was, whatever else the tickets
    report. *)
Theorem dispatch_without_dead_tokens (messages : list Message.t) (st : State) :
  (∀ call chunk tickets ticket,
     sendPushNotificationsAsync call chunk = Some tickets → ticket ∈ tickets →
     deviceNotRegistered ticket = false) →
  after (dispatch messages st) = st.
Proof.
  intros Hok. unfold dispatch, sendPushNotifications. simpl.
  destruct (length messages =? 0)%nat; simpl; [by destruct st|].
  rewrite (sendChunks_all_delivered _ Hok). by destruct st.
Qed.

End DispatchFacts.

Lemma dispatch_only_unregisters_witness :
  userDeviceTokens (after (dispatch (ext := demoExternals)
                             [plainMessage tokenB; plainMessage tokenB] stTokens)) !! "alice"
  = Some tokenA.
Proof.
  destruct (dispatch_only_unregisters (ext := demoExternals)
              [plainMessage tokenB; plainMessage tokenB] stTokens) as (_ & Hkept & _).
  apply Hkept; [reflexivity|].
  intros chunk m Hchunk Hm. vm_compute in Hchunk.
  repeat (apply elem_of_cons in Hchunk as [->|Hchunk]);
    try (by apply elem_of_nil in Hchunk);
    repeat (apply elem_of_cons in Hm as [->|Hm]); try (by apply elem_of_nil in Hm);
    discriminate.
Defined.

Lemma dispatch_without_dead_tokens_witness :
  after (dispatch (ext := okExternals) [plainMessage tokenA; plainMessage tokenB] stTokens)
  = stTokens.
Proof.
  apply (dispatch_without_dead_tokens (ext := okExternals)).
  intros call chunk tickets ticket Hsent Hin. simpl in Hsent. injection Hsent as <-.
  apply list_elem_of_fmap in Hin as (m & -> & _). reflexivity.
Defined.

(** ** The ride check as a whole *)

Lemma bind_all_nil {A B : Type} (f : A → list B) (l : list A) :
  (∀ x, x ∈ l → f x = []) → l ≫= f = [].
Proof.
  induction l as [|x l IH]; intros Hall; csimpl; [done|].
  rewrite (Hall x) by left. apply IH. intros y Hy. apply Hall. by right.
Qed.





Section CycleFacts.
Context {ext : Externals}.

Lemma notifyUser_step (st : State) (msgs : list Message.t) (nr : gmap string (gset string))
    (user : string) (prefs : gmap string Pref.t) :
  notifyUser (msgs, setNotifiedRides nr st) (user, prefs)
  = match pushTokenOf (userDeviceTokens st) user with
    | None => (msgs, setNotifiedRides nr st)
    | Some token =>
        (msgs ++ rideMessages token
                   (evaluate prefs (parkDataCache st) (default ∅ (nr !! user))).1,
         setNotifiedRides
           (<[user := (evaluate prefs (parkDataCache st) (default ∅ (nr !! user))).2]> nr) st)
    end.
Proof. unfold notifyUser. simpl. by destruct (pushTokenOf (userDeviceTokens st) user). Qed.

Lemma notifyUser_foldl_queue (st : State) (l : list (string * gmap string Pref.t)) :
  NoDup l.*1 →
  ∀ (msgs : list Message.t) (nr : gmap string (gset string)),
    (∀ u, u ∈ l.*1 → nr !! u = notifiedRides st !! u) →
    (foldl notifyUser (msgs, setNotifiedRides nr st) l).1 = msgs ++ (l ≫= messagesFor st).
Proof.
  induction l as [|[user prefs] l IH]; intros Hnd msgs nr Hnr; csimpl.
  - by rewrite app_nil_r.
  - apply NoDup_cons in Hnd as [Hfresh Hnd]. simpl in Hfresh.
    rewrite notifyUser_step. unfold messagesFor at 1. simpl.
    rewrite (Hnr user) by left.
    destruct (pushTokenOf (userDeviceTokens st) user) as [token|]; simpl.
    + rewrite IH, app_assoc; [done|done|].
      intros u Hu. rewrite lookup_insert_ne by (intros ->; done).
      apply Hnr. by right.
    + rewrite IH; [done|done|]. intros u Hu. apply Hnr. by right.
Qed.

Lemma cycle_queue_eq (st : State) :
  queued (checkAndNotifyUsers st) = map_to_list (userPreferences st) ≫= messagesFor st.
Proof.
  unfold checkAndNotifyUsers, dispatch. simpl.
  pose proof (notifyUser_foldl_queue st (map_to_list (userPreferences st))
                (NoDup_fst_map_to_list _) [] (notifiedRides st) (λ _ _, eq_refl)) as Hq.
  by rewrite setNotifiedRides_same in Hq.
Qed.





Lemma pushTokenOf_subset (tokens tokens' : gmap string string) (u token : string) :
  (∀ t, tokens' !! u = Some t → tokens !! u = Some t) →
  pushTokenOf tokens' u = Some token → pushTokenOf tokens u = Some token.
Proof.
  intros Hsub (Hu & Hne & Hvalid)%pushTokenOf_usable. apply pushTokenOf_usable. auto.
Qed.

Lemma checkAndNotifyUsers_frame (st : State) :
  parkDataCache (after (checkAndNotifyUsers st)) = parkDataCache st
  ∧ userPreferences (after (checkAndNotifyUsers st)) = userPreferences st
  ∧ archivedSchedules (after (checkAndNotifyUsers st)) = archivedSchedules st.
Proof.
  unfold checkAndNotifyUsers, dispatch. simpl.
  destruct (checkAndNotifyUsers_loop st) as (nr' & -> & _). done.
Qed.

Lemma checkAndNotifyUsers_tokens (st : State) (u t : string) :
  userDeviceTokens (after (checkAndNotifyUsers st)) !! u = Some t →
  userDeviceTokens st !! u = Some t.
Proof.
  unfold checkAndNotifyUsers. intros Hu%dispatch_subset.
  destruct (checkAndNotifyUsers_loop st) as (nr' & Heq & _). by rewrite Heq in Hu.
Qed.

Lemma checkAndNotifyUsers_notified (st : State) (u : string) (prefs : gmap string Pref.t) :
  userPreferences st !! u = Some prefs →
  is_Some (pushTokenOf (userDeviceTokens st) u) →
  notifiedRides (after (checkAndNotifyUsers st)) !! u
  = Some (scanParks prefs (parkDataCache st)).2.
Proof.
  intros Hp Ht. unfold checkAndNotifyUsers. rewrite dispatch_notifiedRides.
  destruct (checkAndNotifyUsers_loop st) as (nr' & -> & _ & _ & Hdone & _). simpl.
  by apply Hdone.
Qed.

(** X15.  A ride check that follows a ride check on the same snapshot and
    preferences queues no message: every ride that is ready was recorded
    by the first. *)
Theorem second_cycle_is_silent (st : State) :
  queued (checkAndNotifyUsers (after (checkAndNotifyUsers st))) = [].
Proof.
  rewrite cycle_queue_eq.
  destruct (checkAndNotifyUsers_frame st) as (Hcache & Hprefs & _).
  apply bind_all_nil. intros [u prefs] Hin%elem_of_map_to_list.
  rewrite Hprefs in Hin. unfold messagesFor. cbn [fst snd].
  destruct (pushTokenOf (userDeviceTokens (after (checkAndNotifyUsers st))) u)
    as [token|] eqn:Htoken; [|done].
  apply (pushTokenOf_subset (userDeviceTokens st)) in Htoken;
    [|intros t; apply checkAndNotifyUsers_tokens].
  rewrite Hcache, (checkAndNotifyUsers_notified st u prefs Hin) by eauto. simpl.
  unfold evaluate, newReadyRides. simpl.
  destruct (filter _ _) as [|r rest] eqn:Hnew; [done|exfalso].
  assert (Hr : r ∈ r :: rest) by left. rewrite <- Hnew in Hr.
  apply list_elem_of_filter in Hr as [Hnot Hr]. apply Hnot.
  rewrite scanParks_eq in Hr |- *. simpl in *.
  unfold idsOf. apply elem_of_list_to_set, list_elem_of_fmap. by exists r.
Qed.

(** X16.  A ride check leaves the snapshot, the preferences and the archives as
    they were; it adds no token; and it leaves the notified set of a user
    without preferences untouched. *)
Theorem cycle_writes_notified_and_tokens (st : State) :
  let st' := after (checkAndNotifyUsers st) in
  parkDataCache st' = parkDataCache st
  ∧ userPreferences st' = userPreferences st
  ∧ archivedSchedules st' = archivedSchedules st
  ∧ (∀ u t, userDeviceTokens st' !! u = Some t → userDeviceTokens st !! u = Some t)
  ∧ (∀ u, userPreferences st !! u = None → notifiedRides st' !! u = notifiedRides st !! u).
Proof.
  intros st'. destruct (checkAndNotifyUsers_frame st) as (Hcache & Hprefs & Harch).
  split; [done|]. split; [done|]. split; [done|]. split.
  - intros u t. apply checkAndNotifyUsers_tokens.
  - intros u Hu. unfold st', checkAndNotifyUsers. rewrite dispatch_notifiedRides.
    destruct (checkAndNotifyUsers_loop st) as (nr' & -> & Hnone & _). simpl. by apply Hnone.
Qed.

End CycleFacts.


Lemma cycle_writes_notified_and_tokens_witness :
  notifiedRides (after (checkAndNotifyUsers (ext := demoExternals) stR1)) !! "carol"
  = notifiedRides stR1 !! "carol".
Proof.
  destruct (cycle_writes_notified_and_tokens (ext := demoExternals) stR1)
    as (_ & _ & _ & _ & Hother).
  apply Hother. reflexivity.
Defined.

(** ** Reminders of reservations and Lightning Lanes *)

Section ReminderFacts.
Context {ext : Externals}.

Lemma fires_iff (reminderTime now : Z) (notified : bool) :
  reached now (newDate reminderTime) && negb notified = true ↔
  due now reminderTime ∧ notified = false.
Proof. by rewrite andb_true_iff, reached_due, negb_true_iff. Qed.

(** X17.  A reservation whose time does not parse is skipped.  Otherwise, with
    [reminderTime] its time minus [travelTime] minutes, built as a date,
    the reminder is emitted exactly when [reminderTime] is a date that
    [now] has reached ([due]: within the range of [Date], and
    [reminderTime <= now]) and [notified] was false, and [notified] is set
    with it; a [reminderTime] outside the range of [Date] never fires.
    [notified] is true afterwards exactly when it was true or the
    threshold is reached, and checking the resulting reservation again at
    the same instant emits nothing.  There is one stage only (no final
    warning). *)
Theorem dining_reminder_once (now : Z) (pushToken : string) (dining : Dining.t) :
  (parseDate (Dining.time dining) = None →
   checkDining now pushToken dining = ([], dining))
  ∧ (∀ targetTime,
       parseDate (Dining.time dining) = Some targetTime →
       let reminderTime := (targetTime - Dining.travelTime dining * 60000)%Z in
       let fires := due now reminderTime ∧ Dining.notified dining = false in
       let result := checkDining now pushToken dining in
       (fires → result = ([diningReminder pushToken dining targetTime],
                          Dining.setNotified true dining))
       ∧ (¬ fires → result = ([], dining))
       ∧ (Dining.notified result.2 = true ↔
            Dining.notified dining = true ∨ due now reminderTime)
       ∧ (checkDining now pushToken result.2).1 = []
       ∧ (due now reminderTime ↔
            (- MAX_TIME ≤ reminderTime ≤ MAX_TIME)%Z ∧ (reminderTime ≤ now)%Z)).
Proof.
  split; [unfold checkDining; by intros ->|].
  intros targetTime Hparse reminderTime fires result.
  pose proof (fires_iff reminderTime now (Dining.notified dining)) as Hfires.
  unfold result, checkDining. rewrite Hparse. fold reminderTime.
  destruct (reached now (newDate reminderTime) && negb (Dining.notified dining)) eqn:Hb.
  - assert (Hf : fires) by (by apply Hfires). destruct Hf as [Hle Hn].
    split; [done|]. split; [intros Hnot; destruct Hnot; by split|]. simpl.
    split; [|split].
    + split; [by right | done].
    + unfold checkDining. simpl. rewrite Hparse. by rewrite andb_false_r.
    + unfold due. lia.
  - assert (Hf : ¬ fires) by (intros Hf%Hfires; congruence).
    split; [done|]. split; [done|]. simpl. split; [|split].
    + split; [by left|]. intros [Hn|Hle]; [done|].
      destruct (Dining.notified dining); [done|]. destruct Hf. by split.
    + unfold checkDining. rewrite Hparse. fold reminderTime. by rewrite Hb.
    + unfold due. lia.
Qed.

(** X18.  The same for a Lightning Lane and its [returnTime]: skipped when the
    time does not parse, otherwise one reminder, emitted exactly when
    [returnTime] minus [travelTime] minutes is a date that [now] has
    reached ([due]) and [notified] was false, and never again at that
    instant; a threshold outside the range of [Date] never fires. *)
Theorem lane_reminder_once (now : Z) (pushToken rideId : string) (lane : Lane.t) :
  (parseDate (Lane.returnTime lane) = None →
   checkLane now pushToken rideId lane = ([], lane))
  ∧ (∀ targetTime,
       parseDate (Lane.returnTime lane) = Some targetTime →
       let reminderTime := (targetTime - Lane.travelTime lane * 60000)%Z in
       let fires := due now reminderTime ∧ Lane.notified lane = false in
       let result := checkLane now pushToken rideId lane in
       (fires → result = ([laneReminder pushToken rideId lane targetTime],
                          Lane.setNotified lane))
       ∧ (¬ fires → result = ([], lane))
       ∧ (Lane.notified result.2 = true ↔
            Lane.notified lane = true ∨ due now reminderTime)
       ∧ (checkLane now pushToken rideId result.2).1 = []
       ∧ (due now reminderTime ↔
            (- MAX_TIME ≤ reminderTime ≤ MAX_TIME)%Z ∧ (reminderTime ≤ now)%Z)).
Proof.
  split; [unfold checkLane; by intros ->|].
  intros targetTime Hparse reminderTime fires result.
  pose proof (fires_iff reminderTime now (Lane.notified lane)) as Hfires.
  unfold result, checkLane. rewrite Hparse. fold reminderTime.
  destruct (reached now (newDate reminderTime) && negb (Lane.notified lane)) eqn:Hb.
  - assert (Hf : fires) by (by apply Hfires). destruct Hf as [Hle Hn].
    split; [done|]. split; [intros Hnot; destruct Hnot; by split|]. simpl.
    split; [|split].
    + split; [by right | done].
    + unfold checkLane. simpl. rewrite Hparse. by rewrite andb_false_r.
    + unfold due. lia.
  - assert (Hf : ¬ fires) by (intros Hf%Hfires; congruence).
    split; [done|]. split; [done|]. simpl. split; [|split].
    + split; [by left|]. intros [Hn|Hle]; [done|].
      destruct (Lane.notified lane); [done|]. destruct Hf. by split.
    + unfold checkLane. rewrite Hparse. fold reminderTime. by rewrite Hb.
    + unfold due. lia.
Qed.

End ReminderFacts.

(** The 18:00 reservation with 20 minutes of travel is reminded at 17:40; a
    travel time of 2e11 minutes puts the threshold outside the range of
    [Date] and nothing is emitted. *)
Lemma dining_reminder_once_witness :
  checkDining (ext := okExternals) 1714610400000 tokenA
    (Dining.mk "d1" "Blue Bayou" "2024-05-01T18:00:00-07:00" "dinner" 20 false)
  = ([diningReminder (ext := okExternals) tokenA
        (Dining.mk "d1" "Blue Bayou" "2024-05-01T18:00:00-07:00" "dinner" 20 false)
        1714611600000],
     Dining.mk "d1" "Blue Bayou" "2024-05-01T18:00:00-07:00" "dinner" 20 true)
  ∧ checkDining (ext := okExternals) 1714610400000 tokenA
      (Dining.mk "d1" "Blue Bayou" "2024-05-01T18:00:00-07:00" "dinner" 200000000000 false)
    = ([], Dining.mk "d1" "Blue Bayou" "2024-05-01T18:00:00-07:00" "dinner" 200000000000 false).
Proof.
  split.
  - destruct (proj2 (dining_reminder_once (ext := okExternals) 1714610400000 tokenA
                       (Dining.mk "d1" "Blue Bayou" "2024-05-01T18:00:00-07:00" "dinner" 20
                          false))
                1714611600000%Z eq_refl) as (Hfires & _).
    apply Hfires. split; [split; vm_compute; discriminate | reflexivity].
  - destruct (proj2 (dining_reminder_once (ext := okExternals) 1714610400000 tokenA
                       (Dining.mk "d1" "Blue Bayou" "2024-05-01T18:00:00-07:00" "dinner"
                          200000000000 false))
                1714611600000%Z eq_refl) as (_ & Hsilent & _).
    apply Hsilent. intros [[Hrange _] _]. vm_compute in Hrange. by apply Hrange.
Defined.

Lemma lane_reminder_once_witness :
  checkLane (ext := okExternals) 1714596600000 tokenA "R1"
    (Lane.mk "Space Mountain" "2024-05-01T14:00:00-07:00" 10 false)
  = ([laneReminder (ext := okExternals) tokenA "R1"
        (Lane.mk "Space Mountain" "2024-05-01T14:00:00-07:00" 10 false) 1714597200000],
     Lane.mk "Space Mountain" "2024-05-01T14:00:00-07:00" 10 true)
  ∧ checkLane (ext := okExternals) 1714596600000 tokenA "R1"
      (Lane.mk "Space Mountain" "2024-05-01T14:00:00-07:00" 200000000000 false)
    = ([], Lane.mk "Space Mountain" "2024-05-01T14:00:00-07:00" 200000000000 false).
Proof.
  split.
  - destruct (proj2 (lane_reminder_once (ext := okExternals) 1714596600000 tokenA "R1"
                       (Lane.mk "Space Mountain" "2024-05-01T14:00:00-07:00" 10 false))
                1714597200000%Z eq_refl) as (Hfires & _).
    apply Hfires. split; [split; vm_compute; discriminate | reflexivity].
  - destruct (proj2 (lane_reminder_once (ext := okExternals) 1714596600000 tokenA "R1"
                       (Lane.mk "Space Mountain" "2024-05-01T14:00:00-07:00" 200000000000
                          false))
                1714597200000%Z eq_refl) as (_ & Hsilent & _).
    apply Hsilent. intros [[Hrange _] _]. vm_compute in Hrange. by apply Hrange.
Defined.

(** ** The reminder check as a whole *)

Lemma nil_of_no_elem {A : Type} (l : list A) : (∀ x, x ∉ l) → l = [].
Proof. destruct l as [|x l]; [done|]. intros Hno. destruct (Hno x). left. Qed.

Lemma forEachItem_twice {A : Type} (body body' : A → list Message.t * A) (items : list A) :
  (∀ x, (body' (body x).2).1 = []) →
  (forEachItem body' (forEachItem body items).2).1 = [].
Proof.
  intros Hidem. rewrite forEachItem_messages, forEachItem_items.
  apply bind_all_nil. intros y (x & -> & _)%list_elem_of_fmap. apply Hidem.
Qed.

Lemma forEachEntry_twice {V : Type} (body body' : string → V → list Message.t * V)
    (o : gmap string V) :
  (∀ k x, (body' k (body k x).2).1 = []) →
  (forEachEntry body' (forEachEntry body o).2).1 = [].
Proof.
  intros Hidem. apply nil_of_no_elem. intros m (k & v & Hk & Hm)%forEachEntry_messages.
  rewrite forEachEntry_lookup in Hk. destruct (o !! k) as [x|]; [|done].
  injection Hk as <-. rewrite Hidem in Hm. by apply elem_of_nil in Hm.
Qed.

Section ReminderJob.
Context {ext : Externals}.

Lemma checkShow_twice (now : Z) (pushToken pushToken' : string) (show : Show.t) :
  (checkShow now pushToken' (checkShow now pushToken show).2).1 = [].
Proof.
  destruct (parseDate (Show.selectedTime show)) as [showTime|] eqn:Hparse.
  - rewrite (checkShow_eq now pushToken show showTime Hparse). simpl.
    rewrite (checkShow_eq now pushToken' _ showTime) by done. simpl.
    destruct (Show.notified show), (Show.finalWarningNotified show),
      (reached now _), (reached now _); done.
  - unfold checkShow. rewrite Hparse. simpl. by rewrite Hparse.
Qed.

Lemma checkDining_twice (now : Z) (pushToken pushToken' : string) (dining : Dining.t) :
  (checkDining now pushToken' (checkDining now pushToken dining).2).1 = [].
Proof.
  unfold checkDining.
  destruct (parseDate (Dining.time dining)) as [t|] eqn:Hparse; [|simpl; by rewrite Hparse].
  destruct (_ && _) eqn:Hb; simpl; rewrite Hparse.
  - by rewrite andb_false_r.
  - by rewrite Hb.
Qed.

Lemma checkLane_twice (now : Z) (pushToken pushToken' rideId : string) (lane : Lane.t) :
  (checkLane now pushToken' rideId (checkLane now pushToken rideId lane).2).1 = [].
Proof.
  unfold checkLane.
  destruct (parseDate (Lane.returnTime lane)) as [t|] eqn:Hparse; [|simpl; by rewrite Hparse].
  destruct (_ && _) eqn:Hb; simpl; rewrite Hparse.
  - by rewrite andb_false_r.
  - by rewrite Hb.
Qed.

Lemma remind_twice {T : Type} (checkToday checkToday' : string → T → list Message.t * T)
    (today : string) (tokens tokens' : gmap string string)
    (store : gmap string (gmap string T)) :
  (∀ u t, tokens' !! u = Some t → tokens !! u = Some t) →
  (∀ token items, (checkToday' token (checkToday token items).2).1 = []) →
  (forEachEntry (remindUser checkToday' today tokens')
     (forEachEntry (remindUser checkToday today tokens) store).2).1 = [].
Proof.
  intros Hsub Hidem. apply forEachEntry_twice. intros u byDate.
  unfold remindUser at 1.
  destruct (pushTokenOf tokens' u) as [token|] eqn:Htoken; [|done].
  apply (pushTokenOf_subset tokens) in Htoken; [|apply Hsub].
  unfold remindUser. rewrite Htoken.
  destruct (byDate !! today) as [items|] eqn:Htoday; simpl.
  - rewrite lookup_insert_eq. simpl. apply Hidem.
  - by rewrite Htoday.
Qed.

(** X19.  A reminder check that follows a reminder check at the same instant and
    date queues no message: every reminder that was due has its flag
    set. *)
Theorem second_reminder_check_is_silent (now : Z) (today : string) (st : State) :
  queued (checkEventReminders now today (after (checkEventReminders now today st))) = [].
Proof.
  assert (Hsub : ∀ u t,
    userDeviceTokens (after (checkEventReminders now today st)) !! u = Some t →
    userDeviceTokens st !! u = Some t).
  { intros u t. unfold checkEventReminders. by intros Hu%dispatch_subset. }
  unfold checkEventReminders at 1. simpl. unfold remindShows, remindDining, remindLanes.
  rewrite !remind_twice; try done.
  - intros token lanes. apply forEachEntry_twice. intros k x. apply checkLane_twice.
  - intros token items. apply forEachItem_twice. intros x. apply checkDining_twice.
  - intros token items. apply forEachItem_twice. intros x. apply checkShow_twice.
Qed.

End ReminderJob.

Section ReminderScope.
Context {ext : Externals}.

Lemma remind_messages {T : Type} (checkToday : string → T → list Message.t * T)
    (today : string) (tokens : gmap string string) (store : gmap string (gmap string T))
    (m : Message.t) :
  m ∈ (forEachEntry (remindUser checkToday today tokens) store).1 ↔
  ∃ u token items, pushTokenOf tokens u = Some token
                   ∧ lookup2 store u today = Some items
                   ∧ m ∈ (checkToday token items).1.
Proof.
  rewrite forEachEntry_messages. unfold remindUser, lookup2. split.
  - intros (u & byDate & Hu & Hm).
    destruct (pushTokenOf tokens u) as [token|] eqn:Htoken; [|by apply elem_of_nil in Hm].
    destruct (byDate !! today) as [items|] eqn:Htoday; [|by apply elem_of_nil in Hm].
    exists u, token, items. rewrite Hu. simpl. done.
  - intros (u & token & items & Htoken & Hstore & Hm).
    destruct (store !! u) as [byDate|] eqn:Hu; [simpl in Hstore|done].
    exists u, byDate. by rewrite Htoken, Hstore.
Qed.

(** X20.  The reminders a check queues are exactly those that the shows, the
    reservations and the Lightning Lanes of today's date emit for users
    with a usable token.  The schedules of every other date, and of users
    without a usable token, are left as they were, and so are the
    snapshot, the preferences, the notified rides and the archives. *)
Theorem reminders_come_from_today (now : Z) (today : string) (st : State) :
  let out := checkEventReminders now today st in
  (∀ m, m ∈ queued out ↔
        ∃ userId pushToken,
          pushTokenOf (userDeviceTokens st) userId = Some pushToken
          ∧ ((∃ shows show,
                lookup2 (userShowSchedules st) userId today = Some shows
                ∧ show ∈ shows ∧ m ∈ (checkShow now pushToken show).1)
             ∨ (∃ items dining,
                  lookup2 (userDiningSchedules st) userId today = Some items
                  ∧ dining ∈ items ∧ m ∈ (checkDining now pushToken dining).1)
             ∨ (∃ lanes rideId lane,
                  lookup2 (userLightningLanes st) userId today = Some lanes
                  ∧ lanes !! rideId = Some lane
                  ∧ m ∈ (checkLane now pushToken rideId lane).1)))
  ∧ (∀ userId date,
       date ≠ today ∨ pushTokenOf (userDeviceTokens st) userId = None →
       lookup2 (userShowSchedules (after out)) userId date
       = lookup2 (userShowSchedules st) userId date
       ∧ lookup2 (userDiningSchedules (after out)) userId date
         = lookup2 (userDiningSchedules st) userId date
       ∧ lookup2 (userLightningLanes (after out)) userId date
         = lookup2 (userLightningLanes st) userId date)
  ∧ parkDataCache (after out) = parkDataCache st
  ∧ userPreferences (after out) = userPreferences st
  ∧ notifiedRides (after out) = notifiedRides st
  ∧ archivedSchedules (after out) = archivedSchedules st.
Proof.
  intros out. split; [|split; [|done]].
  - intros m. unfold out, checkEventReminders. simpl.
    unfold remindShows, remindDining, remindLanes.
    rewrite !elem_of_app, !remind_messages. split.
    + intros [(u & token & items & Htoken & Hstore & Hm)
             |[(u & token & items & Htoken & Hstore & Hm)
              |(u & token & lanes & Htoken & Hstore & Hm)]]; exists u, token; (split; [done|]).
      * left. rewrite forEachItem_messages in Hm.
        apply list_elem_of_bind in Hm as (show & Hm & Hshow). by exists items, show.
      * right; left. rewrite forEachItem_messages in Hm.
        apply list_elem_of_bind in Hm as (dining & Hm & Hdining). by exists items, dining.
      * right; right. apply forEachEntry_messages in Hm as (rideId & lane & Hlane & Hm).
        by exists lanes, rideId, lane.
    + intros (u & token & Htoken & [(shows & show & Hstore & Hshow & Hm)
                                   |[(items & dining & Hstore & Hdining & Hm)
                                    |(lanes & rideId & lane & Hstore & Hlane & Hm)]]).
      * left. exists u, token, shows. split; [done|]. split; [done|].
        rewrite forEachItem_messages. apply list_elem_of_bind. by exists show.
      * right; left. exists u, token, items. split; [done|]. split; [done|].
        rewrite forEachItem_messages. apply list_elem_of_bind. by exists dining.
      * right; right. exists u, token, lanes. split; [done|]. split; [done|].
        apply forEachEntry_messages. by exists rideId, lane.
  - intros userId date Hscope. unfold out, checkEventReminders. simpl.
    unfold remindShows, remindDining, remindLanes. rewrite !remind_lookup2.
    destruct Hscope as [Hdate| ->]; [|done].
    destruct (pushTokenOf (userDeviceTokens st) userId); [|done].
    by rewrite !decide_False.
Qed.

End ReminderScope.

Lemma reminders_come_from_today_witness :
  lookup2 (userShowSchedules
             (after (checkEventReminders (ext := demoExternals) at1340 "2024-05-01"
                       stDiningOnly))) "alice" "2024-05-02"
  = lookup2 (userShowSchedules stDiningOnly) "alice" "2024-05-02".
Proof.
  destruct (reminders_come_from_today (ext := demoExternals) at1340 "2024-05-01" stDiningOnly)
    as (_ & Hother & _).
  destruct (Hother "alice" "2024-05-02") as (Hshows & _); [left; discriminate|].
  exact Hshows.
Defined.

(** ** The sweep as a whole *)

Lemma archiveDate_frame (today userId : string) (st : State) (entry : string * list Show.t) :
  let st' := archiveDate today userId st entry in
  parkDataCache st' = parkDataCache st ∧ userPreferences st' = userPreferences st
  ∧ userDeviceTokens st' = userDeviceTokens st ∧ notifiedRides st' = notifiedRides st.
Proof. unfold archiveDate. by destruct (String.ltb entry.1 today). Qed.

Lemma autoArchivePastDates_frame (today : string) (st : State) :
  let st' := autoArchivePastDates today st in
  parkDataCache st' = parkDataCache st ∧ userPreferences st' = userPreferences st
  ∧ userDeviceTokens st' = userDeviceTokens st ∧ notifiedRides st' = notifiedRides st.
Proof.
  unfold autoArchivePastDates. generalize (map_to_list (userShowSchedules st)). intros users.
  revert st. induction users as [|user users IH]; intros st; simpl; [done|].
  destruct (IH (archiveUser today st user)) as (-> & -> & -> & ->).
  unfold archiveUser. generalize (map_to_list user.2). intros dates. revert st.
  induction dates as [|entry dates IHd]; intros st; simpl; [done|].
  destruct (IHd (archiveDate today user.1 st entry)) as (-> & -> & -> & ->).
  apply archiveDate_frame.
Qed.

Lemma autoArchivePastDates_nothing_past (today : string) (st : State) :
  (∀ u d shows, lookup2 (userShowSchedules st) u d = Some shows →
                String.ltb d today = false) →
  autoArchivePastDates today st = st.
Proof.
  intros Hnone. unfold autoArchivePastDates.
  assert (Husers : ∀ user, user ∈ map_to_list (userShowSchedules st) →
                           archiveUser today st user = st).
  { intros [u byDate] Hu%elem_of_map_to_list. unfold archiveUser. simpl.
    assert (Hdates : ∀ entry, entry ∈ map_to_list byDate →
                              archiveDate today u st entry = st).
    { intros [d shows] Hd%elem_of_map_to_list. unfold archiveDate. simpl.
      rewrite (Hnone u d shows); [done|]. unfold lookup2. by rewrite Hu. }
    revert Hdates. generalize (map_to_list byDate). intros dates.
    induction dates as [|entry dates IH]; intros Hdates; simpl; [done|].
    rewrite (Hdates entry) by left. apply IH. intros e He. apply Hdates. by right. }
  revert Husers. generalize (map_to_list (userShowSchedules st)). intros users.
  induction users as [|user users IH]; intros Husers; simpl; [done|].
  rewrite (Husers user) by left. apply IH. intros e He. apply Husers. by right.
Qed.

Lemma autoArchivePastDates_show_dates (today : string) (st : State) (u d : string)
    (shows : list Show.t) :
  lookup2 (userShowSchedules (autoArchivePastDates today st)) u d = Some shows →
  String.ltb d today = false.
Proof.
  intros Hafter. pose proof (autoArchivePastDates_spec today st u d) as Hspec.
  destruct (lookup2 (userShowSchedules st) u d) as [shows0|] eqn:Hbefore.
  - destruct (String.ltb d today); [|done].
    destruct Hspec as (Hgone & _). congruence.
  - destruct Hspec as (Hsame & _). congruence.
Qed.

(** X21.  For a date for which the user has shows and that is before today, the
    sweep removes the date from the three live stores and archives the
    shows with the reservations and Lightning Lanes of the date.  A date
    for which the user has no shows, or that is today or later, is left as
    it is, live and archived.  The snapshot, the preferences, the tokens
    and the notified rides are untouched. *)
Theorem sweep_moves_past_show_dates (today : string) (st : State) (userId date : string) :
  let st' := autoArchivePastDates today st in
  (∀ shows, lookup2 (userShowSchedules st) userId date = Some shows →
            String.ltb date today = true → sweptAt st st' userId date shows)
  ∧ (lookup2 (userShowSchedules st) userId date = None ∨ String.ltb date today = false →
     unchangedAt st st' userId date)
  ∧ parkDataCache st' = parkDataCache st ∧ userPreferences st' = userPreferences st
  ∧ userDeviceTokens st' = userDeviceTokens st ∧ notifiedRides st' = notifiedRides st.
Proof.
  intros st'. pose proof (autoArchivePastDates_spec today st userId date) as Hspec.
  split; [|split; [|apply autoArchivePastDates_frame]].
  - intros shows Hshows Hpast. by rewrite Hshows, Hpast in Hspec.
  - intros [Hnone|Hfuture].
    + by rewrite Hnone in Hspec.
    + rewrite Hfuture in Hspec. by destruct (lookup2 (userShowSchedules st) userId date).
Qed.

Lemma sweep_moves_past_show_dates_witness :
  sweptAt stDiningOnly (autoArchivePastDates "2024-05-03" stDiningOnly) "alice" "2024-05-02"
    [Show.mk "S2" "World of Color" "2024-05-02T21:00:00-07:00" 15 false false].
Proof.
  destruct (sweep_moves_past_show_dates "2024-05-03" stDiningOnly "alice" "2024-05-02")
    as (Hswept & _).
  apply Hswept; reflexivity.
Defined.

(** X22.  Sweeping again with the same date changes nothing. *)
Theorem sweep_twice_is_sweep_once (today : string) (st : State) :
  autoArchivePastDates today (autoArchivePastDates today st) = autoArchivePastDates today st.
Proof.
  apply autoArchivePastDates_nothing_past. intros u d shows.
  apply autoArchivePastDates_show_dates.
Qed.

Section ArchiveRoute.
Context {ext : Externals}.

(** X23.  After the sweep has archived a past date of a user, deleting that
    archive is answered with 200, and the date is then in none of the
    stores, live or archived. *)
Theorem swept_then_deleted_is_gone (today : string) (st : State) (userId date : string)
    (shows : list Show.t) :
  lookup2 (userShowSchedules st) userId date = Some shows →
  String.ltb date today = true →
  let out := handle (DeleteArchive userId date) (autoArchivePastDates today st) in
  out.2 = 200
  ∧ lookup2 (userShowSchedules out.1) userId date = None
  ∧ lookup2 (userDiningSchedules out.1) userId date = None
  ∧ lookup2 (userLightningLanes out.1) userId date = None
  ∧ lookup2 (archivedSchedules out.1) userId date = None.
Proof.
  intros Hshows Hpast out.
  pose proof (autoArchivePastDates_spec today st userId date) as Hspec.
  rewrite Hshows, Hpast in Hspec. destruct Hspec as (Hs & Hd & Hl & Ha).
  unfold out. simpl. rewrite Ha. simpl.
  by rewrite lookup2_alter_delete, decide_True.
Qed.

End ArchiveRoute.

Lemma swept_then_deleted_is_gone_witness :
  (handle (ext := demoExternals) (DeleteArchive "alice" "2024-05-02")
     (autoArchivePastDates "2024-05-03" stDiningOnly)).2 = 200
  ∧ lookup2
      (userShowSchedules
         (handle (ext := demoExternals) (DeleteArchive "alice" "2024-05-02")
            (autoArchivePastDates "2024-05-03" stDiningOnly)).1) "alice" "2024-05-02" = None.
Proof.
  destruct (swept_then_deleted_is_gone (ext := demoExternals) "2024-05-03" stDiningOnly
              "alice" "2024-05-02"
              [Show.mk "S2" "World of Color" "2024-05-02T21:00:00-07:00" 15 false false]
              eq_refl eq_refl) as (Hstatus & Hshows & _).
  split; [exact Hstatus | exact Hshows].
Defined.

(** ** Objects keyed by land *)

Section Grouping.
Context {A : Type}.

Lemma entryOf_pushTo (key : string) (x : A) (o : list (string * list A)) (k : string) :
  entryOf k (pushTo key x o)
  = if decide (k = key) then Some (default [] (entryOf k o) ++ [x]) else entryOf k o.
Proof.
  induction o as [|[k0 l0] o IH]; simpl.
  - destruct (String.eqb_spec key k) as [->|Hne]; case_decide; simpl; congruence.
  - destruct (String.eqb_spec k0 key) as [->|Hne]; simpl.
    + destruct (String.eqb_spec key k) as [->|Hne]; case_decide; simpl; congruence.
    + destruct (String.eqb_spec k0 k) as [->|Hne']; [by rewrite decide_False|done].
Qed.

Lemma keys_pushTo (key : string) (x : A) (o : list (string * list A)) :
  (pushTo key x o).*1 = if decide (key ∈ o.*1) then o.*1 else o.*1 ++ [key].
Proof.
  induction o as [|[k0 l0] o IH]; [done|].
  cbn [pushTo]. destruct (String.eqb_spec k0 key) as [->|Hne]; rewrite !fmap_cons.
  - rewrite decide_True; [done | left].
  - rewrite IH. cbn [fst]. case_decide as Hin.
    + rewrite decide_True; [done | by right].
    + rewrite decide_False; [done|]. intros [?|?]%elem_of_cons; congruence.
Qed.

Lemma NoDup_pushTo (key : string) (x : A) (o : list (string * list A)) :
  NoDup o.*1 → NoDup (pushTo key x o).*1.
Proof.
  intros Hnd. rewrite keys_pushTo. case_decide as Hin; [done|].
  apply NoDup_app. split; [done|]. split; [|apply NoDup_singleton].
  intros k Hk ->%list_elem_of_singleton. done.
Qed.

Lemma allValues_pushTo (key : string) (x : A) (o : list (string * list A)) :
  allValues (pushTo key x o) ≡ₚ allValues o ++ [x].
Proof.
  unfold allValues. induction o as [|[k0 l0] o IH]; csimpl; [done|].
  destruct (String.eqb k0 key); csimpl.
  - rewrite <- !app_assoc. apply Permutation_app_head, Permutation_app_comm.
  - by rewrite IH, app_assoc.
Qed.

(** Pushing pairs one after the other groups them by key. *)
Lemma grouped (pairs : list (string * A)) :
  ∀ o : list (string * list A),
    let o' := foldl (λ acc p, pushTo p.1 p.2 acc) o pairs in
    (NoDup o.*1 → NoDup o'.*1)
    ∧ allValues o' ≡ₚ allValues o ++ (snd <$> pairs)
    ∧ (∀ k, entryOf k o'
            = match entryOf k o, valuesOf k pairs with
              | None, [] => None
              | before, added => Some (default [] before ++ added)
              end).
Proof.
  induction pairs as [|[key x] pairs IH]; intros o; simpl.
  - split; [done|]. split; [by rewrite app_nil_r|].
    intros k. unfold valuesOf. simpl. destruct (entryOf k o); simpl; [by rewrite app_nil_r|done].
  - destruct (IH (pushTo key x o)) as (Hnd & Hperm & Hget).
    split; [intros Ho; by apply Hnd, NoDup_pushTo|].
    split; [by rewrite Hperm, allValues_pushTo, <- app_assoc|].
    intros k. rewrite Hget, entryOf_pushTo. unfold valuesOf. rewrite filter_cons. simpl.
    case_decide as Hk; simpl.
    + subst k. rewrite decide_True by done. simpl.
      destruct (entryOf key o) as [l|]; simpl; rewrite <- ?app_assoc; simpl.
      all: first [done | by destruct (snd <$> filter _ pairs)].
    + rewrite decide_False by done. done.
Qed.

End Grouping.

Section Objects.
Context {A : Type}.

Lemma entryOf_keys (k : string) (o : list (string * A)) :
  is_Some (entryOf k o) ↔ k ∈ o.*1.
Proof.
  induction o as [|[k0 v0] o IH]; simpl.
  - split; [by intros [? ?] | by intros ?%elem_of_nil].
  - destruct (String.eqb_spec k0 k) as [->|Hne].
    + split; [intros _; left | by eexists].
    + rewrite IH. split; [by right|]. intros [?|?]%elem_of_cons; [congruence|done].
Qed.

Lemma entryOf_elem (k : string) (v : A) (o : list (string * A)) :
  entryOf k o = Some v → (k, v) ∈ o.
Proof.
  induction o as [|[k0 v0] o IH]; simpl; [done|].
  destruct (String.eqb_spec k0 k) as [->|Hne].
  - intros [= ->]. left.
  - intros H. right. by apply IH.
Qed.

Lemma entryOf_assign (key : string) (value : A) (o : list (string * A)) (k : string) :
  entryOf k (assign key value o) = if decide (k = key) then Some value else entryOf k o.
Proof.
  induction o as [|[k0 v0] o IH]; simpl.
  - destruct (String.eqb_spec key k) as [->|Hne]; case_decide; congruence.
  - destruct (String.eqb_spec k0 key) as [->|Hne]; simpl.
    + destruct (String.eqb_spec key k) as [->|Hne]; case_decide; congruence.
    + destruct (String.eqb_spec k0 k) as [->|Hne']; [by rewrite decide_False|done].
Qed.

Lemma keys_assign (key : string) (value : A) (o : list (string * A)) :
  key ∈ o.*1 → (assign key value o).*1 = o.*1.
Proof.
  induction o as [|[k0 v0] o IH]; [by intros ?%elem_of_nil|].
  cbn [assign]. destruct (String.eqb_spec k0 key) as [->|Hne]; rewrite !fmap_cons; [done|].
  intros [?|Hin]%elem_of_cons; [simpl in *; congruence|]. by rewrite IH.
Qed.

Lemma valuesOf_elem (k : string) (x : A) (pairs : list (string * A)) :
  x ∈ valuesOf k pairs ↔ (k, x) ∈ pairs.
Proof.
  unfold valuesOf. rewrite list_elem_of_fmap. split.
  - intros ([k' x'] & -> & [Hk Hin]%list_elem_of_filter). simpl in *. by subst.
  - intros Hin. exists (k, x). split; [done|]. by apply list_elem_of_filter.
Qed.

End Objects.

Section GroupingFresh.
Context {A : Type}.

(** Grouping pairs from the empty object. *)
Lemma grouped_fresh (pairs : list (string * A)) :
  let o := foldl (λ acc p, pushTo p.1 p.2 acc) [] pairs in
  NoDup o.*1
  ∧ allValues o ≡ₚ pairs.*2
  ∧ (∀ k, entryOf k o = match valuesOf k pairs with [] => None | l => Some l end)
  ∧ (∀ k, k ∈ o.*1 ↔ k ∈ pairs.*1).
Proof.
  destruct (grouped pairs []) as (Hnd & Hperm & Hget). cbv zeta in *.
  assert (Hget' : ∀ k, entryOf k (foldl (λ acc p, pushTo p.1 p.2 acc) [] pairs)
                       = match valuesOf k pairs with [] => None | l => Some l end).
  { intros k. rewrite Hget. simpl. by destruct (valuesOf k pairs). }
  split; [apply Hnd, NoDup_nil_2|]. split; [done|]. split; [done|].
  intros k. rewrite <- entryOf_keys, Hget'. split.
  - destruct (valuesOf k pairs) as [|x l] eqn:Hv; [by intros [? ?]|]. intros _.
    assert (Hx : x ∈ valuesOf k pairs) by (rewrite Hv; left).
    apply valuesOf_elem in Hx. apply list_elem_of_fmap. by exists (k, x).
  - intros ([k' x] & -> & Hin)%list_elem_of_fmap. simpl.
    apply valuesOf_elem in Hin. destruct (valuesOf k' pairs); [by apply elem_of_nil in Hin|by eexists].
Qed.

End GroupingFresh.

Section Provider.
Context {pf : Platform}.

Lemma organize_fold (clock : nat → Z) (landMap : list (string * string))
    (liveList : option (list Live.t)) (entities : list Entity.t) :
  ∀ (index : nat) (org : Organized.t),
    let org' := (foldl (organizeEntity clock landMap liveList) (index, org) entities).2 in
    Organized.lands org'
    = foldl (λ acc p, pushTo p.1 p.2 acc) (Organized.lands org)
        (ridesFrom clock landMap liveList index entities)
    ∧ Organized.shows org'
      = foldl (λ acc p, pushTo p.1 p.2 acc) (Organized.shows org)
          (showsFrom landMap liveList entities)
    ∧ Organized.restaurants org'
      = foldl (λ acc p, pushTo p.1 p.2 acc) (Organized.restaurants org)
          (restaurantsFrom landMap liveList entities).
Proof.
  induction entities as [|entity entities IH]; intros index org; [done|].
  cbn [foldl ridesFrom]. unfold showsFrom, restaurantsFrom. rewrite !bind_cons, !foldl_app.
  set (acc' := organizeEntity clock landMap liveList (index, org) entity).
  assert (Hacc : acc' = (S index, acc'.2)) by done.
  rewrite Hacc. destruct (IH (S index) acc'.2) as (Hl & Hs & Hr).
  cbv zeta in *. rewrite Hl, Hs, Hr. clear Hl Hs Hr IH Hacc.
  unfold acc', organizeEntity. cbn [fst snd].
  destruct (String.eqb (Entity.entityType entity) "ATTRACTION"); [done|].
  destruct (String.eqb (Entity.entityType entity) "SHOW").
  { by destruct (ParkShow.showtimes _). }
  by destruct (String.eqb (Entity.entityType entity) "RESTAURANT").
Qed.

Lemma organize_body (clock : nat → Z) (landMap : list (string * string))
    (liveList : option (list Live.t)) (entities : list Entity.t) :
  organizeParkData clock (RawParkData.mk (Some liveList) (Some (Some entities))) landMap
  = Some (Organized.mk
            (foldl (λ acc p, pushTo p.1 p.2 acc) [] (ridesFrom clock landMap liveList 0 entities))
            (foldl (λ acc p, pushTo p.1 p.2 acc) [] (showsFrom landMap liveList entities))
            (foldl (λ acc p, pushTo p.1 p.2 acc) [] (restaurantsFrom landMap liveList entities))).
Proof.
  unfold organizeParkData. simpl. f_equal.
  destruct (organize_fold clock landMap liveList entities 0 (Organized.mk [] [] []))
    as (Hl & Hs & Hr). cbv zeta in *. simpl in *.
  destruct (foldl _ _ entities).2 as [l s r]. simpl in *. by subst.
Qed.

Lemma ridesFrom_ids (clock : nat → Z) (landMap : list (string * string))
    (liveList : option (list Live.t)) (entities : list Entity.t) :
  ∀ index, (λ p, ParkRide.id p.2) <$> ridesFrom clock landMap liveList index entities
           = Entity.id <$> ofType "ATTRACTION" entities.
Proof.
  unfold ofType. induction entities as [|entity entities IH]; intros index; [done|].
  cbn [ridesFrom]. rewrite filter_cons, fmap_app, IH.
  destruct (String.eqb_spec (Entity.entityType entity) "ATTRACTION") as [Heq|Hne].
  - by rewrite decide_True.
  - by rewrite decide_False.
Qed.

End Provider.

(** ** The snapshot provider *)

Section ProviderFacts.
Context {pf : Platform}.

Lemma orElse_spec (x : option string) (fallback : string) :
  orElse x fallback = default fallback (given x).
Proof. unfold orElse. by destruct (given x). Qed.

Lemma orElse_nonempty (x : option string) (fallback : string) :
  fallback ≠ "" → orElse x fallback ≠ "".
Proof.
  intros Hf. unfold orElse, given. destruct x as [s|]; [|done].
  unfold truthy. by destruct (String.eqb_spec s "").
Qed.

Lemma rideStatus_spec (liveData : option Live.t) :
  rideStatus liveData = orElse (liveData ≫= Live.status) "CLOSED".
Proof.
  destruct liveData as [live|]; [|done]. unfold rideStatus. simpl.
  destruct (Live.status live) as [s|]; [|done].
  destruct (String.eqb_spec s "OPERATING") as [->|_]; [done|].
  destruct (String.eqb_spec s "DOWN") as [->|_]; [done|].
  destruct (String.eqb_spec s "REFURBISHMENT") as [->|_]; [done|].
  by destruct (String.eqb_spec s "CLOSED") as [->|_].
Qed.

Lemma rideStatus_is (liveData : option Live.t) (status : string) :
  status ≠ "" → status ≠ "CLOSED" →
  rideStatus liveData = status ↔ liveData ≫= Live.status = Some status.
Proof.
  intros Hne Hnc. rewrite rideStatus_spec. unfold orElse, given.
  destruct (liveData ≫= Live.status) as [s|]; [|split; congruence].
  unfold truthy. destruct (String.eqb_spec s "") as [->|Hs]; simpl; split; congruence.
Qed.

Lemma findForecast_out_of_range (forecast : list Forecast.t) (hour : Z) :
  (∀ time h, getHours time = Some h → (0 ≤ h ≤ 23)%Z) →
  (23 < hour)%Z → findForecast forecast hour = None.
Proof.
  intros Hrange Hhour. induction forecast as [|f forecast IH]; simpl; [done|].
  destruct (getHours (Forecast.time f)) as [h|] eqn:Hh; [|done].
  apply Hrange in Hh. destruct (Z.eqb_spec h hour); [lia|done].
Qed.

Lemma landOf_known (landMap : list (string * string)) (entity : Entity.t) :
  landOf landMap entity = "Other" ∨ landOf landMap entity ∈ landMap.*2.
Proof.
  unfold landOf. destruct (truthy _); [|by left].
  generalize (toLowerCase (Entity.name entity)). intros nameLower.
  induction landMap as [|[key value] landMap IH]; simpl; [by left|].
  destruct (includes nameLower key); simpl.
  - right. left.
  - destruct IH as [?|?]; [by left|right; by right].
Qed.

Lemma ridesFrom_land (clock : nat → Z) (landMap : list (string * string))
    (liveList : option (list Live.t)) (entities : list Entity.t) (p : string * ParkRide.t) :
  ∀ index, p ∈ ridesFrom clock landMap liveList index entities →
           ∃ entity, entity ∈ entities ∧ p.1 = landOf landMap entity.
Proof.
  induction entities as [|entity entities IH]; intros index; simpl; [by intros ?%elem_of_nil|].
  intros [Hin|Hin]%elem_of_app.
  - destruct (String.eqb _ _); [|by apply elem_of_nil in Hin].
    apply list_elem_of_singleton in Hin as ->. exists entity. split; [left|done].
  - destruct (IH _ Hin) as (e & He & Hp). exists e. split; [by right|done].
Qed.

Lemma showsFrom_elem (landMap : list (string * string)) (liveList : option (list Live.t))
    (entities : list Entity.t) (landName : string) (show : ParkShow.t) :
  (landName, show) ∈ showsFrom landMap liveList entities
  ↔ ∃ entity, entity ∈ entities
      ∧ Entity.entityType entity = "SHOW"
      ∧ landOf landMap entity = landName
      ∧ show = buildShow landName entity (liveList ≫= (λ l, findLive l (Entity.id entity)))
      ∧ ParkShow.showtimes show ≠ [].
Proof.
  unfold showsFrom. rewrite list_elem_of_bind. split.
  - intros (entity & Hin & He). exists entity. split; [done|].
    destruct (String.eqb_spec (Entity.entityType entity) "ATTRACTION") as [?|Hna];
      [by apply elem_of_nil in Hin|].
    destruct (String.eqb_spec (Entity.entityType entity) "SHOW") as [Hs|?];
      [|by apply elem_of_nil in Hin].
    destruct (ParkShow.showtimes _) as [|t ts] eqn:Ht; [by apply elem_of_nil in Hin|].
    apply list_elem_of_singleton in Hin. injection Hin as Hl Hshow. subst landName show.
    repeat split; [done|]. by rewrite Ht.
  - intros (entity & He & Hs & <- & -> & Ht). exists entity. split; [|done].
    destruct (String.eqb_spec (Entity.entityType entity) "ATTRACTION") as [?|_]; [congruence|].
    destruct (String.eqb_spec (Entity.entityType entity) "SHOW") as [_|?]; [|done].
    destruct (ParkShow.showtimes _); [done|left].
Qed.

Lemma restaurantsFrom_elem (landMap : list (string * string)) (liveList : option (list Live.t))
    (entities : list Entity.t) (p : string * Restaurant.t) :
  p ∈ restaurantsFrom landMap liveList entities →
  ∃ entity, entity ∈ entities ∧ p.1 = landOf landMap entity
            ∧ p.2 = buildRestaurant p.1 entity (liveList ≫= (λ l, findLive l (Entity.id entity))).
Proof.
  unfold restaurantsFrom. intros (entity & Hin & He)%list_elem_of_bind. exists entity.
  split; [done|].
  repeat (destruct (String.eqb _ _); [by apply elem_of_nil in Hin|]).
  destruct (String.eqb _ _); [|by apply elem_of_nil in Hin].
  by apply list_elem_of_singleton in Hin as ->.
Qed.

Lemma restaurantsFrom_ids (landMap : list (string * string)) (liveList : option (list Live.t))
    (entities : list Entity.t) :
  (λ p, Restaurant.id p.2) <$> restaurantsFrom landMap liveList entities
  = Entity.id <$> ofType "RESTAURANT" entities.
Proof.
  unfold ofType, restaurantsFrom. induction entities as [|entity entities IH]; [done|].
  rewrite bind_cons, filter_cons, fmap_app, IH.
  destruct (String.eqb_spec (Entity.entityType entity) "ATTRACTION") as [Heq|Hna].
  { rewrite decide_False; [done|]. by rewrite Heq. }
  destruct (String.eqb_spec (Entity.entityType entity) "SHOW") as [Heq|Hns].
  { rewrite decide_False; [done|]. by rewrite Heq. }
  destruct (String.eqb_spec (Entity.entityType entity) "RESTAURANT") as [Heq|Hnr].
  - by rewrite decide_True.
  - by rewrite decide_False.
Qed.

(** X24.  For a feed with a live body, [organizeParkData] returns, and its
    [lands] groups the rides built for the ATTRACTION entities by land:
    each land name is a key once, the rides under a land are the rides of
    that land in the order of the entities (a land without ride is no
    key), and over all lands every ATTRACTION entity has exactly one ride,
    also those the live list does not know. *)
Theorem attractions_grouped_by_land (clock : nat → Z) (landMap : list (string * string))
    (liveList : option (list Live.t)) (entities : list Entity.t) :
  ∃ organized,
    organizeParkData clock (RawParkData.mk (Some liveList) (Some (Some entities))) landMap
    = Some organized
    ∧ NoDup (Organized.lands organized).*1
    ∧ (∀ landName,
         entryOf landName (Organized.lands organized)
         = match valuesOf landName (ridesFrom clock landMap liveList 0 entities) with
           | [] => None
           | rides => Some rides
           end)
    ∧ ParkRide.id <$> allValues (Organized.lands organized)
      ≡ₚ Entity.id <$> ofType "ATTRACTION" entities.
Proof.
  eexists. split; [apply organize_body|]. simpl.
  destruct (grouped_fresh (ridesFrom clock landMap liveList 0 entities))
    as (Hnd & Hperm & Hget & _). cbv zeta in *.
  split; [done|]. split; [done|].
  rewrite Hperm, <- ridesFrom_ids with (clock := clock) (landMap := landMap)
    (liveList := liveList) (index := 0).
  by rewrite <- list_fmap_compose.
Qed.

(** X25.  A show is listed under a land exactly when it is the show built for a
    SHOW entity of that land and has at least one showtime: SHOW entities
    without live showtimes are left out. *)
Theorem shows_listed_with_showtimes (clock : nat → Z) (landMap : list (string * string))
    (liveList : option (list Live.t)) (entities : list Entity.t) :
  ∃ organized,
    organizeParkData clock (RawParkData.mk (Some liveList) (Some (Some entities))) landMap
    = Some organized
    ∧ ∀ landName show,
        (∃ listed, entryOf landName (Organized.shows organized) = Some listed ∧ show ∈ listed)
        ↔ ∃ entity, entity ∈ entities
            ∧ Entity.entityType entity = "SHOW"
            ∧ landOf landMap entity = landName
            ∧ show = buildShow landName entity
                       (liveList ≫= (λ l, findLive l (Entity.id entity)))
            ∧ ParkShow.showtimes show ≠ [].
Proof.
  eexists. split; [apply organize_body|]. simpl. intros landName show.
  destruct (grouped_fresh (showsFrom landMap liveList entities)) as (_ & _ & Hget & _).
  cbv zeta in *. rewrite <- showsFrom_elem, <- valuesOf_elem, Hget. split.
  - intros (listed & Hl & Hin). destruct (valuesOf _ _); [done|]. by injection Hl as <-.
  - intros Hin. destruct (valuesOf _ _) as [|x l]; [by apply elem_of_nil in Hin|]. by eexists.
Qed.

(** X26.  Every RESTAURANT entity is listed once, with or without live data; a
    restaurant is listed under the land its [land] field names, and its
    status is never empty (['CLOSED'] when the feed gives none). *)
Theorem every_restaurant_listed (clock : nat → Z) (landMap : list (string * string))
    (liveList : option (list Live.t)) (entities : list Entity.t) :
  ∃ organized,
    organizeParkData clock (RawParkData.mk (Some liveList) (Some (Some entities))) landMap
    = Some organized
    ∧ Restaurant.id <$> allValues (Organized.restaurants organized)
      ≡ₚ Entity.id <$> ofType "RESTAURANT" entities
    ∧ ∀ landName listed restaurant,
        entryOf landName (Organized.restaurants organized) = Some listed →
        restaurant ∈ listed →
        Restaurant.land restaurant = landName ∧ Restaurant.status restaurant ≠ "".
Proof.
  eexists. split; [apply organize_body|]. simpl.
  destruct (grouped_fresh (restaurantsFrom landMap liveList entities))
    as (_ & Hperm & Hget & _). cbv zeta in *. split.
  - rewrite Hperm, <- restaurantsFrom_ids with (landMap := landMap) (liveList := liveList).
    by rewrite <- list_fmap_compose.
  - intros landName listed restaurant Hl Hin. rewrite Hget in Hl.
    assert (Hv : restaurant ∈ valuesOf landName (restaurantsFrom landMap liveList entities)).
    { destruct (valuesOf _ _); [done|]. by injection Hl as <-. }
    apply valuesOf_elem, restaurantsFrom_elem in Hv as (entity & _ & _ & Hr).
    simpl in Hr. subst restaurant. simpl. split; [done|].
    destruct (_ ≫= _); [by apply orElse_nonempty|done].
Qed.

(** X27.  The ride built for an attraction passes the test of the ride check
    exactly when the user has an enabled preference for its id, the live
    list has an entry for it whose status is OPERATING or DOWN, and the
    wait of the STANDBY queue, taken as 0 when the queue or its wait is
    missing, is at most [maxWait].  So an attraction without live entry is
    never ready, and one that is DOWN without a wait counts as a wait of
    0. *)
Theorem ready_from_live_feed (preferences : gmap string Pref.t) (currentHour : Z)
    (entity : Entity.t) (liveData : option Live.t) :
  qualifies preferences (toRide (buildRide currentHour entity liveData)) = true
  ↔ ∃ pref live,
      preferences !! Entity.id entity = Some pref
      ∧ liveData = Some live
      ∧ Pref.enabled pref = true
      ∧ (Live.status live = Some "OPERATING" ∨ Live.status live = Some "DOWN")
      ∧ (default 0 ((Live.queue live ≫= Queue.STANDBY) ≫= Standby.waitTime)
         ≤ Pref.maxWait pref)%Z.
Proof.
  unfold qualifies, toRide, buildRide. cbn [Ride.id Ride.currentWait Ride.status
    ParkRide.id ParkRide.name ParkRide.currentWait ParkRide.status].
  assert (Hwait : rideCurrentWait (liveQueue liveData)
                  = default 0%Z (((liveData ≫= Live.queue) ≫= Queue.STANDBY) ≫= Standby.waitTime)).
  { unfold rideCurrentWait, liveQueue. destruct liveData as [live|]; [|done]. simpl.
    destruct (Live.queue live) as [q|]; [|done]. simpl. by destruct (Queue.STANDBY q). }
  rewrite Hwait. clear Hwait.
  destruct (preferences !! Entity.id entity) as [pref|]; [|split; [done|by intros (?&?&?&_)]].
  rewrite !andb_true_iff, orb_true_iff, Z.leb_le.
  rewrite <- !(reflect_iff _ _ (String.eqb_spec _ _)).
  rewrite !rideStatus_is by done.
  split.
  - intros [[He Hw] Hs]. destruct liveData as [live|]; [|by destruct Hs].
    exists pref, live. simpl in *. done.
  - intros (pref' & live & [= <-] & -> & He & Hs & Hw). done.
Qed.

(** X28.  The forecast hours are looked up as [currentHour + 1] and
    [currentHour + 2] without wrapping at midnight: as [getHours] returns
    0 to 23, a ride built at 22 h or later has no second forecast, and one
    built at 23 h has no forecast at all for the coming hours. *)
Theorem no_forecast_past_hour_23 (currentHour : Z) (entity : Entity.t)
    (liveData : option Live.t) :
  (∀ time h, getHours time = Some h → (0 ≤ h ≤ 23)%Z) →
  (22 ≤ currentHour)%Z →
  let ride := buildRide currentHour entity liveData in
  ParkRide.forecastWait2 ride = None ∧ ParkRide.forecastHour2 ride = None
  ∧ ((23 ≤ currentHour)%Z →
     ParkRide.forecastWait1 ride = None ∧ ParkRide.forecastHour1 ride = None).
Proof.
  intros Hrange Hhour. simpl.
  rewrite (findForecast_out_of_range _ (currentHour + 2)) by (done || lia).
  split; [done|]. split; [done|]. intros H23.
  by rewrite (findForecast_out_of_range _ (currentHour + 1)) by (done || lia).
Qed.

(** X29.  Every key of [lands], [shows] and [restaurants] is either ['Other'] or
    a land name of the map passed to [organizeParkData]. *)
Theorem land_names_come_from_the_map (clock : nat → Z) (parkData : RawParkData.t)
    (landMap : list (string * string)) (organized : Organized.t) (landName : string) :
  organizeParkData clock parkData landMap = Some organized →
  landName ∈ (Organized.lands organized).*1
  ∨ landName ∈ (Organized.shows organized).*1
  ∨ landName ∈ (Organized.restaurants organized).*1 →
  landName = "Other" ∨ landName ∈ landMap.*2.
Proof.
  destruct parkData as [liveData children].
  assert (Hempty : Some (Organized.mk [] [] []) = Some organized →
    landName ∈ (Organized.lands organized).*1
    ∨ landName ∈ (Organized.shows organized).*1
    ∨ landName ∈ (Organized.restaurants organized).*1 → landName = "Other" ∨ landName ∈ landMap.*2).
  { intros [= <-]. simpl. by intros [?%elem_of_nil|[?%elem_of_nil|?%elem_of_nil]]. }
  destruct children as [[entities|]|]; [|done|done].
  destruct liveData as [liveList|]; [|by destruct entities].
  rewrite organize_body. intros [= <-]. simpl.
  destruct (grouped_fresh (ridesFrom clock landMap liveList 0 entities)) as (_ & _ & _ & Hl).
  destruct (grouped_fresh (showsFrom landMap liveList entities)) as (_ & _ & _ & Hs).
  destruct (grouped_fresh (restaurantsFrom landMap liveList entities)) as (_ & _ & _ & Hr).
  cbv zeta in *. rewrite Hl, Hs, Hr. clear Hl Hs Hr Hempty.
  intros [Hin|[Hin|Hin]]; apply list_elem_of_fmap in Hin as ([L x] & -> & Hin); simpl.
  - apply ridesFrom_land in Hin as (entity & _ & Hp). simpl in Hp. subst L. apply landOf_known.
  - apply showsFrom_elem in Hin as (entity & _ & _ & <- & _). apply landOf_known.
  - apply restaurantsFrom_elem in Hin as (entity & _ & Hp & _). simpl in Hp. subst L.
    apply landOf_known.
Qed.

End ProviderFacts.

Lemma every_restaurant_listed_witness :
  Restaurant.land (Restaurant.mk "e1" "Galactic Grill" "Other" "CLOSED") = "Other"
  ∧ Restaurant.status (Restaurant.mk "e1" "Galactic Grill" "Other" "CLOSED") ≠ "".
Proof.
  destruct (every_restaurant_listed (pf := demoPlatform) (λ _, 14%Z) DISNEYLAND_LAND_MAP
              (Some demoLive) demoEntities) as (organized & Horganized & _ & Hland).
  vm_compute in Horganized. injection Horganized as <-.
  apply (Hland "Other" [Restaurant.mk "e1" "Galactic Grill" "Other" "CLOSED"]);
    [reflexivity | left].
Defined.

Lemma no_forecast_past_hour_23_witness :
  ParkRide.forecastWait1
    (buildRide (pf := demoPlatform) 23 (Entity.mk "r1" "Fantasyland Carousel" "ATTRACTION")
       (findLive demoLive "r1")) = None
  ∧ ParkRide.forecastWait2
      (buildRide (pf := demoPlatform) 23 (Entity.mk "r1" "Fantasyland Carousel" "ATTRACTION")
         (findLive demoLive "r1")) = None.
Proof.
  assert (Hrange : ∀ time h,
            getHours (Platform := demoPlatform) time = Some h → (0 ≤ h ≤ 23)%Z).
  { intros time h. simpl. intros [[_ <-]|[_ H]]%lookup_insert_Some; [lia|].
    apply lookup_singleton_Some in H as [_ <-]. lia. }
  assert (Hhour : (22 ≤ 23)%Z) by lia.
  destruct (no_forecast_past_hour_23 (pf := demoPlatform) 23
              (Entity.mk "r1" "Fantasyland Carousel" "ATTRACTION") (findLive demoLive "r1")
              Hrange Hhour) as (Hwait2 & _ & Hnext).
  split; [|exact Hwait2]. apply Hnext. lia.
Defined.

Lemma land_names_come_from_the_map_witness :
  "Fantasyland" = "Other" ∨ "Fantasyland" ∈ DISNEYLAND_LAND_MAP.*2.
Proof.
  apply (land_names_come_from_the_map (pf := demoPlatform) (λ _, 14%Z) demoRaw
           DISNEYLAND_LAND_MAP
           (default (Organized.mk [] [] [])
              (organizeParkData (pf := demoPlatform) (λ _, 14%Z) demoRaw DISNEYLAND_LAND_MAP))).
  - vm_compute. reflexivity.
  - left. vm_compute. left.
Defined.

(** ** The cache update *)

Section CacheFacts.
Context {pf : Platform}.

Lemma entryOf_updatePark (cache : list (string * CachedPark.t)) (park : string * string)
    (k : string) :
  entryOf k (updatePark cache park)
  = if decide (k = park.1) then refreshed cache park.1 park.2 else entryOf k cache.
Proof.
  unfold updatePark, refreshed. destruct park as [parkKey parkId]. simpl.
  destruct (fetchParkData parkId) as [parkData|]; simpl; [|by case_decide; subst].
  destruct (organizeParkData _ _ _) as [organized|]; [|by case_decide; subst].
  rewrite entryOf_assign. by case_decide.
Qed.

Lemma keys_updatePark (cache : list (string * CachedPark.t)) (park : string * string) :
  park.1 ∈ cache.*1 → (updatePark cache park).*1 = cache.*1.
Proof.
  intros Hin. unfold updatePark. destruct (fetchParkData _); [|done].
  destruct (organizeParkData _ _ _); [|done]. by apply keys_assign.
Qed.

(** X30.  [updateParkDataCache] treats the two parks independently: the entry of
    a park is the one built from its own answer, and stays what it was
    when its requests or [organizeParkData] throw, whatever happens to the
    other park.  Entries under other keys are untouched, and when the
    cache has both park keys its keys keep their order. *)
Theorem update_refreshes_each_park (cache : list (string * CachedPark.t)) :
  (∀ parkKey parkId, (parkKey, parkId) ∈ PARK_IDS →
     entryOf parkKey (updateParkDataCache cache) = refreshed cache parkKey parkId)
  ∧ (∀ key, key ∉ PARK_IDS.*1 → entryOf key (updateParkDataCache cache) = entryOf key cache)
  ∧ ((∀ parkKey, parkKey ∈ PARK_IDS.*1 → parkKey ∈ cache.*1) →
     (updateParkDataCache cache).*1 = cache.*1).
Proof.
  unfold updateParkDataCache, PARK_IDS. cbn [foldl]. split; [|split].
  - intros parkKey parkId [Heq|Heq%list_elem_of_singleton]%elem_of_cons;
      injection Heq as -> ->.
    + rewrite !entryOf_updatePark. cbn [fst snd]. by rewrite decide_False, decide_True.
    + rewrite !entryOf_updatePark. cbn [fst snd]. rewrite decide_True by done.
      unfold refreshed. destruct (_ ≫= _); [done|].
      rewrite entryOf_updatePark. by rewrite decide_False.
  - intros key Hkey. rewrite !entryOf_updatePark. cbn [fst snd].
    rewrite !decide_False; [done| |]; intros ->; apply Hkey; simpl; [left|right; left].
  - intros Hkeys. rewrite !keys_updatePark; [done| |]; cbn [fst].
    + apply Hkeys. left.
    + rewrite keys_updatePark; apply Hkeys; simpl; [right; left|left].
Qed.

End CacheFacts.

Lemma update_refreshes_each_park_witness :
  entryOf "californiaadventure" (updateParkDataCache (pf := demoPlatform) initialCache)
  = Some (CachedPark.mk None [] [] [] None)
  ∧ (updateParkDataCache (pf := demoPlatform) initialCache).*1 = initialCache.*1.
Proof.
  destruct (update_refreshes_each_park (pf := demoPlatform) initialCache)
    as (Hpark & _ & Hkeys).
  split.
  - rewrite (Hpark "californiaadventure" "832fcd51-ea19-4e77-85c7-75d5843b127c").
    + reflexivity.
    + right. left.
  - apply Hkeys. intros parkKey Hin.
    apply elem_of_cons in Hin as [->|Hin]; [left|].
    apply elem_of_cons in Hin as [->|Hin]; [right; left|]. by apply elem_of_nil in Hin.
Defined.
